(** * Engagement aggregation of the Ly platform: vote ledger, rating, roll-ups

    A shallow embedding of the Mongoose models [LikeDislike], [Composition]
    and [Song] (with their lifecycle hooks) and of the route handlers
    [POST /api/compositions/:id/vote], [DELETE /api/compositions/:id] and
    [DELETE /api/songs/:id], followed by the properties of the engagement
    subsystem.

    - Collections are lists of documents in insertion order.
    - Asynchronous handlers run to completion one at a time; they are
      written in a state-and-exception monad over the database and a log
      of the storage calls issued so far.
    - JavaScript Numbers that hold a rating are binary64 floats
      ([PrimFloat]); document counts are natural numbers, converted to
      Numbers where the code computes with them.
    - [doc.save()] writes the paths modified since the document was
      loaded; an unmodified document is not written.
    - Ids are ObjectIds already cast; populated documents in a response
      are represented by the collection and the id of the document.

    Part I is the program, Part II the vocabulary of the statements,
    Part III the lemmas and Part IV the properties C1 to C10.  Part V
    proves further properties of the hooks and of the handlers beside the
    vote path: reading, creating, updating and deleting a
    composition, the vote statistics and the listing of a user's
    compositions. *)

From Stdlib Require Import ZArith List Bool Arith Lia String Floats Reals Lra.
From Stdlib Require Import Permutation.
Import ListNotations.

Set Implicit Arguments.

(** * Part I: the program *)

(** ** Documents *)

Definition ObjectId := nat.

Module LikeDislike.
(** [likeDislikeSchema]: user, composition, type. *)
Record doc := mk {
  _id : ObjectId;
  user : ObjectId;
  composition : ObjectId;
  type : string
}.
Definition set_type (t : string) (d : doc) : doc :=
  mk (_id d) (user d) (composition d) t.
End LikeDislike.

Module Composition.
(** [compositionSchema], the fields the engagement subsystem reads or
    writes; the remaining content fields (title, content, instrument, ...)
    are never touched by it. *)
Record doc := mk {
  _id : ObjectId;
  song : ObjectId;
  composer : ObjectId;
  likes : nat;
  dislikes : nat;
  rating : float;
  views : nat;
  isPublic : bool
}.
Definition set_likes (n : nat) (d : doc) : doc :=
  mk (_id d) (song d) (composer d) n (dislikes d) (rating d) (views d) (isPublic d).
Definition set_dislikes (n : nat) (d : doc) : doc :=
  mk (_id d) (song d) (composer d) (likes d) n (rating d) (views d) (isPublic d).
Definition set_rating (r : float) (d : doc) : doc :=
  mk (_id d) (song d) (composer d) (likes d) (dislikes d) r (views d) (isPublic d).
(** Whether [this] differs, in some path, from the document as loaded. *)
Definition modified (loaded this : doc) : bool :=
  negb ((_id this =? _id loaded) && (song this =? song loaded) &&
        (composer this =? composer loaded) &&
        (likes this =? likes loaded) && (dislikes this =? dislikes loaded) &&
        PrimFloat.Leibniz.eqb (rating this) (rating loaded) &&
        (views this =? views loaded) && Bool.eqb (isPublic this) (isPublic loaded)).
End Composition.

Module Song.
(** [songSchema]: the owner and the roll-up counter. *)
Record doc := mk {
  _id : ObjectId;
  addedBy : ObjectId;
  compositionsCount : nat
}.
Definition set_compositionsCount (n : nat) (d : doc) : doc :=
  mk (_id d) (addedBy d) n.
Definition modified (loaded this : doc) : bool :=
  negb ((_id this =? _id loaded) && (addedBy this =? addedBy loaded) &&
        (compositionsCount this =? compositionsCount loaded)).
End Song.

Module User.
(** Modelled from the spec: the User model (models/User.js is not among
    the sources).  A voter is an identity with the roll-up attribute
    [compositionsCount]; saving a user persists the document. *)
Record doc := mk {
  _id : ObjectId;
  compositionsCount : nat
}.
Definition set_compositionsCount (n : nat) (d : doc) : doc :=
  mk (_id d) n.
Definition modified (loaded this : doc) : bool :=
  negb ((_id this =? _id loaded) &&
        (compositionsCount this =? compositionsCount loaded)).
End User.

(** ** Database, storage log and the handler monad *)

Record DB := mkDB {
  likedislikes : list LikeDislike.doc;
  compositions : list Composition.doc;
  songs : list Song.doc;
  users : list User.doc;
  next_id : ObjectId
}.

Inductive Collection := LikeDislikes | Compositions | Songs | Users.

(** One entry per call that reaches the storage layer. *)
Inductive StorageOp :=
| OpFind (c : Collection)
| OpCount (c : Collection)
| OpInsert (c : Collection) (id : ObjectId)
| OpUpdate (c : Collection) (id : ObjectId)
| OpDelete (c : Collection) (id : ObjectId)
| OpDeleteMany (c : Collection).

Definition is_write (o : StorageOp) : bool :=
  match o with
  | OpFind _ | OpCount _ => false
  | _ => true
  end.

Record World := mkWorld {
  db : DB;
  log : list StorageOp
}.

Inductive Exn :=
| DuplicateKey          (* MongoServerError E11000 *)
| ValidationError       (* mongoose schema validation *)
| DocumentNotFound      (* save() of a document that is gone *)
| TypeError.            (* property access on null *)

Inductive Result (A : Type) :=
| Ok (a : A)
| Throw (e : Exn).
Arguments Throw {A} e.

(** A thrown exception keeps the writes made before it: there is no
    transaction around a handler. *)
Definition Mongo (A : Type) := World -> Result A * World.

Definition ret {A} (a : A) : Mongo A := fun w => (Ok a, w).

Definition bind {A B} (m : Mongo A) (k : A -> Mongo B) : Mongo B :=
  fun w =>
    match m w with
    | (Ok a, w') => k a w'
    | (Throw e, w') => (Throw e, w')
    end.

Definition throw {A} (e : Exn) : Mongo A := fun w => (Throw e, w).

Definition try_catch {A} (m : Mongo A) (h : Exn -> Mongo A) : Mongo A :=
  fun w =>
    match m w with
    | (Ok a, w') => (Ok a, w')
    | (Throw e, w') => h e w'
    end.

Declare Scope mongo_scope.
Delimit Scope mongo_scope with mongo.
Notation "x <- m ;; k" := (bind m (fun x => k))
  (at level 61, m at next level, right associativity) : mongo_scope.
Notation "m ;;; k" := (bind m (fun _ => k))
  (at level 61, right associativity) : mongo_scope.
Local Open Scope mongo_scope.

Definition storage_call (o : StorageOp) : Mongo unit :=
  fun w => (Ok tt, mkWorld (db w) (log w ++ [o])).

Definition get_db : Mongo DB := fun w => (Ok (db w), w).

Definition put_db (d : DB) : Mongo unit := fun w => (Ok tt, mkWorld d (log w)).

Definition fresh_id : Mongo ObjectId :=
  fun w =>
    let d := db w in
    (Ok (next_id d),
     mkWorld (mkDB (likedislikes d) (compositions d) (songs d) (users d) (S (next_id d)))
             (log w)).

(** ** The Mongoose model interface *)

Record Model (A : Type) := mkModel {
  coll : Collection;
  docs : DB -> list A;
  with_docs : list A -> DB -> DB;
  id_of : A -> ObjectId
}.

Definition LikeDislikeModel : Model LikeDislike.doc :=
  mkModel LikeDislikes likedislikes
    (fun l d => mkDB l (compositions d) (songs d) (users d) (next_id d))
    LikeDislike._id.

Definition CompositionModel : Model Composition.doc :=
  mkModel Compositions compositions
    (fun l d => mkDB (likedislikes d) l (songs d) (users d) (next_id d))
    Composition._id.

Definition SongModel : Model Song.doc :=
  mkModel Songs songs
    (fun l d => mkDB (likedislikes d) (compositions d) l (users d) (next_id d))
    Song._id.

Definition UserModel : Model User.doc :=
  mkModel Users users
    (fun l d => mkDB (likedislikes d) (compositions d) (songs d) l (next_id d))
    User._id.

Section ModelOps.
Context {A : Type} (M : Model A).

Definition has_id (i : ObjectId) (d : A) : bool := id_of M d =? i.

Definition findOne (filter : A -> bool) : Mongo (option A) :=
  storage_call (OpFind (coll M)) ;;;
  d <- get_db ;;
  ret (find filter (docs M d)).

Definition findById (i : ObjectId) : Mongo (option A) :=
  findOne (has_id i).

Definition countDocuments (filter : A -> bool) : Mongo nat :=
  storage_call (OpCount (coll M)) ;;;
  d <- get_db ;;
  ret (List.length (List.filter filter (docs M d))).

Definition deleteMany (filter : A -> bool) : Mongo unit :=
  storage_call (OpDeleteMany (coll M)) ;;;
  d <- get_db ;;
  put_db (with_docs M (List.filter (fun x => negb (filter x)) (docs M d)) d).

(** Removes the first document carrying the id, if any. *)
Fixpoint remove_id (i : ObjectId) (l : list A) : list A :=
  match l with
  | [] => []
  | x :: r => if has_id i x then r else x :: remove_id i r
  end.

Definition findByIdAndDelete (i : ObjectId) : Mongo (option A) :=
  storage_call (OpDelete (coll M) i) ;;;
  d <- get_db ;;
  put_db (with_docs M (remove_id i (docs M d)) d) ;;;
  ret (find (has_id i) (docs M d)).

(** Overwrites, in place, the stored document that carries the id of [x]. *)
Fixpoint replace_doc (x : A) (l : list A) : list A :=
  match l with
  | [] => []
  | y :: r => if has_id (id_of M x) y then x :: r else y :: replace_doc x r
  end.

(** The [_id] index refuses a second document with the same id. *)
Definition insertOne (x : A) : Mongo unit :=
  storage_call (OpInsert (coll M) (id_of M x)) ;;;
  d <- get_db ;;
  if existsb (has_id (id_of M x)) (docs M d)
  then throw DuplicateKey
  else put_db (with_docs M (docs M d ++ [x]) d).

Definition updateOne (x : A) : Mongo unit :=
  storage_call (OpUpdate (coll M) (id_of M x)) ;;;
  d <- get_db ;;
  match find (has_id (id_of M x)) (docs M d) with
  | None => throw DocumentNotFound
  | Some _ => put_db (with_docs M (replace_doc x (docs M d)) d)
  end.

(** [doc.save()] on a document the handler has loaded and assigned to.
    Handlers run one at a time, so the document as loaded is the document
    stored.  Mongoose sends an update only when a path was modified; for
    an unmodified document it only checks that the document is still
    stored, which is a read. *)
Definition save (modified : A -> A -> bool) (this : A) : Mongo unit :=
  d <- get_db ;;
  match find (has_id (id_of M this)) (docs M d) with
  | Some loaded =>
      if modified loaded this then updateOne this
      else storage_call (OpFind (coll M))
  | None => updateOne this
  end.
End ModelOps.

(** ** Numbers *)

(** The Number holding an integer: the binary64 value nearest to it (the
    integer itself up to 2^53). *)
Definition Number_of_Z (z : Z) : float :=
  SF2Prim (binary_normalize prec emax z 0 false).

Definition Number_of_nat (n : nat) : float := Number_of_Z (Z.of_nat n).

(** The integer a Number holds, for a Number that holds one (a fraction
    is cut off). *)
Definition Number_to_Z (x : float) : Z :=
  match Prim2SF x with
  | S754_finite s m e =>
      let v := if (0 <=? e)%Z then (Z.pos m * 2 ^ e)%Z else (Z.pos m / 2 ^ (- e))%Z in
      if s then (- v)%Z else v
  | _ => 0%Z
  end.

(** [Math.round]: the nearest integer, a tie going towards +infinity;
    zeros, infinities and NaN are returned unchanged. *)
Definition Math_round (x : float) : float :=
  match Prim2SF x with
  | S754_finite s m e =>
      if (0 <=? e)%Z then x
      else
        let n := (((if s then Z.neg m else Z.pos m) + 2 ^ (- e - 1)) / 2 ^ (- e))%Z in
        if (n =? 0)%Z then (if s then neg_zero else zero) else Number_of_Z n
  | _ => x
  end.

(** ** Composition methods and hooks *)

(** [compositionSchema.methods.calculateRating]: the value returned and
    [this] after the call.  With no votes the method returns 0 before the
    assignment to [this.rating].  The sum of the two counts is taken on
    the naturals, which is what the addition of Numbers gives as long as
    it stays below 2^53. *)
Definition calculateRating (this : Composition.doc) : float * Composition.doc :=
  let total := Composition.likes this + Composition.dislikes this in
  if total =? 0 then (0%float, this)
  else
    let ratio := (Number_of_nat (Composition.likes this) / Number_of_nat total)%float in
    let this' := Composition.set_rating (Math_round (ratio * 5 * 10) / 10)%float this in
    (Composition.rating this', this').

(** The rating calculator as a function of the two counts: the value
    [calculateRating] returns on a composition carrying them. *)
Definition Rating (likes dislikes : nat) : float :=
  fst (calculateRating
         (Composition.mk 0 0 0 likes dislikes 0%float 0 true)).

(** [songSchema.methods.updateCompositionsCount]. *)
Definition updateCompositionsCount (this : Song.doc) : Mongo unit :=
  n <- countDocuments CompositionModel
         (fun c => Composition.song c =? Song._id this) ;;
  save SongModel Song.modified (Song.set_compositionsCount n this).

(** [compositionSchema.post('save')]: recount the composer's and the
    song's compositions. *)
Definition Composition_post_save (this : Composition.doc) : Mongo unit :=
  user <- findById UserModel (Composition.composer this) ;;
  match user with
  | Some u =>
      n <- countDocuments CompositionModel
             (fun c => Composition.composer c =? Composition.composer this) ;;
      save UserModel User.modified (User.set_compositionsCount n u)
  | None => ret tt
  end ;;;
  song <- findById SongModel (Composition.song this) ;;
  match song with
  | Some s => updateCompositionsCount s
  | None => ret tt
  end.

(** [composition.save()] on a stored composition, followed by its hook;
    the hook runs whether or not a path was modified. *)
Definition Composition_save (this : Composition.doc) : Mongo unit :=
  save CompositionModel Composition.modified this ;;;
  Composition_post_save this.

(** [new Composition({...}).save()]: creation of a target. *)
Definition Composition_create (song composer : ObjectId) (isPublic : bool)
  : Mongo Composition.doc :=
  i <- fresh_id ;;
  let this := Composition.mk i song composer 0 0 0%float 0 isPublic in
  insertOne CompositionModel this ;;;
  Composition_post_save this ;;;
  ret this.

(** ** The vote ledger *)

Definition like : string := "like".
Definition dislike : string := "dislike".

Definition valid_type (t : string) : bool :=
  String.eqb t like || String.eqb t dislike.

Definition same_pair (u c : ObjectId) (v : LikeDislike.doc) : bool :=
  (LikeDislike.user v =? u) && (LikeDislike.composition v =? c).

(** The unique index [{ user: 1, composition: 1 }]: a write of [v] is
    refused when another stored row has the same pair. *)
Definition violates_unique_index (v : LikeDislike.doc) (l : list LikeDislike.doc) : bool :=
  existsb (fun x => same_pair (LikeDislike.user v) (LikeDislike.composition v) x
                    && negb (LikeDislike._id x =? LikeDislike._id v)) l.

Definition votes_of (c : ObjectId) (t : string) (v : LikeDislike.doc) : bool :=
  (LikeDislike.composition v =? c) && String.eqb (LikeDislike.type v) t.

(** [updateCompositionCounts(compositionId)]. *)
Definition updateCompositionCounts (compositionId : ObjectId) : Mongo unit :=
  likes <- countDocuments LikeDislikeModel (votes_of compositionId like) ;;
  dislikes <- countDocuments LikeDislikeModel (votes_of compositionId dislike) ;;
  composition <- findById CompositionModel compositionId ;;
  match composition with
  | Some c =>
      let c := Composition.set_likes likes c in
      let c := Composition.set_dislikes dislikes c in
      let c := snd (calculateRating c) in
      Composition_save c
  | None => ret tt
  end.

(** [vote.save()]: schema validation, the write under the unique index,
    then [likeDislikeSchema.post('save')]. *)
Definition LikeDislike_save (isNew : bool) (this : LikeDislike.doc) : Mongo unit :=
  (if valid_type (LikeDislike.type this) then ret tt else throw ValidationError) ;;;
  d <- get_db ;;
  (if violates_unique_index this (likedislikes d)
   then storage_call ((if isNew then OpInsert else OpUpdate)
                        LikeDislikes (LikeDislike._id this)) ;;;
        throw DuplicateKey
   else if isNew then insertOne LikeDislikeModel this
        else updateOne LikeDislikeModel this) ;;;
  updateCompositionCounts (LikeDislike.composition this).

(** ** Route handlers *)

Inductive JVal :=
| JString (s : string)
| JNull
| JNumber (n : nat)
| JDoc (c : Collection) (id : ObjectId)    (* a stored document, serialised *)
| JStrings (l : list string).             (* an array of strings *)

Definition Json := list (string * JVal).

Fixpoint field (k : string) (o : Json) : option JVal :=
  match o with
  | [] => None
  | (k', v) :: r => if String.eqb k' k then Some v else field k r
  end.

Record Response := mkResponse {
  status : nat;
  body : Json
}.

Definition json (o : Json) : Response := mkResponse 200 o.

Definition message (s : string) : Json := [("message"%string, JString s)].

(** The body sent when [validationResult(req)] is not empty; each entry of
    [errors.array()] is represented by its message. *)
Definition validation_failed (msgs : list string) : Response :=
  mkResponse 400
    [("message", JString "Validation failed");
     ("errors", JStrings msgs)]%string.

Record VoteRequest := mkVoteRequest {
  req_user : ObjectId;       (* req.user._id, set by authMiddleware *)
  params_id : ObjectId;      (* req.params.id *)
  body_type : string         (* req.body.type *)
}.

(** [POST /api/compositions/:id/vote]. *)
Definition vote (req : VoteRequest) : Mongo Response :=
  try_catch
    (if negb (valid_type (body_type req))
     then ret (validation_failed ["Vote type must be either like or dislike"%string])
     else
       composition <- findById CompositionModel (params_id req) ;;
       match composition with
       | None => ret (mkResponse 404 (message "Composition not found"))
       | Some composition =>
           existingVote <- findOne LikeDislikeModel
                             (same_pair (req_user req) (Composition._id composition)) ;;
           match existingVote with
           | Some existingVote =>
               if String.eqb (LikeDislike.type existingVote) (body_type req)
               then
                 findByIdAndDelete LikeDislikeModel (LikeDislike._id existingVote) ;;;
                 ret (json [("message", JString "Vote removed");
                            ("action", JString "removed")]%string)
               else
                 LikeDislike_save false
                   (LikeDislike.set_type (body_type req) existingVote) ;;;
                 ret (json [("message", JString "Vote updated");
                            ("action", JString "updated");
                            ("type", JString (body_type req))]%string)
           | None =>
               i <- fresh_id ;;
               LikeDislike_save true
                 (LikeDislike.mk i (req_user req) (Composition._id composition)
                    (body_type req)) ;;;
               ret (json [("message", JString "Vote added");
                          ("action", JString "added");
                          ("type", JString (body_type req))]%string)
           end
       end)
    (fun _ => ret (mkResponse 500 (message "Server error while voting on composition"))).

(** [DELETE /api/compositions/:id]. *)
Definition deleteComposition (user id : ObjectId) : Mongo Response :=
  try_catch
    (composition <- findById CompositionModel id ;;
     match composition with
     | None => ret (mkResponse 404 (message "Composition not found"))
     | Some composition =>
         if negb (Composition.composer composition =? user)
         then ret (mkResponse 403 (message "Not authorized to delete this composition"))
         else
           deleteMany LikeDislikeModel
             (fun v => LikeDislike.composition v =? Composition._id composition) ;;;
           findByIdAndDelete CompositionModel id ;;;
           ret (json (message "Composition deleted successfully"))
     end)
    (fun _ => ret (mkResponse 500 (message "Server error while deleting composition"))).

(** [DELETE /api/songs/:id]. *)
Definition deleteSong (user id : ObjectId) : Mongo Response :=
  try_catch
    (song <- findById SongModel id ;;
     match song with
     | None => ret (mkResponse 404 (message "Song not found"))
     | Some song =>
         if negb (Song.addedBy song =? user)
         then ret (mkResponse 403 (message "Not authorized to delete this song"))
         else
           deleteMany CompositionModel
             (fun c => Composition.song c =? Song._id song) ;;;
           findByIdAndDelete SongModel id ;;;
           ret (json (message "Song and all related compositions deleted successfully"))
     end)
    (fun _ => ret (mkResponse 500 (message "Server error while deleting song"))).

(** [POST /api/compositions], for a body that passed the field validators
    and names the song [song]; the counters start from the schema defaults. *)
Definition createComposition (user song : ObjectId) (isPublic : bool) : Mongo Response :=
  try_catch
    (s <- findById SongModel song ;;
     match s with
     | None => ret (mkResponse 404 (message "Song not found"))
     | Some _ =>
         composition <- Composition_create song user isPublic ;;
         populated <- findById CompositionModel (Composition._id composition) ;;
         findById UserModel user ;;;
         findById SongModel song ;;;
         ret (mkResponse 201
                [("message", JString "Composition created successfully");
                 ("composition", JDoc Compositions (Composition._id composition))]%string)
     end)
    (fun _ => ret (mkResponse 500 (message "Server error while creating composition"))).

(** [composition.views += 1]: an addition of Numbers. *)
Definition add_view (c : Composition.doc) : Composition.doc :=
  Composition.mk (Composition._id c) (Composition.song c) (Composition.composer c)
    (Composition.likes c) (Composition.dislikes c) (Composition.rating c)
    (Z.to_nat (Number_to_Z (Number_of_nat (Composition.views c) + 1)%float))
    (Composition.isPublic c).

(** [GET /api/compositions/:id], with [req.user] when a token was sent. *)
Definition getComposition (user : option ObjectId) (id : ObjectId) : Mongo Response :=
  try_catch
    (composition <- findById CompositionModel id ;;
     match composition with
     | None => ret (mkResponse 404 (message "Composition not found"))
     | Some composition =>
         composer <- findById UserModel (Composition.composer composition) ;;
         findById SongModel (Composition.song composition) ;;;
         allowed <-
           (if Composition.isPublic composition then ret true
            else match user with
                 | None => ret false
                 | Some u =>
                     match composer with
                     | None => throw TypeError
                     | Some p => ret (User._id p =? u)
                     end
                 end) ;;
         if negb allowed
         then ret (mkResponse 403 (message "This composition is private"))
         else
           Composition_save (add_view composition) ;;;
           userVote <-
             match user with
             | None => ret JNull
             | Some u =>
                 vote <- findOne LikeDislikeModel
                           (same_pair u (Composition._id composition)) ;;
                 ret match vote with
                     | Some v => JString (LikeDislike.type v)
                     | None => JNull
                     end
             end ;;
           ret (json [("composition", JDoc Compositions (Composition._id composition));
                      ("userVote", userVote)]%string)
     end)
    (fun _ => ret (mkResponse 500 (message "Server error while fetching composition"))).

(** The requests of the engagement subsystem. *)
Inductive Request :=
| PostVote (req : VoteRequest)
| DeleteComposition (user id : ObjectId)
| DeleteSong (user id : ObjectId)
| PostComposition (user song : ObjectId) (isPublic : bool)
| GetComposition (user : option ObjectId) (id : ObjectId).

Definition handle (r : Request) : Mongo Response :=
  match r with
  | PostVote req => vote req
  | DeleteComposition user id => deleteComposition user id
  | DeleteSong user id => deleteSong user id
  | PostComposition user song isPublic => createComposition user song isPublic
  | GetComposition user id => getComposition user id
  end.

Fixpoint serve (rs : list Request) (w : World) : World :=
  match rs with
  | [] => w
  | r :: rs => serve rs (snd (handle r w))
  end.

(** ** Hooks and handlers beside the vote path *)

Section QueryOps.
Context {A : Type} (M : Model A).

(** Removes the first document the filter accepts, if any. *)
Fixpoint remove_first (filter : A -> bool) (l : list A) : list A :=
  match l with
  | [] => []
  | x :: r => if filter x then r else x :: remove_first filter r
  end.

(** [Model.deleteOne(filter)]: logged as the delete of the document it
    removes, and as a read when the filter accepts none. *)
Definition deleteOne (filter : A -> bool) : Mongo unit :=
  d <- get_db ;;
  match find filter (docs M d) with
  | Some x =>
      storage_call (OpDelete (coll M) (id_of M x)) ;;;
      put_db (with_docs M (remove_first filter (docs M d)) d)
  | None => storage_call (OpFind (coll M))
  end.

(** [Model.find(filter).sort(key).skip(skip).limit(limit)].  The documents
    carry no [createdAt] here, and the order of documents with equal keys
    is up to the database: [sorted] is the order in which this query gets
    the documents that pass the filter.  A limit of 0 is no limit. *)
Definition find_sorted (sorted : list A -> list A) (filter : A -> bool) (skip limit : nat)
  : Mongo (list A) :=
  storage_call (OpFind (coll M)) ;;;
  d <- get_db ;;
  let found := sorted (List.filter filter (docs M d)) in
  ret (if limit =? 0 then skipn skip found else firstn limit (skipn skip found)).
End QueryOps.

(** [LikeDislike.deleteOne(filter)]: the query deletes, then
    [likeDislikeSchema.post('deleteOne', { document: false, query: true })]
    looks the filter up again and recounts the target of what it finds. *)
Definition LikeDislike_deleteOne (filter : LikeDislike.doc -> bool) : Mongo unit :=
  deleteOne LikeDislikeModel filter ;;;
  doc <- findOne LikeDislikeModel filter ;;
  match doc with
  | Some doc => updateCompositionCounts (LikeDislike.composition doc)
  | None => ret tt
  end.

(** The answer of a handler whose 200 body is not a flat object of strings:
    the body as a record, or the error response. *)
Inductive Answer (A : Type) :=
| Success (a : A)
| Failure (r : Response).
Arguments Failure {A} r.

(** [$group: { _id: '$type', count: { $sum: 1 } }]: one group per type, in
    the order of first occurrence (the handler looks groups up by key). *)
Fixpoint bump (k : string) (groups : list (string * nat)) : list (string * nat) :=
  match groups with
  | [] => [(k, 1)]
  | (k', n) :: r => if String.eqb k' k then (k', S n) :: r else (k', n) :: bump k r
  end.

Definition group_by_type (l : list LikeDislike.doc) : list (string * nat) :=
  fold_left (fun groups v => bump (LikeDislike.type v) groups) l [].

(** [LikeDislike.aggregate([{ $match: { composition } }, { $group: ... }])],
    logged as a read of the ledger. *)
Definition aggregate_votes (composition : ObjectId) : Mongo (list (string * nat)) :=
  storage_call (OpFind LikeDislikes) ;;;
  d <- get_db ;;
  ret (group_by_type
         (filter (fun v => LikeDislike.composition v =? composition) (likedislikes d))).

(** [voteStats.find(stat => stat._id === t)?.count || 0]. *)
Definition stat_count (t : string) (voteStats : list (string * nat)) : nat :=
  match find (fun stat => String.eqb (fst stat) t) voteStats with
  | Some stat => snd stat
  | None => 0
  end.

Record VoteStats := mkVoteStats {
  compositionId : ObjectId;
  stats_likes : nat;
  stats_dislikes : nat;
  stats_total : nat;
  stats_rating : float;
  stats_userVote : JVal
}.

(** [GET /api/compositions/:id/votes], with [req.user] when a token was
    sent. *)
Definition getVotes (user : option ObjectId) (id : ObjectId) : Mongo (Answer VoteStats) :=
  try_catch
    (composition <- findById CompositionModel id ;;
     match composition with
     | None => ret (Failure (mkResponse 404 (message "Composition not found")))
     | Some composition =>
         voteStats <- aggregate_votes (Composition._id composition) ;;
         let likes := stat_count like voteStats in
         let dislikes := stat_count dislike voteStats in
         userVote <-
           match user with
           | None => ret JNull
           | Some u =>
               vote <- findOne LikeDislikeModel
                         (same_pair u (Composition._id composition)) ;;
               ret match vote with
                   | Some v => JString (LikeDislike.type v)
                   | None => JNull
                   end
           end ;;
         ret (Success (mkVoteStats (Composition._id composition) likes dislikes
                         (likes + dislikes) (Composition.rating composition) userVote))
     end)
    (fun _ => ret (Failure (mkResponse 500
                              (message "Server error while fetching vote statistics")))).

(** The paths of the engagement subsystem that the body of
    [POST /api/compositions] may set; the song is required, the others are
    optional. *)
Record CompositionBody := mkCompositionBody {
  body_song : ObjectId;
  body_isPublic : option bool;
  body_likes : option nat;
  body_dislikes : option nat;
  body_rating : option float;
  body_views : option nat
}.

Definition or_default {A} (default : A) (o : option A) : A :=
  match o with
  | Some a => a
  | None => default
  end.

(** [new Composition({ ...req.body, composer: req.user._id })]: every path
    the body sets is taken from it, the others get the schema defaults,
    and the composer is the requester. *)
Definition new_Composition (i : ObjectId) (body : CompositionBody) (composer : ObjectId)
  : Composition.doc :=
  Composition.mk i (body_song body) composer
    (or_default 0 (body_likes body)) (or_default 0 (body_dislikes body))
    (or_default 0%float (body_rating body)) (or_default 0 (body_views body))
    (or_default true (body_isPublic body)).

(** The schema validators of [rating]: [min: 0, max: 5]. *)
Definition rating_in_range (r : float) : bool :=
  ((0 <=? r) && (r <=? 5))%float.

(** [POST /api/compositions] for any body of which the content paths
    (title, type, content, instrument, ...) pass the request validators
    and the schema. *)
Definition postComposition (user : ObjectId) (body : CompositionBody) : Mongo Response :=
  try_catch
    (song <- findById SongModel (body_song body) ;;
     match song with
     | None => ret (mkResponse 404 (message "Song not found"))
     | Some _ =>
         i <- fresh_id ;;
         let composition := new_Composition i body user in
         (if rating_in_range (Composition.rating composition) then ret tt
          else throw ValidationError) ;;;
         insertOne CompositionModel composition ;;;
         Composition_post_save composition ;;;
         populated <- findById CompositionModel (Composition._id composition) ;;
         findById UserModel user ;;;
         findById SongModel (body_song body) ;;;
         ret (mkResponse 201
                [("message", JString "Composition created successfully");
                 ("composition", JDoc Compositions (Composition._id composition))]%string)
     end)
    (fun _ => ret (mkResponse 500 (message "Server error while creating composition"))).

Definition with_isPublic (b : bool) (c : Composition.doc) : Composition.doc :=
  Composition.mk (Composition._id c) (Composition.song c) (Composition.composer c)
    (Composition.likes c) (Composition.dislikes c) (Composition.rating c)
    (Composition.views c) b.

(** [PUT /api/compositions/:id] for any body of which the content paths
    pass the request validators and the schema.  Of the paths modelled
    here [allowedUpdates] names [isPublic] only: whatever else the body
    carries (song, likes, dislikes, rating, views) is not assigned.  The
    content paths are not part of the documents here, so a save that
    writes content paths alone leaves the database as it is and shows in
    the log as the save of an unmodified document. *)
Definition putComposition (user id : ObjectId) (body : CompositionBody) : Mongo Response :=
  try_catch
    (composition <- findById CompositionModel id ;;
     match composition with
     | None => ret (mkResponse 404 (message "Composition not found"))
     | Some composition =>
         if negb (Composition.composer composition =? user)
         then ret (mkResponse 403 (message "Not authorized to update this composition"))
         else
           let composition :=
             match body_isPublic body with
             | Some b => with_isPublic b composition
             | None => composition
             end in
           Composition_save composition ;;;
           updatedComposition <- findById CompositionModel (Composition._id composition) ;;
           findById UserModel (Composition.composer composition) ;;;
           findById SongModel (Composition.song composition) ;;;
           ret (json [("message", JString "Composition updated successfully");
                      ("composition", JDoc Compositions (Composition._id composition))]%string)
     end)
    (fun _ => ret (mkResponse 500 (message "Server error while updating composition"))).

(** [Math.ceil]: the least integer not below the argument; zeros,
    infinities and NaN are returned unchanged. *)
Definition Math_ceil (x : float) : float :=
  match Prim2SF x with
  | S754_finite s m e =>
      if (0 <=? e)%Z then x
      else
        let n := (- ((- (if s then Z.neg m else Z.pos m)) / 2 ^ (- e)))%Z in
        if (n =? 0)%Z then (if s then neg_zero else zero) else Number_of_Z n
  | _ => x
  end.

(** A query parameter checked with [isInt]: not sent, an integer literal
    (within the range of Numbers), or anything else. *)
Inductive QueryInt :=
| QAbsent
| QInt (z : Z)
| QOther.

(** [query(p).optional().isInt({ min, max })]. *)
Definition isInt_between (min : Z) (max : option Z) (q : QueryInt) : bool :=
  match q with
  | QAbsent => true
  | QInt z =>
      (min <=? z)%Z && match max with Some h => (z <=? h)%Z | None => true end
  | QOther => false
  end.

(** [parseInt(q) || default], for a parameter that passed [isInt]: the
    integer held by the Number nearest to the literal. *)
Definition parseInt_or (default : Z) (q : QueryInt) : Z :=
  match q with
  | QInt z =>
      let n := Number_to_Z (Number_of_Z z) in
      if (n =? 0)%Z then default else n
  | _ => default
  end.

Record Pagination := mkPagination {
  currentPage : Z;
  totalPages : float;
  totalCompositions : nat;
  hasNext : bool;
  hasPrev : bool
}.

(** The [pagination] object of the list handlers.  Page and limit are
    integers; they enter the division and the comparison as Numbers. *)
Definition pagination (page limit : Z) (total : nat) : Pagination :=
  let pages := Math_ceil (Number_of_nat total / Number_of_Z limit) in
  mkPagination page pages total (Number_of_Z page <? pages)%float (1 <? page)%Z.

Record Listing := mkListing {
  listed : list Composition.doc;
  listed_pagination : Pagination
}.

Definition by_user (userId : ObjectId) (c : Composition.doc) : bool :=
  (Composition.composer c =? userId) && Composition.isPublic c.

(** The messages of [errors.array()] for the two query validators. *)
Definition page_errors (page limit : QueryInt) : list string :=
  (if isInt_between 1 None page then [] else ["Page must be a positive integer"%string]) ++
  (if isInt_between 1 (Some 50%Z) limit then []
   else ["Limit must be between 1 and 50"%string]).

(** [GET /api/compositions/user/:userId], with the order [newest_first]
    in which the sort on [createdAt] delivers the user's compositions.
    [skip] is a product of Numbers.  The songs of a page that is not empty
    are read to populate it. *)
Definition getUserCompositions
  (newest_first : list Composition.doc -> list Composition.doc)
  (userId : ObjectId) (qpage qlimit : QueryInt)
  : Mongo (Answer Listing) :=
  try_catch
    (match page_errors qpage qlimit with
     | (_ :: _) as errors => ret (Failure (validation_failed errors))
     | [] =>
         let page := parseInt_or 1 qpage in
         let limit := parseInt_or 20 qlimit in
         let skip := Number_to_Z ((Number_of_Z page - 1) * Number_of_Z limit)%float in
         compositions <- find_sorted CompositionModel newest_first (by_user userId)
                           (Z.to_nat skip) (Z.to_nat limit) ;;
         match compositions with
         | [] => ret tt
         | _ :: _ => storage_call (OpFind Songs)
         end ;;;
         total <- countDocuments CompositionModel (by_user userId) ;;
         ret (Success (mkListing compositions (pagination page limit total)))
     end)
    (fun _ => ret (Failure (mkResponse 500
                              (message "Server error while fetching user compositions")))).

(** * Part II: the vocabulary of the statements *)

(** ** The hooks as functions of the database

    What [Composition_post_save] and [updateCompositionCounts] leave in
    the database and add to the log, written without the monad; the run
    equations of Part III prove them equal to the hooks. *)

(** The composer's [compositionsCount] set to the number of compositions
    stored for them. *)
Definition recount_user (composer : ObjectId) (d : DB) : DB :=
  match find (has_id UserModel composer) (users d) with
  | Some u =>
      with_docs UserModel
        (replace_doc UserModel
           (User.set_compositionsCount
              (List.length (filter (fun c => Composition.composer c =? composer)
                              (compositions d))) u)
           (users d)) d
  | None => d
  end.

(** The song's [compositionsCount] set to the number of compositions
    stored for it. *)
Definition recount_song (song : ObjectId) (d : DB) : DB :=
  match find (has_id SongModel song) (songs d) with
  | Some s =>
      with_docs SongModel
        (replace_doc SongModel
           (Song.set_compositionsCount
              (List.length (filter (fun c => Composition.song c =? song)
                              (compositions d))) s)
           (songs d)) d
  | None => d
  end.

(** The database after [Composition_post_save c]. *)
Definition rollup (c : Composition.doc) (d : DB) : DB :=
  recount_song (Composition.song c) (recount_user (Composition.composer c) d).

(** The storage call of [save]: an update when [this] differs from the
    document loaded, the check that it is still stored otherwise. *)
Definition save_op {A} (M : Model A) (modified : A -> A -> bool) (loaded this : A)
  : StorageOp :=
  if modified loaded this then OpUpdate (coll M) (id_of M this) else OpFind (coll M).

(** The storage calls of [Composition_post_save c]. *)
Definition rollup_log (c : Composition.doc) (d : DB) : list StorageOp :=
  OpFind Users ::
  match find (has_id UserModel (Composition.composer c)) (users d) with
  | Some u =>
      [OpCount Compositions;
       save_op UserModel User.modified u
         (User.set_compositionsCount
            (List.length (filter (fun x => Composition.composer x =? Composition.composer c)
                            (compositions d))) u)]
  | None => []
  end ++
  OpFind Songs ::
  match find (has_id SongModel (Composition.song c)) (songs d) with
  | Some s =>
      [OpCount Compositions;
       save_op SongModel Song.modified s
         (Song.set_compositionsCount
            (List.length (filter (fun x => Composition.song x =? Composition.song c)
                            (compositions d))) s)]
  | None => []
  end.

(** The number of ledger rows of polarity [t] that reference target [c]. *)
Definition count_votes (c : ObjectId) (t : string) (d : DB) : nat :=
  List.length (filter (votes_of c t) (likedislikes d)).

(** The target with its counts taken from the ledger and its rating
    recalculated. *)
Definition recounted (d : DB) (c : Composition.doc) : Composition.doc :=
  snd (calculateRating
         (Composition.set_dislikes (count_votes (Composition._id c) dislike d)
            (Composition.set_likes (count_votes (Composition._id c) like d) c))).

(** The database after [updateCompositionCounts cid]. *)
Definition recount_votes (cid : ObjectId) (d : DB) : DB :=
  match find (has_id CompositionModel cid) (compositions d) with
  | Some c =>
      rollup (recounted d c)
        (with_docs CompositionModel
           (replace_doc CompositionModel (recounted d c) (compositions d)) d)
  | None => d
  end.

(** The storage calls of [updateCompositionCounts cid]. *)
Definition recount_votes_log (cid : ObjectId) (d : DB) : list StorageOp :=
  [OpCount LikeDislikes; OpCount LikeDislikes; OpFind Compositions] ++
  match find (has_id CompositionModel cid) (compositions d) with
  | Some c =>
      save_op CompositionModel Composition.modified c (recounted d c) ::
      rollup_log (recounted d c)
        (with_docs CompositionModel
           (replace_doc CompositionModel (recounted d c) (compositions d)) d)
  | None => []
  end.

Definition with_ledger (l : list LikeDislike.doc) (d : DB) : DB :=
  with_docs LikeDislikeModel l d.

Definition with_next_id (d : DB) : DB :=
  mkDB (likedislikes d) (compositions d) (songs d) (users d) (S (next_id d)).

(** The ledger without the rows that reference target [cid]. *)
Definition purge_votes (cid : ObjectId) (l : list LikeDislike.doc) : list LikeDislike.doc :=
  filter (fun v => negb (LikeDislike.composition v =? cid)) l.

(** ** Responses and their fields

    The three bodies the vote handler sends on success. *)

Definition added_response (t : string) : Response :=
  json [("message", JString "Vote added"); ("action", JString "added");
        ("type", JString t)]%string.

Definition updated_response (t : string) : Response :=
  json [("message", JString "Vote updated"); ("action", JString "updated");
        ("type", JString t)]%string.

Definition removed_response : Response :=
  json [("message", JString "Vote removed"); ("action", JString "removed")]%string.

Definition action_of (r : Result Response) : option string :=
  match r with
  | Ok resp =>
      match field "action" (body resp) with
      | Some (JString a) => Some a
      | _ => None
      end
  | Throw _ => None
  end.

Definition status_of (r : Result Response) : option nat :=
  match r with
  | Ok resp => Some (status resp)
  | Throw _ => None
  end.

(** ** Invariants *)

Definition pair_key (v : LikeDislike.doc) : ObjectId * ObjectId :=
  (LikeDislike.user v, LikeDislike.composition v).

(** Ids are unique and were issued by the id generator; no pair of voter
    and target occurs twice. *)
Definition ledger_ok (d : DB) : Prop :=
  NoDup (map LikeDislike._id (likedislikes d)) /\
  NoDup (map pair_key (likedislikes d)) /\
  Forall (fun v => LikeDislike._id v < next_id d) (likedislikes d).

(** At most one live entry for every pair of voter and target. *)
Definition at_most_one_vote (l : list LikeDislike.doc) : Prop :=
  forall v t, List.length (filter (same_pair v t) l) <= 1.

(** The [_id] index of the three other collections. *)
Definition collections_ok (d : DB) : Prop :=
  NoDup (map Composition._id (compositions d)) /\
  NoDup (map Song._id (songs d)) /\
  NoDup (map User._id (users d)).

(** The ledger is untouched and the id generator did not go back. *)
Definition ledger_kept (d d' : DB) : Prop :=
  likedislikes d' = likedislikes d /\ next_id d <= next_id d'.

Definition keeps_ledger {A} (m : Mongo A) : Prop :=
  forall w, ledger_kept (db w) (db (snd (m w))).

(** A model whose collection is not the ledger. *)
Definition off_ledger {A} (M : Model A) : Prop :=
  forall l d, ledger_kept d (with_docs M l d).

(** ** Sample data *)

(** One song (20) added by user 2, one composition (10) of it by user 1,
    and a like on it by user 2. *)
Definition sample_db : DB :=
  mkDB [LikeDislike.mk 30 2 10 like]
       [Composition.mk 10 20 1 1 0 5%float 0 true]
       [Song.mk 20 2 1]
       [User.mk 1 1; User.mk 2 0; User.mk 3 0]
       100.

Definition sample : World := mkWorld sample_db [].

(** Two compositions (10, 11) of song 20 by user 1, no votes yet. *)
Definition sample_two : World :=
  mkWorld
    (mkDB []
       [Composition.mk 10 20 1 0 0 0%float 0 true;
        Composition.mk 11 20 1 0 0 0%float 0 true]
       [Song.mk 20 2 2]
       [User.mk 1 2; User.mk 2 0; User.mk 3 0]
       100)
    [].

(** ** Binary64 values and rounding *)

Section Binary64Values.
Local Open Scope R_scope.

Definition bpow (e : Z) : R := powerRZ 2 e.

(** The real number behind a mantissa and an exponent. *)
Definition value (m e : Z) : R := IZR m * bpow e.

Definition M52 : Z := 4503599627370496.         (* 2^52 *)

(** [m * 2^e] is the binary64 number nearest to [x], ties to even. *)
Definition rounds_to (x : R) (m e : Z) : Prop :=
  (M52 <= m < 2 * M52)%Z /\
  x <= (IZR m + /2) * bpow e /\
  (x = (IZR m + /2) * bpow e -> Z.even m = true) /\
  (m = M52 -> (IZR m - /4) * bpow e <= x) /\
  (m <> M52 -> (IZR m - /2) * bpow e <= x /\
               (x = (IZR m - /2) * bpow e -> Z.even m = true)).

(** Position of [x] in the interval [[m u, (m+1) u)], u = 2^e, as recorded by
    the round and sticky bits. *)
Definition located (x : R) (e : Z) (mrs : shr_record) : Prop :=
  let u := bpow e in
  let m := IZR (shr_m mrs) in
  match shr_r mrs, shr_s mrs with
  | false, false => x = m * u
  | false, true => m * u < x < (m + /2) * u
  | true, false => x = (m + /2) * u
  | true, true => (m + /2) * u < x < (m + 1) * u
  end.

(** Mantissa and exponent of a positive normal binary64 number. *)
Definition normal (m e : Z) : Prop :=
  (M52 <= m < 2 * M52)%Z /\ (-1074 <= e <= 970)%Z.

(** The three roundings of [likes / total * 5 * 10]. *)
Definition rating_roundings (q : R) (m e : Z) : Prop :=
  exists m1 e1 m2 e2,
    normal m1 e1 /\ normal m2 e2 /\
    rounds_to q m1 e1 /\
    rounds_to (value m1 e1 * 5) m2 e2 /\
    rounds_to (value m2 e2 * 10) m e.

Definition mant_5 : Z := 5629499534213120.       (* 5 = mant_5 * 2^-50 *)
Definition mant_10 : Z := 5629499534213120.      (* 10 = mant_10 * 2^-49 *)
Definition mant_50 : Z := 7036874417766400.      (* 50 = mant_50 * 2^-47 *)

(** [floor (m * 2^e + 1/2)] for a negative exponent. *)
Definition round_half_up (m e : Z) : Z := ((m + 2 ^ (- e - 1)) / 2 ^ (- e))%Z.

(** The Number with [k] tenths: the binary64 quotient of [k] by 10, which
    is the Number nearest to k / 10. *)
Definition tenths (k : Z) : float := (Number_of_Z k / 10)%float.

(** A count that a Number holds exactly, together with its neighbours. *)
Definition safe_count (n : nat) : Prop := (Z.of_nat n < 2 ^ 53)%Z.

(** The tenths a rating can take: 0 to 50. *)
Definition tenth_values : list Z := map Z.of_nat (seq 0 51).

(** A bound on the distance between the binary64 value of
    [likes / total * 5 * 10] and the exact one. *)
Definition rounding_error : R := 122 * bpow (-53).

(** Round-half-up of 50 * l / (l + d) on the integers:
    floor ((100 l + t) / (2 t)) with t = l + d. *)
Definition half_up_tenths (l d : nat) : Z :=
  ((100 * Z.of_nat l + Z.of_nat (l + d)) / (2 * Z.of_nat (l + d)))%Z.

(** 50 * l / (l + d) lies half-way between two integers. *)
Definition is_tie (l d : nat) : bool :=
  ((100 * Z.of_nat l + Z.of_nat (l + d)) mod (2 * Z.of_nat (l + d)) =? 0)%Z.

(** The rating as the spec words it: 0 without votes, otherwise
    5 * likes / total rounded half-up to one decimal. *)
Definition Rating_half_up (likes dislikes : nat) : float :=
  if (likes + dislikes =? 0)%nat then 0%float
  else tenths (half_up_tenths likes dislikes).

End Binary64Values.

(** ** Further vocabulary *)

(** Every stored composition carries an id that the generator has already
    issued, so the next id is unused. *)
Definition compositions_issued (d : DB) : Prop :=
  Forall (fun c => Composition._id c < next_id d) (compositions d).

(** The number of stored compositions of a song, and of a composer. *)
Definition compositions_of_song (song : ObjectId) (d : DB) : nat :=
  List.length (filter (fun c => Composition.song c =? song) (compositions d)).

Definition compositions_of_composer (composer : ObjectId) (d : DB) : nat :=
  List.length (filter (fun c => Composition.composer c =? composer) (compositions d)).

(** The roll-up counters of the song and the composer of [c], where these
    are stored, agree with the compositions stored. *)
Definition rollups_exact (c : Composition.doc) (d : DB) : Prop :=
  (forall s, find (has_id SongModel (Composition.song c)) (songs d) = Some s ->
             Song.compositionsCount s = compositions_of_song (Composition.song c) d) /\
  (forall u, find (has_id UserModel (Composition.composer c)) (users d) = Some u ->
             User.compositionsCount u =
             compositions_of_composer (Composition.composer c) d).

(** The vote a user has on a target, as the handlers report it. *)
Definition userVote_of (user : option ObjectId) (id : ObjectId) (d : DB) : JVal :=
  match user with
  | None => JNull
  | Some u =>
      match find (same_pair u id) (likedislikes d) with
      | Some v => JString (LikeDislike.type v)
      | None => JNull
      end
  end.

(** All that is known of the order in which a sorted query delivers the
    documents it found: it delivers each of them once. *)
Definition sort_order {A} (sorted : list A -> list A) : Prop :=
  forall l, Permutation (sorted l) l.

(** The page asked for, when one is, is below 2^53: a Number holds it
    exactly. *)
Definition safe_page (q : QueryInt) : Prop :=
  match q with
  | QInt z => (z < 2 ^ 53)%Z
  | _ => True
  end.

(** The public compositions stored for a user. *)
Definition public_of (userId : ObjectId) (d : DB) : list Composition.doc :=
  filter (by_user userId) (compositions d).

(** The compositions a list request shows, and its pagination. *)
Definition page_of (newest_first : list Composition.doc -> list Composition.doc)
  (userId : ObjectId) (page limit : Z) (w : World)
  : list Composition.doc :=
  match fst (getUserCompositions newest_first userId (QInt page) (QInt limit) w) with
  | Ok (Success l) => listed l
  | _ => []
  end.

(** The [hasNext] flag a list request answers with. *)
Definition hasNext_of (newest_first : list Composition.doc -> list Composition.doc)
  (userId : ObjectId) (page limit : Z) (w : World) : bool :=
  match fst (getUserCompositions newest_first userId (QInt page) (QInt limit) w) with
  | Ok (Success l) => hasNext (listed_pagination l)
  | _ => false
  end.

(** The least integer not below [a / b], for a positive [b]. *)
Definition ceil_div (a b : Z) : Z := ((a + b - 1) / b)%Z.

(** * Part III: lemmas *)

(** ** Running handlers: equations of the model interface *)

Section RunEquations.
Context {A : Type} (M : Model A).

Lemma bind_run {B C} (m : Mongo B) (k : B -> Mongo C) w :
  bind m k w =
  match m w with
  | (Ok a, w') => k a w'
  | (Throw e, w') => (Throw e, w')
  end.
Proof. reflexivity. Qed.

Lemma findOne_run f w :
  findOne M f w =
  (Ok (find f (docs M (db w))), mkWorld (db w) (log w ++ [OpFind (coll M)])).
Proof. reflexivity. Qed.

Lemma findById_run i w :
  findById M i w =
  (Ok (find (has_id M i) (docs M (db w))),
   mkWorld (db w) (log w ++ [OpFind (coll M)])).
Proof. reflexivity. Qed.

Lemma countDocuments_run f w :
  countDocuments M f w =
  (Ok (List.length (filter f (docs M (db w)))),
   mkWorld (db w) (log w ++ [OpCount (coll M)])).
Proof. reflexivity. Qed.

Lemma deleteMany_run f w :
  deleteMany M f w =
  (Ok tt,
   mkWorld (with_docs M (filter (fun x => negb (f x)) (docs M (db w))) (db w))
           (log w ++ [OpDeleteMany (coll M)])).
Proof. reflexivity. Qed.

Lemma findByIdAndDelete_run i w :
  findByIdAndDelete M i w =
  (Ok (find (has_id M i) (docs M (db w))),
   mkWorld (with_docs M (remove_id M i (docs M (db w))) (db w))
           (log w ++ [OpDelete (coll M) i])).
Proof. reflexivity. Qed.

Lemma insertOne_run x w :
  existsb (has_id M (id_of M x)) (docs M (db w)) = false ->
  insertOne M x w =
  (Ok tt,
   mkWorld (with_docs M (docs M (db w) ++ [x]) (db w))
           (log w ++ [OpInsert (coll M) (id_of M x)])).
Proof.
  intros H. unfold insertOne. rewrite !bind_run. cbn. now rewrite H.
Qed.

Lemma insertOne_duplicate_run x w :
  existsb (has_id M (id_of M x)) (docs M (db w)) = true ->
  insertOne M x w =
  (Throw DuplicateKey, mkWorld (db w) (log w ++ [OpInsert (coll M) (id_of M x)])).
Proof.
  intros H. unfold insertOne. rewrite !bind_run. cbn. now rewrite H.
Qed.

Lemma updateOne_run x y w :
  find (has_id M (id_of M x)) (docs M (db w)) = Some y ->
  updateOne M x w =
  (Ok tt,
   mkWorld (with_docs M (replace_doc M x (docs M (db w))) (db w))
           (log w ++ [OpUpdate (coll M) (id_of M x)])).
Proof.
  intros H. unfold updateOne. rewrite !bind_run. cbn. now rewrite H.
Qed.

Lemma find_has_id i l x :
  find (has_id M i) l = Some x -> id_of M x = i.
Proof.
  intros H. apply find_some in H. destruct H as [_ H]. now apply Nat.eqb_eq in H.
Qed.

Lemma find_replace_doc x y l :
  find (has_id M (id_of M x)) l = Some y ->
  find (has_id M (id_of M x)) (replace_doc M x l) = Some x.
Proof.
  induction l as [|z r IH]; cbn; [congruence|].
  destruct (has_id M (id_of M x) z) eqn:E; cbn.
  - intros _. unfold has_id. now rewrite Nat.eqb_refl.
  - rewrite E. exact IH.
Qed.

Lemma find_replace_doc_other x i l :
  i <> id_of M x ->
  find (has_id M i) (replace_doc M x l) = find (has_id M i) l.
Proof.
  intros Hi. induction l as [|z r IH]; cbn; [reflexivity|].
  destruct (has_id M (id_of M x) z) eqn:E; cbn.
  - unfold has_id in *. apply Nat.eqb_eq in E.
    destruct (Nat.eqb_spec (id_of M x) i); [congruence|].
    destruct (Nat.eqb_spec (id_of M z) i); [congruence|]. reflexivity.
  - now rewrite IH.
Qed.

Lemma replace_doc_same x l :
  find (has_id M (id_of M x)) l = Some x -> replace_doc M x l = l.
Proof.
  induction l as [|z r IH]; cbn; [reflexivity|].
  destruct (has_id M (id_of M x) z).
  - now intros [= ->].
  - intros H. now rewrite IH.
Qed.

(** A save leaves the database that the update would leave: a document
    that is not modified is the document stored. *)
Lemma save_run modified x y w :
  (forall a b, modified a b = false -> b = a) ->
  (forall d, with_docs M (docs M d) d = d) ->
  find (has_id M (id_of M x)) (docs M (db w)) = Some y ->
  save M modified x w =
  (Ok tt,
   mkWorld (with_docs M (replace_doc M x (docs M (db w))) (db w))
           (log w ++ [save_op M modified y x])).
Proof.
  intros Hm Hd H. unfold save, save_op. rewrite bind_run. cbn. rewrite H.
  destruct (modified y x) eqn:E.
  - now apply updateOne_run with (y := y).
  - apply Hm in E. subst x. rewrite (replace_doc_same _ H), Hd. reflexivity.
Qed.
End RunEquations.

Lemma Composition_modified_false a b : Composition.modified a b = false -> b = a.
Proof.
  unfold Composition.modified. intros H. apply negb_false_iff in H.
  repeat (apply andb_true_iff in H; destruct H as [H ?]).
  destruct a, b; cbn in *.
  repeat match goal with
         | H : (_ =? _) = true |- _ => apply Nat.eqb_eq in H
         | H : Leibniz.eqb _ _ = true |- _ => apply Leibniz.eqb_spec in H
         | H : Bool.eqb _ _ = true |- _ => apply eqb_prop in H
         end.
  congruence.
Qed.

Lemma Song_modified_false a b : Song.modified a b = false -> b = a.
Proof.
  unfold Song.modified. intros H. apply negb_false_iff in H.
  repeat (apply andb_true_iff in H; destruct H as [H ?]).
  destruct a, b; cbn in *.
  repeat match goal with
         | H : (_ =? _) = true |- _ => apply Nat.eqb_eq in H
         end.
  congruence.
Qed.

Lemma User_modified_false a b : User.modified a b = false -> b = a.
Proof.
  unfold User.modified. intros H. apply negb_false_iff in H.
  repeat (apply andb_true_iff in H; destruct H as [H ?]).
  destruct a, b; cbn in *.
  repeat match goal with
         | H : (_ =? _) = true |- _ => apply Nat.eqb_eq in H
         end.
  congruence.
Qed.

Lemma save_Composition_run x y w :
  find (has_id CompositionModel (Composition._id x)) (compositions (db w)) = Some y ->
  save CompositionModel Composition.modified x w =
  (Ok tt,
   mkWorld (with_docs CompositionModel
              (replace_doc CompositionModel x (compositions (db w))) (db w))
           (log w ++ [save_op CompositionModel Composition.modified y x])).
Proof.
  apply (@save_run _ CompositionModel); [exact Composition_modified_false|].
  now intros [].
Qed.

Lemma save_Song_run x y w :
  find (has_id SongModel (Song._id x)) (songs (db w)) = Some y ->
  save SongModel Song.modified x w =
  (Ok tt,
   mkWorld (with_docs SongModel (replace_doc SongModel x (songs (db w))) (db w))
           (log w ++ [save_op SongModel Song.modified y x])).
Proof.
  apply (@save_run _ SongModel); [exact Song_modified_false|].
  now intros [].
Qed.

Lemma save_User_run x y w :
  find (has_id UserModel (User._id x)) (users (db w)) = Some y ->
  save UserModel User.modified x w =
  (Ok tt,
   mkWorld (with_docs UserModel (replace_doc UserModel x (users (db w))) (db w))
           (log w ++ [save_op UserModel User.modified y x])).
Proof.
  apply (@save_run _ UserModel); [exact User_modified_false|].
  now intros [].
Qed.

Ltac mcbn :=
  cbn [db log docs with_docs coll id_of fst snd
       likedislikes compositions songs users next_id
       LikeDislikeModel CompositionModel SongModel UserModel] in *.

Ltac mrun :=
  repeat (first [ rewrite bind_run
                | rewrite findById_run | rewrite findOne_run
                | rewrite countDocuments_run | rewrite deleteMany_run
                | rewrite findByIdAndDelete_run ];
          mcbn).

(** ** The hooks, run *)

Lemma Composition_post_save_run c w :
  Composition_post_save c w =
  (Ok tt, mkWorld (rollup c (db w)) (log w ++ rollup_log c (db w))).
Proof.
  unfold Composition_post_save, rollup, rollup_log, recount_user, recount_song,
    updateCompositionsCount.
  mrun.
  destruct (find (has_id UserModel _) _) as [u|] eqn:Eu.
  - pose proof Eu as Hu; apply find_has_id in Hu. mcbn.
    mrun.
    erewrite save_User_run by (mcbn; cbn [User.set_compositionsCount User._id] in *; rewrite Hu; exact Eu).
    mrun.
    destruct (find (has_id SongModel _) _) as [s|] eqn:Es.
    + pose proof Es as Hs; apply find_has_id in Hs. mcbn. mrun.
      erewrite save_Song_run by (mcbn; cbn [Song.set_compositionsCount Song._id] in *; rewrite Hs; exact Es).
      mcbn. cbn [Song.set_compositionsCount Song._id User.set_compositionsCount User._id]. rewrite Hs, <- !app_assoc. reflexivity.
    + unfold ret. rewrite <- !app_assoc. reflexivity.
  - unfold ret at 1. mrun.
    destruct (find (has_id SongModel _) _) as [s|] eqn:Es.
    + pose proof Es as Hs; apply find_has_id in Hs. mcbn. mrun.
      erewrite save_Song_run by (mcbn; cbn [Song.set_compositionsCount Song._id] in *; rewrite Hs; exact Es).
      mcbn. cbn [Song.set_compositionsCount Song._id]. rewrite Hs, <- !app_assoc. reflexivity.
    + unfold ret. rewrite <- !app_assoc. reflexivity.
Qed.

Lemma calculateRating_frame c :
  let c' := snd (calculateRating c) in
  Composition._id c' = Composition._id c /\
  Composition.song c' = Composition.song c /\
  Composition.composer c' = Composition.composer c /\
  Composition.likes c' = Composition.likes c /\
  Composition.dislikes c' = Composition.dislikes c.
Proof.
  unfold calculateRating.
  destruct (Composition.likes c + Composition.dislikes c =? 0); cbn; auto.
Qed.

Lemma recounted_frame d c :
  Composition._id (recounted d c) = Composition._id c /\
  Composition.song (recounted d c) = Composition.song c /\
  Composition.composer (recounted d c) = Composition.composer c /\
  Composition.likes (recounted d c) = count_votes (Composition._id c) like d /\
  Composition.dislikes (recounted d c) = count_votes (Composition._id c) dislike d.
Proof.
  unfold recounted.
  destruct (calculateRating_frame
              (Composition.set_dislikes (count_votes (Composition._id c) dislike d)
                 (Composition.set_likes (count_votes (Composition._id c) like d) c)))
    as (H1 & H2 & H3 & H4 & H5).
  rewrite H1, H2, H3, H4, H5. cbn. auto.
Qed.

Lemma updateCompositionCounts_run cid w :
  updateCompositionCounts cid w =
  (Ok tt, mkWorld (recount_votes cid (db w)) (log w ++ recount_votes_log cid (db w))).
Proof.
  unfold updateCompositionCounts, recount_votes, recount_votes_log, Composition_save.
  mrun.
  destruct (find (has_id CompositionModel cid) _) as [c|] eqn:Ec.
  - pose proof Ec as Hc; apply find_has_id in Hc. mcbn.
    fold (count_votes cid like (db w)). fold (count_votes cid dislike (db w)).
    rewrite <- Hc. fold (recounted (db w) c).
    destruct (recounted_frame (db w) c) as (Hi & _).
    mrun.
    erewrite save_Composition_run by (mcbn; rewrite Hi, Hc; exact Ec).
    mcbn. rewrite Composition_post_save_run. mcbn.
    unfold save_op. mcbn. rewrite Hi, Hc, <- !app_assoc. reflexivity.
  - unfold ret. rewrite <- !app_assoc. reflexivity.
Qed.

(** ** Lists of documents, ids and the unique index *)

Lemma same_pair_key u c v :
  same_pair u c v = true <-> pair_key v = (u, c).
Proof.
  unfold same_pair, pair_key. rewrite andb_true_iff, !Nat.eqb_eq.
  split; [intros [-> ->]; reflexivity | intros [= -> ->]; auto].
Qed.

Lemma filter_none {A} (f : A -> bool) l :
  (forall x, In x l -> f x = false) -> filter f l = [].
Proof.
  induction l as [|a l IH]; cbn; intros H; [reflexivity|].
  rewrite (H a) by now left. apply IH. intros x Hx. apply H. now right.
Qed.

Lemma NoDup_keys_at_most_one l :
  NoDup (map pair_key l) -> at_most_one_vote l.
Proof.
  intros H v t. induction l as [|a l IH]; cbn; [lia|].
  inversion H as [|? ? Hn Hl]; subst.
  destruct (same_pair v t a) eqn:E; [|auto].
  apply same_pair_key in E. rewrite filter_none; [cbn; lia|].
  intros x Hx. destruct (same_pair v t x) eqn:Ex; [|reflexivity].
  apply same_pair_key in Ex. exfalso. apply Hn. rewrite E, <- Ex.
  now apply in_map.
Qed.

Lemma find_none_unique_index this l :
  find (same_pair (LikeDislike.user this) (LikeDislike.composition this)) l = None ->
  violates_unique_index this l = false.
Proof.
  intros H. unfold violates_unique_index.
  induction l as [|a l IH]; cbn in *; [reflexivity|].
  destruct (same_pair _ _ a); [discriminate|]. cbn. auto.
Qed.

Lemma NoDup_keys_unique_index v p l :
  NoDup (map LikeDislike._id l) ->
  NoDup (map pair_key l) ->
  In v l ->
  violates_unique_index (LikeDislike.set_type p v) l = false.
Proof.
  intros Hid Hk Hv. unfold violates_unique_index.
  destruct (existsb _ l) eqn:E; [|reflexivity]. exfalso.
  apply existsb_exists in E. destruct E as (x & Hx & E).
  apply andb_true_iff in E. destruct E as [E1 E2].
  cbn in E1, E2. apply same_pair_key in E1.
  apply negb_true_iff, Nat.eqb_neq in E2. apply E2. clear E2.
  fold (pair_key v) in E1.
  induction l as [|a l IH]; [contradiction|].
  cbn in Hk. inversion Hk as [|? ? Hn Hl]; subst.
  cbn in Hid. inversion Hid as [|? ? Hn' Hl']; subst.
  destruct Hx as [->|Hx], Hv as [->|Hv]; auto.
  - exfalso. apply Hn. rewrite E1. now apply in_map.
  - exfalso. apply Hn. rewrite <- E1. now apply in_map.
Qed.

Lemma map_replace_doc {A B} (M : Model A) (f : A -> B) x y l :
  find (has_id M (id_of M x)) l = Some y -> f x = f y ->
  map f (replace_doc M x l) = map f l.
Proof.
  induction l as [|a l IH]; cbn; [reflexivity|].
  destruct (has_id M (id_of M x) a).
  - intros [= ->] H. cbn. now rewrite H.
  - intros H1 H2. cbn. now rewrite IH.
Qed.

Lemma In_replace_doc {A} (M : Model A) x l z :
  In z (replace_doc M x l) -> z = x \/ In z l.
Proof.
  induction l as [|a l IH]; cbn; [tauto|].
  destruct (has_id M (id_of M x) a); cbn; intuition.
Qed.

Lemma incl_remove_id {A} (M : Model A) i l : incl (remove_id M i l) l.
Proof.
  induction l as [|a l IH]; cbn; [apply incl_refl|].
  destruct (has_id M i a).
  - apply incl_tl, incl_refl.
  - apply incl_cons; [now left | now apply incl_tl].
Qed.

Lemma NoDup_map_remove_id {A B} (M : Model A) (f : A -> B) i l :
  NoDup (map f l) -> NoDup (map f (remove_id M i l)).
Proof.
  induction l as [|a l IH]; cbn; [auto|].
  intros H. inversion H as [|? ? Hn Hl]; subst.
  destruct (has_id M i a); [assumption|]. cbn. constructor; [|auto].
  intros Hin. apply Hn. apply in_map_iff in Hin. destruct Hin as (x & <- & Hx).
  apply in_map. now apply (incl_remove_id M i l).
Qed.

Lemma NoDup_map_filter {A B} (f : A -> B) (p : A -> bool) l :
  NoDup (map f l) -> NoDup (map f (filter p l)).
Proof.
  induction l as [|a l IH]; cbn; [auto|].
  intros H. inversion H as [|? ? Hn Hl]; subst.
  destruct (p a); [|auto]. cbn. constructor; [|auto].
  intros Hin. apply Hn. apply in_map_iff in Hin. destruct Hin as (x & <- & Hx).
  apply in_map. apply filter_In in Hx. tauto.
Qed.

Lemma find_In {A} (f : A -> bool) l x : find f l = Some x -> In x l.
Proof. intros H. now apply find_some in H. Qed.

Lemma find_same_pair_none u c l :
  find (same_pair u c) l = None -> ~ In (u, c) (map pair_key l).
Proof.
  intros H Hin. apply in_map_iff in Hin. destruct Hin as (x & Hk & Hx).
  apply (find_none _ _ H) in Hx. apply same_pair_key in Hk. congruence.
Qed.

Lemma has_id_eq {A} (M : Model A) i x : has_id M i x = (id_of M x =? i).
Proof. reflexivity. Qed.

Lemma fresh_id_unused {A} (M : Model A) n l :
  Forall (fun x => id_of M x < n) l -> existsb (has_id M n) l = false.
Proof.
  induction 1 as [|a l Ha Hl IH]; cbn; [reflexivity|].
  rewrite has_id_eq. destruct (Nat.eqb_spec (id_of M a) n); [lia | exact IH].
Qed.

Ltac mrun' :=
  repeat (first [ rewrite bind_run
                | rewrite findById_run | rewrite findOne_run
                | rewrite countDocuments_run | rewrite deleteMany_run
                | rewrite findByIdAndDelete_run
                | rewrite updateCompositionCounts_run
                | rewrite Composition_post_save_run
                | progress unfold ret, throw, get_db, put_db, storage_call, fresh_id ];
          mcbn).

(** ** Saving a vote and the vote handler, run *)

Lemma LikeDislike_save_insert_run this w :
  valid_type (LikeDislike.type this) = true ->
  violates_unique_index this (likedislikes (db w)) = false ->
  existsb (has_id LikeDislikeModel (LikeDislike._id this)) (likedislikes (db w)) = false ->
  LikeDislike_save true this w =
  let d := with_ledger (likedislikes (db w) ++ [this]) (db w) in
  (Ok tt,
   mkWorld (recount_votes (LikeDislike.composition this) d)
     (log w ++ OpInsert LikeDislikes (LikeDislike._id this)
            :: recount_votes_log (LikeDislike.composition this) d)).
Proof.
  intros Hv Hu Hi. unfold LikeDislike_save. rewrite Hv. mrun'. rewrite Hu.
  rewrite insertOne_run by exact Hi. mrun'.
  cbn zeta. unfold with_ledger. mcbn. rewrite <- !app_assoc. reflexivity.
Qed.

Lemma LikeDislike_save_update_run this old w :
  valid_type (LikeDislike.type this) = true ->
  violates_unique_index this (likedislikes (db w)) = false ->
  find (has_id LikeDislikeModel (LikeDislike._id this)) (likedislikes (db w)) = Some old ->
  LikeDislike_save false this w =
  let d := with_ledger (replace_doc LikeDislikeModel this (likedislikes (db w))) (db w) in
  (Ok tt,
   mkWorld (recount_votes (LikeDislike.composition this) d)
     (log w ++ OpUpdate LikeDislikes (LikeDislike._id this)
            :: recount_votes_log (LikeDislike.composition this) d)).
Proof.
  intros Hv Hu Hf. unfold LikeDislike_save. rewrite Hv. mrun'. rewrite Hu. mrun'.
  erewrite updateOne_run by (mcbn; exact Hf).
  mrun'. cbn zeta. unfold with_ledger. mcbn. rewrite <- !app_assoc. reflexivity.
Qed.

Lemma LikeDislike_save_duplicate_run isNew this w :
  valid_type (LikeDislike.type this) = true ->
  violates_unique_index this (likedislikes (db w)) = true ->
  LikeDislike_save isNew this w =
  (Throw DuplicateKey,
   mkWorld (db w)
     (log w ++ [(if isNew then OpInsert else OpUpdate) LikeDislikes (LikeDislike._id this)])).
Proof.
  intros Hv Hu. unfold LikeDislike_save. rewrite Hv. mrun'. rewrite Hu. mrun'.
  reflexivity.
Qed.

Lemma vote_invalid_run req w :
  valid_type (body_type req) = false ->
  vote req w =
  (Ok (validation_failed ["Vote type must be either like or dislike"%string]), w).
Proof.
  intros H. unfold vote, try_catch. rewrite H. reflexivity.
Qed.

Lemma vote_not_found_run req w :
  valid_type (body_type req) = true ->
  find (has_id CompositionModel (params_id req)) (compositions (db w)) = None ->
  vote req w =
  (Ok (mkResponse 404 (message "Composition not found")),
   mkWorld (db w) (log w ++ [OpFind Compositions])).
Proof.
  intros Hv Hc. unfold vote, try_catch. rewrite Hv. cbn [negb]. mrun'.
  rewrite Hc. reflexivity.
Qed.

Lemma vote_added_run req c w :
  ledger_ok (db w) ->
  valid_type (body_type req) = true ->
  find (has_id CompositionModel (params_id req)) (compositions (db w)) = Some c ->
  find (same_pair (req_user req) (params_id req)) (likedislikes (db w)) = None ->
  vote req w =
  let this := LikeDislike.mk (next_id (db w)) (req_user req) (params_id req)
                (body_type req) in
  let d := with_ledger (likedislikes (db w) ++ [this]) (with_next_id (db w)) in
  (Ok (added_response (body_type req)),
   mkWorld (recount_votes (params_id req) d)
     (log w ++ [OpFind Compositions; OpFind LikeDislikes;
                OpInsert LikeDislikes (next_id (db w))]
            ++ recount_votes_log (params_id req) d)).
Proof.
  intros (_ & _ & Hlt) Hv Hc Hn. unfold vote, try_catch. rewrite Hv. cbn [negb]. mrun'.
  rewrite Hc. pose proof Hc as Hi; apply find_has_id in Hi. mcbn. rewrite Hi.
  mrun'. rewrite Hn. mrun'.
  rewrite LikeDislike_save_insert_run; mcbn; cbn [LikeDislike.type LikeDislike.user
    LikeDislike.composition LikeDislike._id]; auto.
  - cbn zeta. mcbn. unfold with_ledger, with_next_id. mcbn.
    cbn [LikeDislike.composition LikeDislike._id].
    rewrite <- !app_assoc. reflexivity.
  - now apply find_none_unique_index.
  - now apply (fresh_id_unused LikeDislikeModel).
Qed.

Lemma vote_removed_run req c v w :
  valid_type (body_type req) = true ->
  find (has_id CompositionModel (params_id req)) (compositions (db w)) = Some c ->
  find (same_pair (req_user req) (params_id req)) (likedislikes (db w)) = Some v ->
  LikeDislike.type v = body_type req ->
  vote req w =
  (Ok removed_response,
   mkWorld (with_ledger (remove_id LikeDislikeModel (LikeDislike._id v)
                           (likedislikes (db w))) (db w))
     (log w ++ [OpFind Compositions; OpFind LikeDislikes;
                OpDelete LikeDislikes (LikeDislike._id v)])).
Proof.
  intros Hv Hc Hf Ht. unfold vote, try_catch. rewrite Hv. cbn [negb]. mrun'.
  rewrite Hc. pose proof Hc as Hi; apply find_has_id in Hi. mcbn. rewrite Hi.
  mrun'. rewrite Hf. rewrite Ht, String.eqb_refl. mrun'.
  rewrite <- !app_assoc. reflexivity.
Qed.

Lemma vote_updated_run req c v w :
  ledger_ok (db w) ->
  valid_type (body_type req) = true ->
  find (has_id CompositionModel (params_id req)) (compositions (db w)) = Some c ->
  find (same_pair (req_user req) (params_id req)) (likedislikes (db w)) = Some v ->
  LikeDislike.type v <> body_type req ->
  vote req w =
  let this := LikeDislike.set_type (body_type req) v in
  let d := with_ledger (replace_doc LikeDislikeModel this (likedislikes (db w))) (db w) in
  (Ok (updated_response (body_type req)),
   mkWorld (recount_votes (params_id req) d)
     (log w ++ [OpFind Compositions; OpFind LikeDislikes;
                OpUpdate LikeDislikes (LikeDislike._id v)]
            ++ recount_votes_log (params_id req) d)).
Proof.
  intros (Hid & Hk & _) Hv Hc Hf Ht. unfold vote, try_catch. rewrite Hv. cbn [negb]. mrun'.
  rewrite Hc. pose proof Hc as Hi; apply find_has_id in Hi. mcbn. rewrite Hi.
  mrun'. rewrite Hf.
  apply String.eqb_neq in Ht. rewrite Ht. mrun'.
  pose proof (find_In _ _ Hf) as Hin.
  assert (Hold : exists old, find (has_id LikeDislikeModel (LikeDislike._id v))
                              (likedislikes (db w)) = Some old).
  { destruct (find (has_id LikeDislikeModel (LikeDislike._id v)) (likedislikes (db w)))
      as [old|] eqn:E; [eauto|].
    apply (find_none _ _ E) in Hin. unfold has_id in Hin. mcbn.
    now rewrite Nat.eqb_refl in Hin. }
  destruct Hold as [old Hold].
  rewrite (@LikeDislike_save_update_run _ old); auto.
  - cbn zeta. mcbn. unfold with_ledger. mcbn.
    apply find_some in Hf. destruct Hf as [_ Hf]. apply same_pair_key in Hf.
    injection Hf as Hu Hcomp.
    cbn [LikeDislike.set_type LikeDislike.composition LikeDislike._id].
    rewrite Hcomp, <- !app_assoc. reflexivity.
  - now apply NoDup_keys_unique_index.
Qed.

(** ** What the recounts leave alone *)

Lemma recount_user_frame u d :
  likedislikes (recount_user u d) = likedislikes d /\
  compositions (recount_user u d) = compositions d /\
  songs (recount_user u d) = songs d /\
  next_id (recount_user u d) = next_id d.
Proof.
  unfold recount_user. destruct (find _ _); cbn; auto.
Qed.

Lemma recount_song_frame s d :
  likedislikes (recount_song s d) = likedislikes d /\
  compositions (recount_song s d) = compositions d /\
  users (recount_song s d) = users d /\
  next_id (recount_song s d) = next_id d.
Proof.
  unfold recount_song. destruct (find _ _); cbn; auto.
Qed.

Lemma rollup_frame c d :
  likedislikes (rollup c d) = likedislikes d /\
  compositions (rollup c d) = compositions d /\
  next_id (rollup c d) = next_id d.
Proof.
  unfold rollup.
  destruct (recount_song_frame (Composition.song c)
              (recount_user (Composition.composer c) d)) as (H1 & H2 & _ & H4).
  destruct (recount_user_frame (Composition.composer c) d) as (G1 & G2 & _ & G4).
  rewrite H1, H2, H4. auto.
Qed.

Lemma recount_votes_frame cid d :
  likedislikes (recount_votes cid d) = likedislikes d /\
  next_id (recount_votes cid d) = next_id d.
Proof.
  unfold recount_votes. destruct (find _ _) as [c|]; [|auto].
  destruct (rollup_frame (recounted d c)
              (with_docs CompositionModel
                 (replace_doc CompositionModel (recounted d c) (compositions d)) d))
    as (H1 & _ & H3).
  rewrite H1, H3. auto.
Qed.

Lemma recount_votes_compositions cid d c :
  find (has_id CompositionModel cid) (compositions d) = Some c ->
  compositions (recount_votes cid d) =
  replace_doc CompositionModel (recounted d c) (compositions d).
Proof.
  intros H. unfold recount_votes. rewrite H.
  now destruct (rollup_frame (recounted d c)
              (with_docs CompositionModel
                 (replace_doc CompositionModel (recounted d c) (compositions d)) d))
    as (_ & -> & _).
Qed.

Lemma recount_votes_find cid d c :
  find (has_id CompositionModel cid) (compositions d) = Some c ->
  find (has_id CompositionModel cid) (compositions (recount_votes cid d)) =
  Some (recounted d c).
Proof.
  intros H. rewrite (recount_votes_compositions _ _ H).
  pose proof H as Hi. apply find_has_id in Hi. cbn in Hi.
  destruct (recounted_frame d c) as (Hr & _).
  replace cid with (id_of CompositionModel (recounted d c)) by (cbn; congruence).
  apply find_replace_doc with (y := c). cbn. now rewrite Hr, Hi.
Qed.

(** ** Lookups after an insertion, a removal or a replacement *)

Lemma find_app_none {A} (f : A -> bool) l x :
  find f l = None -> find f (l ++ [x]) = if f x then Some x else None.
Proof.
  induction l as [|a l IH]; cbn; [reflexivity|].
  destruct (f a); [discriminate | exact IH].
Qed.

Lemma remove_id_fresh (l : list LikeDislike.doc) x :
  Forall (fun v => LikeDislike._id v < LikeDislike._id x) l ->
  remove_id LikeDislikeModel (LikeDislike._id x) (l ++ [x]) = l.
Proof.
  induction 1 as [|a l Ha Hl IH]; cbn [app remove_id]; rewrite has_id_eq; cbn [id_of LikeDislikeModel].
  - now rewrite Nat.eqb_refl.
  - destruct (Nat.eqb_spec (LikeDislike._id a) (LikeDislike._id x)).
    + lia.
    + now rewrite IH.
Qed.

Lemma find_by_id_unique {A} (M : Model A) l v :
  NoDup (map (id_of M) l) -> In v l -> find (has_id M (id_of M v)) l = Some v.
Proof.
  induction l as [|a l IH]; cbn [map find]; [contradiction|].
  intros H Hin. inversion H as [|? ? Hn Hl]; subst.
  rewrite has_id_eq. destruct (Nat.eqb_spec (id_of M a) (id_of M v)) as [E|E].
  - destruct Hin as [->|Hin]; [reflexivity|].
    exfalso. apply Hn. rewrite E. now apply in_map.
  - destruct Hin as [->|Hin]; [congruence | auto].
Qed.

Lemma NoDup_map_inj {A B} (f : A -> B) l x y :
  NoDup (map f l) -> In x l -> In y l -> f x = f y -> x = y.
Proof.
  induction l as [|a l IH]; cbn [map]; [contradiction|].
  intros H Hx Hy E. inversion H as [|? ? Hn Hl]; subst.
  destruct Hx as [->|Hx], Hy as [->|Hy]; auto.
  - exfalso. apply Hn. rewrite E. now apply in_map.
  - exfalso. apply Hn. rewrite <- E. now apply in_map.
Qed.

Lemma In_remove_id {A} (M : Model A) i l x :
  NoDup (map (id_of M) l) -> In x (remove_id M i l) -> In x l /\ id_of M x <> i.
Proof.
  induction l as [|a l IH]; cbn [map remove_id]; [contradiction|].
  intros H Hx. inversion H as [|? ? Hn Hl]; subst.
  rewrite has_id_eq in Hx. destruct (Nat.eqb_spec (id_of M a) i) as [E|E].
  - split; [now right|]. intros Ex. apply Hn. rewrite E, <- Ex. now apply in_map.
  - destruct Hx as [->|Hx]; [split; [now left | assumption]|].
    destruct (IH Hl Hx). split; [now right | assumption].
Qed.

Lemma find_remove_id_none (l : list LikeDislike.doc) u c v :
  NoDup (map LikeDislike._id l) ->
  NoDup (map pair_key l) ->
  find (same_pair u c) l = Some v ->
  find (same_pair u c) (remove_id LikeDislikeModel (LikeDislike._id v) l) = None.
Proof.
  intros Hid Hk Hf.
  destruct (find _ (remove_id _ _ _)) as [x|] eqn:E; [|reflexivity]. exfalso.
  apply find_some in E. destruct E as [Hx Ex]. apply same_pair_key in Ex.
  pose proof (find_some _ _ Hf) as [Hv Ev]. apply same_pair_key in Ev.
  destruct (In_remove_id LikeDislikeModel _ _ _ Hid Hx) as [Hin Hne].
  apply Hne. cbn. f_equal. apply (NoDup_map_inj pair_key l); congruence.
Qed.

Lemma length_replace_doc {A} (M : Model A) x l :
  List.length (replace_doc M x l) = List.length l.
Proof.
  induction l as [|a l IH]; cbn [replace_doc]; [reflexivity|].
  destruct (has_id M (id_of M x) a); cbn; auto.
Qed.

Lemma find_replace_found {A} (M : Model A) (f : A -> bool) x v l :
  NoDup (map (id_of M) l) ->
  find f l = Some v -> id_of M x = id_of M v -> f x = true ->
  find f (replace_doc M x l) = Some x.
Proof.
  intros Hid Hf Hi Hx. induction l as [|a l IH]; cbn [find replace_doc] in *; [discriminate|].
  inversion Hid as [|? ? Hn Hl]; subst. rewrite has_id_eq.
  destruct (f a) eqn:Ea.
  - injection Hf as ->. rewrite Hi, Nat.eqb_refl. cbn. now rewrite Hx.
  - destruct (Nat.eqb_spec (id_of M a) (id_of M x)) as [E|E].
    + exfalso. apply Hn. rewrite E, Hi. apply in_map. eapply find_In; eauto.
    + cbn. rewrite Ea. auto.
Qed.

(** ** Handlers that do not write the ledger *)

Lemma sample_ledger_ok : ledger_ok sample_db.
Proof.
  repeat split; cbn; repeat constructor; cbn; auto.
Qed.

Lemma ledger_kept_refl d : ledger_kept d d.
Proof. split; auto. Qed.

Lemma ledger_kept_trans d1 d2 d3 :
  ledger_kept d1 d2 -> ledger_kept d2 d3 -> ledger_kept d1 d3.
Proof. intros [H1 H2] [G1 G2]. split; [congruence | lia]. Qed.

Lemma ledger_kept_ok d d' : ledger_kept d d' -> ledger_ok d -> ledger_ok d'.
Proof.
  intros [H1 H2] (Hid & Hk & Hlt). unfold ledger_ok. rewrite H1.
  repeat split; auto. eapply Forall_impl; [|exact Hlt]. cbn. intros; lia.
Qed.

Lemma keeps_ret {A} (a : A) : keeps_ledger (ret a).
Proof. intros w. apply ledger_kept_refl. Qed.

Lemma keeps_throw {A} e : keeps_ledger (@throw A e).
Proof. intros w. apply ledger_kept_refl. Qed.

Lemma keeps_bind {A B} (m : Mongo A) (k : A -> Mongo B) :
  keeps_ledger m -> (forall a, keeps_ledger (k a)) -> keeps_ledger (bind m k).
Proof.
  intros Hm Hk w. rewrite bind_run. specialize (Hm w).
  destruct (m w) as [[a|e] w1]; cbn [snd] in *; [|assumption].
  eapply ledger_kept_trans; [exact Hm | apply Hk].
Qed.

Lemma keeps_try_catch {A} (m : Mongo A) h :
  keeps_ledger m -> (forall e, keeps_ledger (h e)) -> keeps_ledger (try_catch m h).
Proof.
  intros Hm Hh w. unfold try_catch. specialize (Hm w).
  destruct (m w) as [[a|e] w1]; cbn [snd] in *; [assumption|].
  eapply ledger_kept_trans; [exact Hm | apply Hh].
Qed.

Lemma keeps_findOne {A} (M : Model A) f : keeps_ledger (findOne M f).
Proof. intros w. apply ledger_kept_refl. Qed.

Lemma keeps_findById {A} (M : Model A) i : keeps_ledger (findById M i).
Proof. intros w. apply ledger_kept_refl. Qed.

Lemma keeps_countDocuments {A} (M : Model A) f : keeps_ledger (countDocuments M f).
Proof. intros w. apply ledger_kept_refl. Qed.

Lemma keeps_fresh_id : keeps_ledger fresh_id.
Proof. intros w. split; cbn; auto. Qed.

Lemma off_ledger_Composition : off_ledger CompositionModel.
Proof. intros l d. split; cbn; auto. Qed.

Lemma off_ledger_Song : off_ledger SongModel.
Proof. intros l d. split; cbn; auto. Qed.

Lemma off_ledger_User : off_ledger UserModel.
Proof. intros l d. split; cbn; auto. Qed.

Lemma keeps_insertOne {A} (M : Model A) x : off_ledger M -> keeps_ledger (insertOne M x).
Proof.
  intros H w. unfold insertOne. rewrite !bind_run. cbn.
  destruct (existsb _ _); cbn; [apply ledger_kept_refl | apply H].
Qed.

Lemma keeps_updateOne {A} (M : Model A) x : off_ledger M -> keeps_ledger (updateOne M x).
Proof.
  intros H w. unfold updateOne. rewrite !bind_run. cbn.
  destruct (find _ _); cbn; [apply H | apply ledger_kept_refl].
Qed.

Lemma keeps_save {A} (M : Model A) modified x :
  off_ledger M -> keeps_ledger (save M modified x).
Proof.
  intros H w. unfold save. rewrite bind_run. cbn.
  destruct (find _ _) as [y|]; [destruct (modified y x)|].
  - now apply keeps_updateOne.
  - apply ledger_kept_refl.
  - now apply keeps_updateOne.
Qed.

Lemma keeps_deleteMany {A} (M : Model A) f : off_ledger M -> keeps_ledger (deleteMany M f).
Proof. intros H w. apply H. Qed.

Lemma keeps_findByIdAndDelete {A} (M : Model A) i :
  off_ledger M -> keeps_ledger (findByIdAndDelete M i).
Proof. intros H w. apply H. Qed.

Create HintDb keeps.
#[export] Hint Resolve keeps_ret keeps_throw keeps_findOne keeps_findById
  keeps_countDocuments keeps_fresh_id keeps_insertOne keeps_updateOne keeps_save
  keeps_deleteMany keeps_findByIdAndDelete
  off_ledger_Composition off_ledger_Song off_ledger_User : keeps.

Ltac keeps :=
  repeat first
    [ solve [auto with keeps]
    | match goal with
      | |- keeps_ledger (try_catch _ _) => apply keeps_try_catch; [|intros ?]
      | |- keeps_ledger (bind _ _) => apply keeps_bind; [|intros ?]
      | |- keeps_ledger (match ?x with _ => _ end) => destruct x
      | |- keeps_ledger (if ?b then _ else _) => destruct b
      end ].

Lemma keeps_Composition_post_save c : keeps_ledger (Composition_post_save c).
Proof. unfold Composition_post_save, updateCompositionsCount. keeps. Qed.

Lemma keeps_Composition_save c : keeps_ledger (Composition_save c).
Proof.
  unfold Composition_save. keeps. apply keeps_Composition_post_save.
Qed.

Lemma keeps_Composition_create s u p : keeps_ledger (Composition_create s u p).
Proof.
  unfold Composition_create. keeps. apply keeps_Composition_post_save.
Qed.

Lemma keeps_deleteSong u i : keeps_ledger (deleteSong u i).
Proof. unfold deleteSong. keeps. Qed.

Lemma keeps_createComposition u s p : keeps_ledger (createComposition u s p).
Proof.
  unfold createComposition. keeps. apply keeps_Composition_create.
Qed.

Lemma keeps_getComposition u i : keeps_ledger (getComposition u i).
Proof.
  unfold getComposition. keeps. apply keeps_Composition_save.
Qed.

(** ** The delete handlers, run *)

Lemma deleteComposition_run user id c w :
  find (has_id CompositionModel id) (compositions (db w)) = Some c ->
  Composition.composer c = user ->
  deleteComposition user id w =
  (Ok (json (message "Composition deleted successfully")),
   mkWorld
     (mkDB (purge_votes id (likedislikes (db w)))
           (remove_id CompositionModel id (compositions (db w)))
           (songs (db w)) (users (db w)) (next_id (db w)))
     (log w ++ [OpFind Compositions; OpDeleteMany LikeDislikes;
                OpDelete Compositions id])).
Proof.
  intros Hc Hu. unfold deleteComposition, try_catch. mrun'. rewrite Hc.
  rewrite Hu, Nat.eqb_refl. cbn [negb]. mrun'.
  apply find_has_id in Hc. cbn in Hc. rewrite Hc.
  rewrite <- !app_assoc. reflexivity.
Qed.

Lemma deleteComposition_refused user id w :
  match find (has_id CompositionModel id) (compositions (db w)) with
  | Some c => Composition.composer c <> user
  | None => True
  end ->
  db (snd (deleteComposition user id w)) = db w /\
  exists r, fst (deleteComposition user id w) = Ok r /\ status r <> 200.
Proof.
  intros H. unfold deleteComposition, try_catch. mrun'.
  destruct (find _ _) as [c|].
  - apply Nat.eqb_neq in H. rewrite H. cbn. split; [reflexivity|].
    eexists; split; [reflexivity | discriminate].
  - cbn. split; [reflexivity|]. eexists; split; [reflexivity | discriminate].
Qed.

Lemma deleteSong_run user id s w :
  find (has_id SongModel id) (songs (db w)) = Some s ->
  Song.addedBy s = user ->
  deleteSong user id w =
  (Ok (json (message "Song and all related compositions deleted successfully")),
   mkWorld
     (mkDB (likedislikes (db w))
           (filter (fun c => negb (Composition.song c =? id)) (compositions (db w)))
           (remove_id SongModel id (songs (db w)))
           (users (db w)) (next_id (db w)))
     (log w ++ [OpFind Songs; OpDeleteMany Compositions; OpDelete Songs id])).
Proof.
  intros Hs Hu. unfold deleteSong, try_catch. mrun'. rewrite Hs.
  rewrite Hu, Nat.eqb_refl. cbn [negb]. mrun'.
  apply find_has_id in Hs. cbn in Hs. rewrite Hs.
  rewrite <- !app_assoc. reflexivity.
Qed.

(** ** The ledger invariant along runs *)

Lemma ledger_ok_purge cid d l :
  l = purge_votes cid (likedislikes d) ->
  ledger_ok d -> ledger_ok (with_ledger l d).
Proof.
  intros -> (Hid & Hk & Hlt). unfold ledger_ok, purge_votes. cbn.
  repeat split.
  - now apply NoDup_map_filter.
  - now apply NoDup_map_filter.
  - apply Forall_forall. intros x Hx. apply filter_In in Hx.
    rewrite Forall_forall in Hlt. now apply Hlt.
Qed.

Lemma deleteComposition_ledger_ok user id w :
  ledger_ok (db w) -> ledger_ok (db (snd (deleteComposition user id w))).
Proof.
  intros Hok.
  destruct (find (has_id CompositionModel id) (compositions (db w))) as [c|] eqn:Hc.
  - destruct (Nat.eq_dec (Composition.composer c) user) as [Hu|Hu].
    + rewrite (@deleteComposition_run user id c w Hc Hu). cbn [snd db].
      destruct (@ledger_ok_purge id (db w) _ eq_refl Hok) as (H1 & H2 & H3).
      repeat split; assumption.
    + destruct (@deleteComposition_refused user id w) as [-> _]; [now rewrite Hc | exact Hok].
  - destruct (@deleteComposition_refused user id w) as [-> _]; [now rewrite Hc | exact Hok].
Qed.

Lemma vote_ledger_ok req w :
  ledger_ok (db w) -> ledger_ok (db (snd (vote req w))).
Proof.
  intros Hok.
  destruct (valid_type (body_type req)) eqn:Hv.
  2:{ now rewrite (vote_invalid_run _ _ Hv). }
  destruct (find (has_id CompositionModel (params_id req)) (compositions (db w)))
    as [c|] eqn:Hc.
  2:{ now rewrite (vote_not_found_run _ _ Hv Hc). }
  pose proof Hok as (Hid & Hk & Hlt).
  destruct (find (same_pair (req_user req) (params_id req)) (likedislikes (db w)))
    as [v|] eqn:Hf.
  - destruct (String.eqb_spec (LikeDislike.type v) (body_type req)) as [Ht|Ht].
    + rewrite (@vote_removed_run req c v w Hv Hc Hf Ht). cbn [snd db].
      unfold ledger_ok, with_ledger. cbn. repeat split.
      * now apply NoDup_map_remove_id.
      * now apply NoDup_map_remove_id.
      * apply Forall_forall. intros x Hx.
        apply (incl_remove_id LikeDislikeModel) in Hx.
        rewrite Forall_forall in Hlt. now apply Hlt.
    + rewrite (@vote_updated_run req c v w Hok Hv Hc Hf Ht). cbn [snd db].
      match goal with
      | |- ledger_ok (recount_votes ?i ?d) =>
          destruct (recount_votes_frame i d) as (E1 & E2)
      end.
      unfold ledger_ok. rewrite E1, E2. unfold with_ledger. cbn.
      pose proof (find_In _ _ Hf) as Hin.
      pose proof (find_by_id_unique LikeDislikeModel _ _ Hid Hin) as Hfv.
      repeat split.
      * rewrite (@map_replace_doc _ _ LikeDislikeModel LikeDislike._id _ v); auto.
      * rewrite (@map_replace_doc _ _ LikeDislikeModel pair_key _ v); auto.
      * apply Forall_forall. intros x Hx. apply In_replace_doc in Hx.
        rewrite Forall_forall in Hlt. destruct Hx as [->|Hx]; [|auto].
        cbn. now apply Hlt.
  - rewrite (@vote_added_run req c w Hok Hv Hc Hf). cbn [snd db].
    match goal with
    | |- ledger_ok (recount_votes ?i ?d) =>
        destruct (recount_votes_frame i d) as (E1 & E2)
    end.
    unfold ledger_ok. rewrite E1, E2. unfold with_ledger, with_next_id. cbn.
    rewrite !map_app. cbn. repeat split.
    + apply NoDup_app; [assumption | repeat constructor; auto | ].
      intros x Hx [<-|[]]. apply in_map_iff in Hx. destruct Hx as (y & Ey & Hy).
      rewrite Forall_forall in Hlt. apply Hlt in Hy. lia.
    + apply NoDup_app; [assumption | repeat constructor; auto | ].
      intros x Hx [<-|[]]. now apply (find_same_pair_none _ _ _ Hf).
    + apply Forall_app. split.
      * eapply Forall_impl; [|exact Hlt]. cbn. intros; lia.
      * repeat constructor.
Qed.

Lemma handle_ledger_ok r w :
  ledger_ok (db w) -> ledger_ok (db (snd (handle r w))).
Proof.
  destruct r as [req|u i|u i|u s p|u i]; cbn [handle].
  - apply vote_ledger_ok.
  - apply deleteComposition_ledger_ok.
  - apply ledger_kept_ok, keeps_deleteSong.
  - apply ledger_kept_ok, keeps_createComposition.
  - apply ledger_kept_ok, keeps_getComposition.
Qed.

Lemma serve_ledger_ok rs w :
  ledger_ok (db w) -> ledger_ok (db (serve rs w)).
Proof.
  revert w. induction rs as [|r rs IH]; intros w H; cbn [serve]; [assumption|].
  apply IH, handle_ledger_ok, H.
Qed.

(** ** A second row for a pair is refused *)

Lemma existsb_false_In {A} (f : A -> bool) l x :
  existsb f l = false -> In x l -> f x = false.
Proof.
  intros H Hx. destruct (f x) eqn:E; [|reflexivity].
  rewrite <- H. symmetry. apply existsb_exists. eauto.
Qed.

Lemma LikeDislike_save_second_row this x w :
  valid_type (LikeDislike.type this) = true ->
  In x (likedislikes (db w)) ->
  pair_key x = pair_key this ->
  fst (LikeDislike_save true this w) = Throw DuplicateKey /\
  db (snd (LikeDislike_save true this w)) = db w.
Proof.
  intros Hv Hx Hk.
  destruct (violates_unique_index this (likedislikes (db w))) eqn:Hu.
  - rewrite (@LikeDislike_save_duplicate_run true this w Hv Hu). auto.
  - assert (Hi : existsb (has_id LikeDislikeModel (LikeDislike._id this))
                   (likedislikes (db w)) = true).
    { apply existsb_exists. exists x. split; [assumption|].
      unfold violates_unique_index in Hu.
      assert (Hn := existsb_false_In _ _ _ Hu Hx). cbn beta in Hn.
      unfold pair_key in Hk. injection Hk as Hk1 Hk2.
      unfold same_pair in Hn. rewrite Hk1, Hk2, !Nat.eqb_refl in Hn. cbn in Hn.
      apply negb_false_iff in Hn. exact Hn. }
    unfold LikeDislike_save. rewrite Hv. mrun'. rewrite Hu.
    rewrite insertOne_duplicate_run by exact Hi. auto.
Qed.

(** ** The recount after a saved vote *)

Lemma sample_collections_ok : collections_ok sample_db.
Proof.
  repeat split; cbn; repeat constructor; cbn; intuition discriminate.
Qed.

Lemma find_remove_id_gone {A} (M : Model A) i l :
  NoDup (map (id_of M) l) -> find (has_id M i) (remove_id M i l) = None.
Proof.
  intros H. destruct (find _ _) as [x|] eqn:E; [|reflexivity]. exfalso.
  pose proof E as Hi. apply find_has_id in Hi. apply find_In in E.
  destruct (In_remove_id M i l x H E) as [_ Hn]. contradiction.
Qed.

Lemma calculateRating_rating c :
  Composition.likes c + Composition.dislikes c <> 0 ->
  Composition.rating (snd (calculateRating c)) =
  Rating (Composition.likes c) (Composition.dislikes c).
Proof.
  intros H. unfold Rating, calculateRating. cbn [Composition.likes Composition.dislikes].
  apply Nat.eqb_neq in H. rewrite H. reflexivity.
Qed.

Lemma count_votes_ledger c t d d' :
  likedislikes d' = likedislikes d -> count_votes c t d' = count_votes c t d.
Proof. unfold count_votes. now intros ->. Qed.

Lemma count_votes_positive v d :
  In v (likedislikes d) ->
  valid_type (LikeDislike.type v) = true ->
  count_votes (LikeDislike.composition v) like d +
  count_votes (LikeDislike.composition v) dislike d <> 0.
Proof.
  intros Hin Hv. unfold count_votes.
  unfold valid_type in Hv. apply orb_true_iff in Hv.
  assert (H : forall t, String.eqb (LikeDislike.type v) t = true ->
            List.length (filter (votes_of (LikeDislike.composition v) t) (likedislikes d)) <> 0).
  { intros t Ht E. apply length_zero_iff_nil in E.
    assert (Hf : In v (filter (votes_of (LikeDislike.composition v) t) (likedislikes d))).
    { apply filter_In. split; [assumption|]. unfold votes_of.
      now rewrite Nat.eqb_refl, Ht. }
    rewrite E in Hf. contradiction. }
  destruct Hv as [Hv|Hv]; specialize (H _ Hv); lia.
Qed.

Lemma recount_votes_rollups cid d c :
  find (has_id CompositionModel cid) (compositions d) = Some c ->
  let d' := recount_votes cid d in
  (forall s, find (has_id SongModel (Composition.song c)) (songs d) = Some s ->
     find (has_id SongModel (Composition.song c)) (songs d') =
     Some (Song.set_compositionsCount
             (List.length (filter (fun x => Composition.song x =? Composition.song c)
                             (compositions d'))) s)) /\
  (forall u, find (has_id UserModel (Composition.composer c)) (users d) = Some u ->
     find (has_id UserModel (Composition.composer c)) (users d') =
     Some (User.set_compositionsCount
             (List.length (filter (fun x => Composition.composer x =? Composition.composer c)
                             (compositions d'))) u)).
Proof.
  intros Hc d'. subst d'. rewrite (recount_votes_compositions _ _ Hc).
  unfold recount_votes. rewrite Hc.
  destruct (recounted_frame d c) as (_ & Hs & Hu & _).
  unfold rollup. rewrite Hs, Hu.
  set (d1 := with_docs CompositionModel
               (replace_doc CompositionModel (recounted d c) (compositions d)) d).
  change (replace_doc CompositionModel (recounted d c) (compositions d))
    with (compositions d1).
  split.
  - intros s Hf.
    destruct (recount_user_frame (Composition.composer c) d1) as (_ & G2 & G3 & _).
    unfold recount_song. rewrite G3. change (songs d1) with (songs d). rewrite Hf.
    cbn [songs with_docs SongModel]. rewrite G2.
    pose proof Hf as Hi. apply find_has_id in Hi. cbn in Hi.
    change (songs d1) with (songs d).
    rewrite <- Hi at 1.
    apply (@find_replace_doc _ SongModel
             (Song.set_compositionsCount _ s) s). cbn. now rewrite Hi.
  - intros u Hf.
    destruct (recount_song_frame (Composition.song c)
                (recount_user (Composition.composer c) d1)) as (_ & _ & G3 & _).
    rewrite G3. unfold recount_user. change (users d1) with (users d). rewrite Hf.
    cbn [users with_docs UserModel].
    pose proof Hf as Hi. apply find_has_id in Hi. cbn in Hi.
    rewrite <- Hi at 1.
    apply (@find_replace_doc _ UserModel
             (User.set_compositionsCount _ u) u). cbn. now rewrite Hi.
Qed.

Lemma vote_saved_run req c w :
  ledger_ok (db w) ->
  valid_type (body_type req) = true ->
  find (has_id CompositionModel (params_id req)) (compositions (db w)) = Some c ->
  option_map LikeDislike.type
    (find (same_pair (req_user req) (params_id req)) (likedislikes (db w)))
    <> Some (body_type req) ->
  exists this d ops,
    snd (vote req w) =
      mkWorld (recount_votes (params_id req) d)
        (log w ++ ops ++ recount_votes_log (params_id req) d) /\
    In this (likedislikes d) /\
    LikeDislike.type this = body_type req /\
    LikeDislike.composition this = params_id req /\
    compositions d = compositions (db w) /\
    songs d = songs (db w) /\
    users d = users (db w) /\
    exists i,
      ops = [OpFind Compositions; OpFind LikeDislikes; OpInsert LikeDislikes i] \/
      ops = [OpFind Compositions; OpFind LikeDislikes; OpUpdate LikeDislikes i].
Proof.
  intros Hok Hv Hc Hn.
  destruct (find (same_pair (req_user req) (params_id req)) (likedislikes (db w)))
    as [v|] eqn:Hf.
  - assert (Ht : LikeDislike.type v <> body_type req) by (cbn in Hn; congruence).
    rewrite (@vote_updated_run req c v w Hok Hv Hc Hf Ht). cbn [snd].
    eexists (LikeDislike.set_type (body_type req) v), _, _. split; [reflexivity|].
    unfold with_ledger. cbn. repeat split; auto.
    + pose proof Hok as (Hid & _).
      assert (E : find (has_id LikeDislikeModel (LikeDislike._id v))
                    (replace_doc LikeDislikeModel
                       (LikeDislike.set_type (body_type req) v) (likedislikes (db w)))
                  = Some (LikeDislike.set_type (body_type req) v)).
      { apply (@find_replace_doc _ LikeDislikeModel
                 (LikeDislike.set_type (body_type req) v) v).
        exact (@find_by_id_unique _ LikeDislikeModel _ v Hid (find_In _ _ Hf)). }
      eapply find_In; eauto.
    + apply find_some in Hf. destruct Hf as [_ Hf]. apply same_pair_key in Hf.
      now injection Hf.
    + exists (LikeDislike._id v). now right.
  - rewrite (@vote_added_run req c w Hok Hv Hc Hf). cbn [snd].
    eexists (LikeDislike.mk (next_id (db w)) (req_user req) (params_id req)
               (body_type req)), _, _.
    split; [reflexivity|].
    unfold with_ledger, with_next_id. cbn. repeat split; auto.
    + apply in_or_app. right. now left.
    + exists (next_id (db w)). now left.
Qed.

(** The hook writes a roll-up counter exactly when the stored value is
    not the number it has just counted. *)
Lemma In_rollup_log_song c d s :
  find (has_id SongModel (Composition.song c)) (songs d) = Some s ->
  In (OpUpdate Songs (Composition.song c)) (rollup_log c d) <->
  Song.compositionsCount s <>
  List.length (filter (fun x => Composition.song x =? Composition.song c) (compositions d)).
Proof.
  intros H. unfold rollup_log. rewrite H.
  apply find_has_id in H. cbn in H.
  set (n := List.length (filter (fun x => Composition.song x =? Composition.song c)
                           (compositions d))).
  assert (E : save_op SongModel Song.modified s (Song.set_compositionsCount n s) =
              if n =? Song.compositionsCount s then OpFind Songs
              else OpUpdate Songs (Composition.song c)).
  { unfold save_op, Song.modified. cbn. rewrite !Nat.eqb_refl, H. cbn.
    now destruct (n =? Song.compositionsCount s). }
  rewrite E. cbn [In]. rewrite in_app_iff. cbn [In].
  destruct (Nat.eqb_spec n (Song.compositionsCount s)) as [En|En].
  - split; [|intros G; exfalso; now apply G].
    intros [G|[G|[G|[G|[G|[]]]]]]; try discriminate.
    destruct (find (has_id UserModel (Composition.composer c)) (users d)) as [u|];
      [|destruct G].
    unfold save_op in G. destruct (User.modified _ _); cbn in G;
      destruct G as [G|[G|[]]]; discriminate.
  - split; [intros _ G; now apply En|]. intros _. right. right. right. right. now left.
Qed.

Lemma In_rollup_log_user c d u :
  find (has_id UserModel (Composition.composer c)) (users d) = Some u ->
  In (OpUpdate Users (Composition.composer c)) (rollup_log c d) <->
  User.compositionsCount u <>
  List.length (filter (fun x => Composition.composer x =? Composition.composer c)
                 (compositions d)).
Proof.
  intros H. unfold rollup_log. rewrite H.
  apply find_has_id in H. cbn in H.
  set (n := List.length (filter (fun x => Composition.composer x =? Composition.composer c)
                           (compositions d))).
  assert (E : save_op UserModel User.modified u (User.set_compositionsCount n u) =
              if n =? User.compositionsCount u then OpFind Users
              else OpUpdate Users (Composition.composer c)).
  { unfold save_op, User.modified. cbn. rewrite !Nat.eqb_refl, H. cbn.
    now destruct (n =? User.compositionsCount u). }
  rewrite E. cbn [In app].
  destruct (Nat.eqb_spec n (User.compositionsCount u)) as [En|En].
  - split; [|intros G; exfalso; now apply G].
    intros [G|[G|[G|[G|G]]]]; try discriminate.
    destruct (find (has_id SongModel (Composition.song c)) (songs d)) as [s|];
      [|destruct G].
    unfold save_op in G. destruct (Song.modified _ _); cbn in G;
      destruct G as [G|[G|[]]]; discriminate.
  - split; [intros _ G; now apply En|]. intros _. right. right. now left.
Qed.

(** ** Binary64 arithmetic of the rating *)

Unset Implicit Arguments.

Section Binary64.
Local Open Scope R_scope.

(** *** Powers of two *)

Lemma bpow_pos e : 0 < bpow e.
Proof. apply powerRZ_lt. lra. Qed.

Lemma bpow_add a b : bpow (a + b) = bpow a * bpow b.
Proof. unfold bpow. apply powerRZ_add. lra. Qed.

Lemma bpow_succ e : bpow (e + 1) = 2 * bpow e.
Proof. rewrite bpow_add. unfold bpow at 2. simpl. lra. Qed.

Lemma bpow_ge_1 n : (0 <= n)%Z -> 1 <= bpow n.
Proof.
  intros H. unfold bpow. rewrite <- (Z2Nat.id n H), <- pow_powerRZ.
  apply pow_R1_Rle. lra.
Qed.

Lemma bpow_le a b : (a <= b)%Z -> bpow a <= bpow b.
Proof.
  intros H. replace b with (a + (b - a))%Z by lia. rewrite bpow_add.
  pose proof (bpow_pos a). pose proof (bpow_ge_1 (b - a) ltac:(lia)). nra.
Qed.

Lemma bpow_lt_half a b : (a < b)%Z -> 2 * bpow a <= bpow b.
Proof.
  intros H. rewrite <- bpow_succ. apply bpow_le. lia.
Qed.

Lemma bpow_IZR n : (0 <= n)%Z -> bpow n = IZR (2 ^ n).
Proof.
  intros H. unfold bpow. rewrite <- (Z2Nat.id n H), <- pow_powerRZ, pow_IZR.
  reflexivity.
Qed.

(** *** Rounding to nearest is monotone *)

Lemma rounds_to_mono x y mf ef mg eg :
  rounds_to x mf ef -> rounds_to y mg eg -> x <= y -> value mf ef <= value mg eg.
Proof.
  intros (Hmf & Hxu & Hxt & HxM & Hxl) (Hmg & Hyu & Hyt & HyM & Hyl) Hxy.
  unfold value. destruct (Rle_dec (IZR mf * bpow ef) (IZR mg * bpow eg)) as [|Hn]; [assumption|].
  exfalso. apply Rnot_le_lt in Hn.
  pose proof (bpow_pos ef) as Uf. pose proof (bpow_pos eg) as Ug.
  assert (Bf1 := IZR_le _ _ (proj1 Hmf)). assert (Bf2 := IZR_lt _ _ (proj2 Hmf)).
  assert (Bg1 := IZR_le _ _ (proj1 Hmg)). assert (Bg2 := IZR_lt _ _ (proj2 Hmg)).
  rewrite mult_IZR in Bf2, Bg2.
  assert (HM : 1 <= IZR M52) by (apply IZR_le; unfold M52; lia).
  destruct (Z.lt_trichotomy eg ef) as [He|[He|He]].
  - (* eg < ef *)
    pose proof (bpow_lt_half _ _ He) as Hu.
    assert (Bg3 : IZR mg <= 2 * IZR M52 - 1).
    { change 2 with (IZR 2). change 1 with (IZR 1). rewrite <- mult_IZR, <- minus_IZR.
      apply IZR_le. lia. }
    assert (Hy' : y <= (IZR M52 - /4) * bpow ef) by nra.
    destruct (Z.eq_dec mf M52) as [E|E].
    + specialize (HxM E). rewrite E in HxM.
      assert (Ey : y = (IZR mg + /2) * bpow eg) by nra.
      specialize (Hyt Ey).
      assert (Emg : IZR mg = 2 * IZR M52 - 1) by nra.
      assert (mg = 2 * M52 - 1)%Z.
      { apply eq_IZR. rewrite minus_IZR, mult_IZR. exact Emg. }
      subst mg. unfold M52 in Hyt. discriminate.
    + destruct (Hxl E) as [Hl _].
      assert (IZR M52 + 1 <= IZR mf).
      { change 1 with (IZR 1). rewrite <- plus_IZR. apply IZR_le. lia. }
      nra.
  - (* eg = ef *)
    subst eg.
    assert (Hlt : (mg < mf)%Z). { apply lt_IZR. nra. }
    assert (Bm : IZR mg <= IZR mf - 1).
    { change 1 with (IZR 1). rewrite <- minus_IZR. apply IZR_le. lia. }
    assert (E : mf <> M52) by lia.
    destruct (Hxl E) as [Hl Hlt'].
    assert (Ex : x = (IZR mf - /2) * bpow ef) by nra.
    assert (Ey : y = (IZR mg + /2) * bpow ef) by nra.
    specialize (Hlt' Ex). specialize (Hyt Ey).
    assert (Emg : IZR mg = IZR mf - 1) by nra.
    assert (mg = mf - 1)%Z. { apply eq_IZR. rewrite minus_IZR. exact Emg. }
    subst mg. rewrite Z.even_sub in Hyt. rewrite Hlt' in Hyt. discriminate.
  - (* ef < eg *)
    pose proof (bpow_lt_half _ _ He) as Hu. nra.
Qed.

(** *** Shifting a mantissa right keeps the location *)

Lemma IZR_xO p : IZR (Z.pos p~0) = 2 * IZR (Z.pos p).
Proof. rewrite Pos2Z.inj_xO, mult_IZR. reflexivity. Qed.

Lemma IZR_xI p : IZR (Z.pos p~1) = 2 * IZR (Z.pos p) + 1.
Proof. rewrite Pos2Z.inj_xI, plus_IZR, mult_IZR. reflexivity. Qed.

Lemma shr_1_located x e mrs :
  (0 <= shr_m mrs)%Z ->
  located x e mrs ->
  located x (e + 1) (shr_1 mrs) /\ shr_m (shr_1 mrs) = (shr_m mrs / 2)%Z.
Proof.
  destruct mrs as [m r s]. cbn [shr_m]. intros Hm H.
  unfold located in *. cbn [shr_m shr_r shr_s] in *.
  rewrite bpow_succ. pose proof (bpow_pos e) as U.
  destruct m as [|p|p]; [| |lia].
  - cbn [shr_1 shr_m shr_r shr_s]. split; [|reflexivity].
    destruct r, s; cbn [orb]; lra.
  - destruct p as [p|p|].
    + cbn [shr_1 shr_m shr_r shr_s]. rewrite IZR_xI in H. split.
      * destruct r, s; cbn [orb]; lra.
      * rewrite Pos2Z.inj_xI. apply Z.div_unique with (r := 1%Z); lia.
    + cbn [shr_1 shr_m shr_r shr_s]. rewrite IZR_xO in H. split.
      * destruct r, s; cbn [orb]; lra.
      * rewrite Pos2Z.inj_xO. apply Z.div_unique with (r := 0%Z); lia.
    + cbn [shr_1 shr_m shr_r shr_s]. split; [|reflexivity].
      destruct r, s; cbn [orb]; lra.
Qed.

Lemma pow2_xO p : (2 ^ Z.pos p~0 = 2 ^ Z.pos p * 2 ^ Z.pos p)%Z.
Proof. rewrite <- Z.pow_add_r by lia. f_equal. lia. Qed.

Lemma pow2_xI p : (2 ^ Z.pos p~1 = 2 * (2 ^ Z.pos p * 2 ^ Z.pos p))%Z.
Proof.
  rewrite <- Z.pow_add_r, <- Z.pow_succ_r by lia. f_equal. lia.
Qed.

Lemma iter_shr_1_located x p : forall e mrs,
  (0 <= shr_m mrs)%Z ->
  located x e mrs ->
  located x (e + Z.pos p) (SpecFloat.iter_pos shr_1 p mrs) /\
  shr_m (SpecFloat.iter_pos shr_1 p mrs) = (shr_m mrs / 2 ^ Z.pos p)%Z.
Proof.
  induction p as [p IH|p IH|]; intros e mrs Hm H; cbn [SpecFloat.iter_pos];
    try assert (P2 : (0 < 2 ^ Z.pos p)%Z) by (apply Z.pow_pos_nonneg; lia).
  - destruct (@shr_1_located x e mrs Hm H) as [H1 E1].
    assert (Hm1 : (0 <= shr_m (shr_1 mrs))%Z) by (rewrite E1; apply Z.div_pos; lia).
    destruct (IH _ _ Hm1 H1) as [H2 E2].
    assert (Hm2 : (0 <= shr_m (SpecFloat.iter_pos shr_1 p (shr_1 mrs)))%Z)
      by (rewrite E2; apply Z.div_pos; lia).
    destruct (IH _ _ Hm2 H2) as [H3 E3].
    split.
    + replace (e + Z.pos p~1)%Z with (e + 1 + Z.pos p + Z.pos p)%Z by lia. exact H3.
    + rewrite E3, E2, E1. rewrite Z.div_div by lia. rewrite Z.div_div by lia.
      now rewrite pow2_xI.
  - destruct (IH _ _ Hm H) as [H2 E2].
    assert (Hm2 : (0 <= shr_m (SpecFloat.iter_pos shr_1 p mrs))%Z)
      by (rewrite E2; apply Z.div_pos; lia).
    destruct (IH _ _ Hm2 H2) as [H3 E3].
    split.
    + replace (e + Z.pos p~0)%Z with (e + Z.pos p + Z.pos p)%Z by lia. exact H3.
    + rewrite E3, E2. rewrite Z.div_div by lia. now rewrite pow2_xO.
  - destruct (@shr_1_located x e mrs Hm H) as [H1 E1]. split; [exact H1|].
    rewrite E1. reflexivity.
Qed.

Lemma shr_located x e mrs n :
  (0 <= shr_m mrs)%Z -> (0 <= n)%Z ->
  located x e mrs ->
  let '(mrs', e') := shr mrs e n in
  located x e' mrs' /\ shr_m mrs' = (shr_m mrs / 2 ^ n)%Z /\ e' = (e + n)%Z.
Proof.
  intros Hm Hn H. unfold shr. destruct n as [|p|p]; [| |lia].
  - rewrite Z.pow_0_r, Z.div_1_r, Z.add_0_r. auto.
  - destruct (@iter_shr_1_located x p e mrs Hm H). auto.
Qed.

(** Number of binary digits. *)
Lemma digits2_size p : digits2_pos p = Pos.size p.
Proof. induction p; cbn; congruence. Qed.

Lemma Zdigits2_log2 p : Zdigits2 (Z.pos p) = Z.succ (Z.log2 (Z.pos p)).
Proof.
  cbn [Zdigits2]. rewrite digits2_size.
  destruct p; cbn [Pos.size Z.log2]; try rewrite Pos2Z.inj_succ; reflexivity.
Qed.

Lemma Zdigits2_bounds m :
  (0 < m)%Z -> (2 ^ (Zdigits2 m - 1) <= m < 2 ^ Zdigits2 m)%Z.
Proof.
  destruct m as [|p|p]; try lia. intros H. rewrite Zdigits2_log2.
  replace (Z.succ (Z.log2 (Z.pos p)) - 1)%Z with (Z.log2 (Z.pos p)) by lia.
  apply Z.log2_spec. exact H.
Qed.

Lemma Zdigits2_unique m d :
  (2 ^ (d - 1) <= m < 2 ^ d)%Z -> (0 < d)%Z -> Zdigits2 m = d.
Proof.
  intros H Hd.
  assert (Hm : (0 < m)%Z) by (pose proof (Z.pow_pos_nonneg 2 (d - 1)); lia).
  pose proof (Zdigits2_bounds m Hm) as B.
  assert (Hp : (0 < Zdigits2 m)%Z) by (destruct m; cbn in *; lia).
  destruct (Z.lt_trichotomy (Zdigits2 m) d) as [L|[E|L]]; [|assumption|]; exfalso.
  - assert (2 ^ Zdigits2 m <= 2 ^ (d - 1))%Z by (apply Z.pow_le_mono_r; lia). lia.
  - assert (2 ^ d <= 2 ^ (Zdigits2 m - 1))%Z by (apply Z.pow_le_mono_r; lia). lia.
Qed.

Lemma M52_pow : M52 = (2 ^ 52)%Z.
Proof. reflexivity. Qed.

Lemma fexp_normal z : (-1074 <= z - 53)%Z -> fexp prec emax z = (z - 53)%Z.
Proof.
  intros H. unfold fexp, SpecFloat.emin, prec, emax. lia.
Qed.

Lemma located_of_loc x e m l :
  located x e (shr_record_of_loc m l) ->
  shr_m (shr_record_of_loc m l) = m.
Proof. intros _. destruct l as [|[| |]]; reflexivity. Qed.

Lemma shr_fexp_located x m e l d :
  (0 < m)%Z -> Zdigits2 m = d -> (53 <= d)%Z -> (-1074 <= d + e - 53)%Z ->
  located x e (shr_record_of_loc m l) ->
  exists mrs,
    shr_fexp prec emax m e l = (mrs, (d + e - 53)%Z) /\
    located x (d + e - 53) mrs /\
    (M52 <= shr_m mrs < 2 * M52)%Z.
Proof.
  intros Hm Hd Hd53 He H.
  unfold shr_fexp. rewrite Hd, fexp_normal by lia.
  assert (Em : shr_m (shr_record_of_loc m l) = m) by (destruct l as [|[| |]]; reflexivity).
  assert (Hm0 : (0 <= shr_m (shr_record_of_loc m l))%Z) by (rewrite Em; lia).
  assert (Hn : (0 <= d + e - 53 - e)%Z) by lia.
  pose proof (@shr_located x e _ _ Hm0 Hn H) as S.
  destruct (shr (shr_record_of_loc m l) e (d + e - 53 - e)) as [mrs e'].
  destruct S as (S1 & S2 & S3). exists mrs. subst e'.
  replace (e + (d + e - 53 - e))%Z with (d + e - 53)%Z in * by lia.
  repeat split; auto.
  - rewrite S2, Em. replace (d + e - 53 - e)%Z with (d - 53)%Z by lia.
    pose proof (Zdigits2_bounds m Hm) as [B _]. rewrite Hd in B.
    apply Z.div_le_lower_bound; [apply Z.pow_pos_nonneg; lia|].
    rewrite M52_pow, <- Z.pow_add_r by lia.
    replace (d - 53 + 52)%Z with (d - 1)%Z by lia. exact B.
  - rewrite S2, Em. replace (d + e - 53 - e)%Z with (d - 53)%Z by lia.
    pose proof (Zdigits2_bounds m Hm) as [_ B]. rewrite Hd in B.
    apply Z.div_lt_upper_bound; [apply Z.pow_pos_nonneg; lia|].
    replace (2 * M52)%Z with (2 ^ 53)%Z by reflexivity.
    rewrite <- Z.pow_add_r by lia.
    replace (d - 53 + 53)%Z with d by lia. exact B.
Qed.

Lemma round_located x e mrs :
  located x e mrs ->
  (M52 <= shr_m mrs < 2 * M52)%Z ->
  let m2 := round_nearest_even (shr_m mrs) (loc_of_shr_record mrs) in
  (M52 <= m2 <= 2 * M52)%Z /\
  (m2 < 2 * M52 -> rounds_to x m2 e)%Z /\
  (m2 = 2 * M52 -> rounds_to x M52 (e + 1))%Z.
Proof.
  destruct mrs as [m r s]. unfold located. cbn [shr_m shr_r shr_s].
  intros H Hm. cbn zeta.
  pose proof (bpow_pos e) as U.
  assert (B1 := IZR_le _ _ (proj1 Hm)). assert (B2 := IZR_lt _ _ (proj2 Hm)).
  rewrite mult_IZR in B2.
  assert (HM : IZR M52 = 4503599627370496) by reflexivity.
  assert (Hodd : Z.even m = false -> Z.even (m + 1) = true).
  { intros E. rewrite Z.even_add, E. reflexivity. }
  assert (P1 : IZR (m + 1) = IZR m + 1) by (rewrite plus_IZR; reflexivity).
  unfold rounds_to. rewrite bpow_succ.
  assert (HM2 : IZR (2 * M52) = 2 * IZR M52) by (rewrite mult_IZR; reflexivity).
  destruct r, s; cbn [loc_of_shr_record round_nearest_even];
    try (destruct (Z.even m) eqn:Ev);
    (split; [lia|]); (split; intros Hc);
    try (exfalso; lia);
    try rewrite P1;
    try (assert (Hc' : IZR m + 1 = 2 * IZR M52) by (rewrite <- P1, Hc; exact HM2));
    repeat split;
    try lia; try lra; try nra;
    try (intros Hx; first [ lia | lra | nra | assumption
                          | (apply Hodd; first [assumption | reflexivity])
                          | (exfalso; first [lia | lra | nra]) ]).
Qed.

(** *** The rounding of [SpecFloat], on positive normal results *)

Lemma binary_round_aux_correct x s m e l d :
  (0 < m)%Z -> Zdigits2 m = d -> (53 <= d)%Z ->
  (-1074 <= d + e - 53)%Z -> (d + e - 53 < 971)%Z ->
  located x e (shr_record_of_loc m l) ->
  exists m' e',
    binary_round_aux prec emax s m e l = S754_finite s (Z.to_pos m') e' /\
    rounds_to x m' e' /\
    (d + e - 53 <= e' <= d + e - 52)%Z.
Proof.
  intros Hm Hd Hd53 He1 He2 H.
  destruct (@shr_fexp_located x m e l d Hm Hd Hd53 He1 H) as (mrs & E1 & L1 & B1).
  unfold binary_round_aux. rewrite E1.
  destruct (@round_located x (d + e - 53) mrs L1 B1) as (B2 & R1 & R2).
  set (m2 := round_nearest_even (shr_m mrs) (loc_of_shr_record mrs)) in *.
  destruct (Z.eq_dec m2 (2 * M52)) as [E|E].
  - rewrite E. exists M52, (d + e - 53 + 1)%Z.
    unfold shr_fexp.
    replace (Zdigits2 (2 * M52)) with 54%Z by reflexivity.
    rewrite fexp_normal by lia.
    replace (54 + (d + e - 53) - 53 - (d + e - 53))%Z with 1%Z by lia.
    cbn [shr_record_of_loc shr SpecFloat.iter_pos].
    change (shr_1 {| shr_m := 2 * M52; shr_r := false; shr_s := false |})
      with {| shr_m := M52; shr_r := false; shr_s := false |}.
    cbn [shr_m]. unfold M52 at 1.
    replace (d + e - 53 + 1 <=? emax - prec)%Z with true
      by (symmetry; apply Z.leb_le; unfold emax, prec; lia).
    split; [reflexivity|]. split; [auto | lia].
  - assert (Hlt : (m2 < 2 * M52)%Z) by lia.
    exists m2, (d + e - 53)%Z.
    unfold shr_fexp.
    assert (D : Zdigits2 m2 = 53%Z).
    { apply Zdigits2_unique; [|lia].
      change (2 ^ (53 - 1))%Z with M52. change (2 ^ 53)%Z with (2 * M52)%Z. lia. }
    rewrite D.
    rewrite fexp_normal by lia.
    replace (53 + (d + e - 53) - 53 - (d + e - 53))%Z with 0%Z by lia.
    cbn [shr_record_of_loc shr shr_m].
    assert (Hp : (0 < m2)%Z) by (unfold M52 in B2; lia).
    destruct m2 as [|p|p]; try lia.
    replace (d + e - 53 <=? emax - prec)%Z with true
      by (symmetry; apply Z.leb_le; unfold emax, prec; lia).
    split; [reflexivity|]. split; [auto | lia].
Qed.

(** *** Product and quotient *)

Lemma Zdigits2_between m a b :
  (0 <= a)%Z -> (a < b)%Z -> (2 ^ a <= m < 2 ^ b)%Z -> (a < Zdigits2 m <= b)%Z.
Proof.
  intros Ha Hab H.
  assert (Hm : (0 < m)%Z) by (pose proof (Z.pow_pos_nonneg 2 a); lia).
  pose proof (Zdigits2_bounds m Hm) as [B1 B2].
  assert (Hd : (0 < Zdigits2 m)%Z) by (destruct m; cbn in *; lia).
  split.
  - apply (Z.pow_lt_mono_r_iff 2); lia.
  - assert (Zdigits2 m - 1 < b)%Z; [|lia].
    apply (Z.pow_lt_mono_r_iff 2); lia.
Qed.

Lemma located_exact m e : located (value m e) e (shr_record_of_loc m loc_Exact).
Proof. reflexivity. Qed.

Lemma SFmul_correct mx ex my ey :
  normal mx ex -> normal my ey ->
  (-1126 <= ex + ey <= 900)%Z ->
  exists m e,
    SFmul prec emax (S754_finite false (Z.to_pos mx) ex)
                    (S754_finite false (Z.to_pos my) ey) =
    S754_finite false (Z.to_pos m) e /\
    rounds_to (value mx ex * value my ey) m e /\
    normal m e.
Proof.
  intros [Hx Hex] [Hy Hey] He.
  unfold SFmul, xorb.
  assert (Px : (0 < mx)%Z) by (unfold M52 in *; lia).
  assert (Py : (0 < my)%Z) by (unfold M52 in *; lia).
  assert (E : Z.pos (Z.to_pos mx * Z.to_pos my) = (mx * my)%Z).
  { rewrite Pos2Z.inj_mul, !Z2Pos.id by assumption. reflexivity. }
  rewrite E.
  assert (B : (2 ^ 104 <= mx * my < 2 ^ 106)%Z).
  { change (2 ^ 104)%Z with (M52 * M52)%Z.
    change (2 ^ 106)%Z with ((2 * M52) * (2 * M52))%Z. unfold M52 in *. nia. }
  pose proof (@Zdigits2_between (mx * my) 104 106 ltac:(lia) ltac:(lia) B) as D.
  assert (L : located (value mx ex * value my ey) (ex + ey)
                (shr_record_of_loc (mx * my) loc_Exact)).
  { unfold located, value. cbn. rewrite mult_IZR, bpow_add. ring. }
  destruct (@binary_round_aux_correct (value mx ex * value my ey) false (mx * my) (ex + ey)
              loc_Exact (Zdigits2 (mx * my)))
    as (m & e & R1 & R2 & R3); try lia; auto.
  exists m, e. repeat split; auto; try apply R2; lia.
Qed.

Lemma new_location_located (q r m2 : Z) (e : Z) (x : R) :
  (0 < m2)%Z -> (0 <= r < m2)%Z ->
  x * IZR m2 = (IZR q * IZR m2 + IZR r) * bpow e ->
  located x e (shr_record_of_loc q (new_location m2 r)).
Proof.
  intros Hm Hr Hx.
  pose proof (bpow_pos e) as U.
  assert (M : 0 < IZR m2) by (apply IZR_lt; lia).
  set (rho := IZR r / IZR m2).
  assert (Hrho : rho * IZR m2 = IZR r) by (unfold rho; field; lra).
  assert (Ex : x = (IZR q + rho) * bpow e).
  { apply Rmult_eq_reg_r with (IZR m2); [|lra]. rewrite Hx. unfold rho. field. lra. }
  assert (Lt_case : (2 * r < m2)%Z -> (r <> 0)%Z -> 0 < rho < /2).
  { intros H1 H2. assert (0 < IZR r) by (apply IZR_lt; lia).
    apply IZR_lt in H1. rewrite mult_IZR in H1.
    split.
    - unfold rho. apply Rdiv_lt_0_compat; lra.
    - apply Rmult_lt_reg_r with (IZR m2); [lra|]. rewrite Hrho. lra. }
  assert (Gt_case : (m2 < 2 * r)%Z -> /2 < rho < 1).
  { intros H1. apply IZR_lt in H1. rewrite mult_IZR in H1.
    assert (IZR r < IZR m2) by (apply IZR_lt; lia).
    split; apply Rmult_lt_reg_r with (IZR m2); try lra; rewrite Hrho; lra. }
  assert (Eq_case : (2 * r = m2)%Z -> rho = /2).
  { intros H1. apply Rmult_eq_reg_r with (IZR m2); [|lra]. rewrite Hrho.
    rewrite <- H1, mult_IZR. lra. }
  assert (Z_case : r = 0%Z -> rho = 0).
  { intros ->. unfold rho. field. lra. }
  rewrite Ex. clear Ex Hx.
  unfold new_location.
  destruct (Z.even m2) eqn:Ev; unfold new_location_even, new_location_odd;
    (destruct (r =? 0)%Z eqn:E; [apply Z.eqb_eq in E | apply Z.eqb_neq in E]).
  - rewrite (Z_case E). cbn [shr_record_of_loc]; unfold located;
      cbn [shr_m shr_r shr_s]; lra.
  - destruct (2 * r ?= m2)%Z eqn:C.
    + apply Z.compare_eq in C. rewrite (Eq_case C).
      cbn [shr_record_of_loc]; unfold located; cbn [shr_m shr_r shr_s]. lra.
    + rewrite Z.compare_lt_iff in C. destruct (Lt_case C E).
      cbn [shr_record_of_loc]; unfold located; cbn [shr_m shr_r shr_s]. split; nra.
    + rewrite Z.compare_gt_iff in C. destruct (Gt_case C).
      cbn [shr_record_of_loc]; unfold located; cbn [shr_m shr_r shr_s]. split; nra.
  - rewrite (Z_case E). cbn [shr_record_of_loc]; unfold located;
      cbn [shr_m shr_r shr_s]; lra.
  - assert (Hne : (2 * r <> m2)%Z).
    { intros Heq. rewrite <- Heq, Z.even_mul in Ev. discriminate. }
    destruct (2 * r + 1 ?= m2)%Z eqn:C.
    + apply Z.compare_eq in C. destruct (Lt_case ltac:(lia) E).
      cbn [shr_record_of_loc]; unfold located; cbn [shr_m shr_r shr_s]. split; nra.
    + rewrite Z.compare_lt_iff in C. destruct (Lt_case ltac:(lia) E).
      cbn [shr_record_of_loc]; unfold located; cbn [shr_m shr_r shr_s]. split; nra.
    + rewrite Z.compare_gt_iff in C. destruct (Gt_case ltac:(lia)).
      cbn [shr_record_of_loc]; unfold located; cbn [shr_m shr_r shr_s]. split; nra.
Qed.

Lemma SFdiv_correct mx ex my ey :
  normal mx ex -> normal my ey ->
  (-1000 <= ex - ey <= 900)%Z ->
  exists m e,
    SFdiv prec emax (S754_finite false (Z.to_pos mx) ex)
                    (S754_finite false (Z.to_pos my) ey) =
    S754_finite false (Z.to_pos m) e /\
    rounds_to (value mx ex / value my ey) m e /\
    normal m e.
Proof.
  intros [Hx Hex] [Hy Hey] He.
  assert (Px : (0 < mx)%Z) by (unfold M52 in *; lia).
  assert (Py : (0 < my)%Z) by (unfold M52 in *; lia).
  unfold SFdiv, xorb, SFdiv_core_binary.
  rewrite !Z2Pos.id by assumption.
  assert (Dx : Zdigits2 mx = 53%Z).
  { apply Zdigits2_unique; [|lia].
    change (2 ^ (53 - 1))%Z with M52. change (2 ^ 53)%Z with (2 * M52)%Z. lia. }
  assert (Dy : Zdigits2 my = 53%Z).
  { apply Zdigits2_unique; [|lia].
    change (2 ^ (53 - 1))%Z with M52. change (2 ^ 53)%Z with (2 * M52)%Z. lia. }
  rewrite Dx, Dy, fexp_normal by lia.
  replace (Z.min (53 + ex - (53 + ey) - 53) (ex - ey))%Z with (ex - ey - 53)%Z by lia.
  replace (ex - ey - (ex - ey - 53))%Z with 53%Z by lia.
  cbn match. rewrite Z.shiftl_mul_pow2 by lia.
  pose proof (Z_div_mod (mx * 2 ^ 53) my ltac:(lia)) as DM.
  destruct (Z.div_eucl (mx * 2 ^ 53) my) as [q r]. destruct DM as [DM Hr].
  set (x := value mx ex / value my ey).
  pose proof (bpow_pos ex) as Ux. pose proof (bpow_pos ey) as Uy.
  pose proof (bpow_pos (ex - ey - 53)) as U.
  assert (My : 0 < IZR my) by (apply IZR_lt; lia).
  assert (Hx' : x * IZR my = (IZR q * IZR my + IZR r) * bpow (ex - ey - 53)).
  { replace (IZR q * IZR my + IZR r) with (IZR (mx * 2 ^ 53)).
    2:{ rewrite DM, plus_IZR, mult_IZR. ring. }
    rewrite mult_IZR. rewrite <- bpow_IZR by lia.
    unfold x, value.
    replace (bpow ex) with (bpow (ex - ey - 53) * bpow 53 * bpow ey).
    2:{ rewrite <- !bpow_add. f_equal. lia. }
    field. lra. }
  assert (Bq : (2 ^ 52 <= q < 2 ^ 54)%Z).
  { change (2 ^ 53)%Z with (2 * M52)%Z in DM. change (2 ^ 52)%Z with M52.
    change (2 ^ 54)%Z with (4 * M52)%Z. unfold M52 in *. nia. }
  pose proof (@Zdigits2_between q 52 54 ltac:(lia) ltac:(lia) Bq) as D.
  destruct (@binary_round_aux_correct x false q (ex - ey - 53)
              (new_location my r) (Zdigits2 q))
    as (m & e & R1 & R2 & R3); try lia; auto.
  - apply new_location_located; auto.
  - exists m, e. repeat split; auto; try apply R2; lia.
Qed.

(** *** Normal numbers and integers as Numbers *)

Lemma normal_digits m e : normal m e -> Zdigits2 m = 53%Z.
Proof.
  intros [H _]. apply Zdigits2_unique; [|lia].
  change (2 ^ (53 - 1))%Z with M52. change (2 ^ 53)%Z with (2 * M52)%Z. lia.
Qed.

Lemma normal_pos m e : normal m e -> (0 < m)%Z.
Proof. intros [H _]. unfold M52 in H. lia. Qed.

Lemma valid_normal m e :
  normal m e -> valid_binary (S754_finite false (Z.to_pos m) e) = true.
Proof.
  intros H. pose proof (normal_digits m e H) as D. pose proof (normal_pos m e H) as P.
  destruct H as [Hm He].
  unfold SpecFloat.valid_binary, SpecFloat.bounded, SpecFloat.canonical_mantissa.
  change (Z.pos (digits2_pos (Z.to_pos m))) with (Zdigits2 (Z.pos (Z.to_pos m))).
  rewrite Z2Pos.id, D, fexp_normal by lia.
  apply andb_true_iff. split; [apply Z.eqb_eq; lia | apply Z.leb_le; unfold emax, prec; lia].
Qed.

Lemma rounds_to_exact m e : (M52 <= m < 2 * M52)%Z -> rounds_to (value m e) m e.
Proof.
  intros H. pose proof (bpow_pos e) as U. unfold rounds_to, value.
  repeat split; try lia; try nra; intros; try nra; exfalso; nra.
Qed.

Lemma rounds_to_representable m e m' e' :
  (M52 <= m < 2 * M52)%Z -> rounds_to (value m e) m' e' -> value m' e' = value m e.
Proof.
  intros H R. pose proof (rounds_to_exact m e H) as R0.
  apply Rle_antisym.
  - apply (rounds_to_mono _ _ _ _ _ _ R R0). lra.
  - apply (rounds_to_mono _ _ _ _ _ _ R0 R). lra.
Qed.

Lemma iter_xO p d : Z.pos (Pos.iter xO p d) = (Z.pos p * 2 ^ Z.pos d)%Z.
Proof.
  revert p. induction d as [d IH|d IH|]; intros p; cbn [Pos.iter].
  - rewrite Pos2Z.inj_xO, !IH, pow2_xI. ring.
  - rewrite !IH, pow2_xO. ring.
  - rewrite Pos2Z.inj_xO. change (2 ^ 1)%Z with 2%Z. ring.
Qed.

Lemma binary_normalize_spec z :
  (0 < z < 2 ^ 53)%Z ->
  exists m e,
    binary_normalize prec emax z 0 false = S754_finite false (Z.to_pos m) e /\
    normal m e /\ value m e = IZR z /\ (-52 <= e <= 1)%Z.
Proof.
  intros Hz. destruct z as [|p|p]; try lia.
  unfold binary_normalize, binary_round.
  change (Z.pos (digits2_pos p)) with (Zdigits2 (Z.pos p)).
  pose proof (@Zdigits2_bounds (Z.pos p) ltac:(lia)) as B.
  set (dp := Zdigits2 (Z.pos p)) in *.
  assert (Hdp : (0 < dp <= 53)%Z).
  { split; [unfold dp; cbn; lia|].
    assert (dp - 1 < 53)%Z; [|lia]. apply (Z.pow_lt_mono_r_iff 2); lia. }
  rewrite Z.add_0_r, fexp_normal by lia.
  assert (S : exists mz ez, shl_align p 0 (dp - 53) = (mz, ez) /\
                (Z.pos mz * 1 = Z.pos p * 2 ^ (53 - dp))%Z /\ ez = (dp - 53)%Z).
  { unfold shl_align. rewrite Z.sub_0_r.
    destruct (dp - 53)%Z as [|q|q] eqn:E; try lia.
    - exists p, 0%Z. replace (53 - dp)%Z with 0%Z by lia. repeat split; lia.
    - exists (Pos.iter xO p q), (Z.neg q). rewrite iter_xO.
      replace (53 - dp)%Z with (Z.pos q) by lia. repeat split; lia. }
  destruct S as (mz & ez & -> & Emz & ->). rewrite Z.mul_1_r in Emz.
  assert (Bmz : (M52 <= Z.pos mz < 2 * M52)%Z).
  { rewrite Emz.
    assert (E52 : M52 = (2 ^ (dp - 1) * 2 ^ (53 - dp))%Z).
    { rewrite <- Z.pow_add_r by lia. rewrite M52_pow. f_equal. lia. }
    assert (E53 : (2 * M52 = 2 ^ dp * 2 ^ (53 - dp))%Z).
    { rewrite <- Z.pow_add_r by lia. change (2 * M52)%Z with (2 ^ 53)%Z. f_equal. lia. }
    rewrite E53, E52.
    assert (0 < 2 ^ (53 - dp))%Z by (apply Z.pow_pos_nonneg; lia).
    split; [apply Z.mul_le_mono_nonneg_r | apply Z.mul_lt_mono_pos_r]; lia. }
  assert (Dmz : Zdigits2 (Z.pos mz) = 53%Z).
  { apply Zdigits2_unique; [|lia].
    change (2 ^ (53 - 1))%Z with M52. change (2 ^ 53)%Z with (2 * M52)%Z. lia. }
  destruct (@binary_round_aux_correct (value (Z.pos mz) (dp - 53)) false (Z.pos mz) (dp - 53)
              loc_Exact 53)
    as (m & e & R1 & R2 & R3); try lia; auto.
  { apply located_exact. }
  exists m, e. split; [exact R1|]. split; [split; [apply R2 | lia]|]. split; [|lia].
  rewrite (rounds_to_representable _ _ _ _ Bmz R2). unfold value. rewrite Emz, mult_IZR.
  rewrite <- bpow_IZR by lia. rewrite Rmult_assoc, <- bpow_add.
  replace (53 - dp + (dp - 53))%Z with 0%Z by lia. unfold bpow. simpl. ring.
Qed.

(** *** The three roundings of the rating *)

Lemma bpow_le_inv a b : bpow a <= bpow b -> (a <= b)%Z.
Proof.
  intros H. destruct (Z_le_gt_dec a b) as [|G]; [assumption|]. exfalso.
  pose proof (bpow_lt_half b a ltac:(lia)). pose proof (bpow_pos b). lra.
Qed.

Lemma normal_exponent m e k : normal m e -> value m e <= bpow k -> (e <= k - 52)%Z.
Proof.
  intros [Hm _] H.
  assert (bpow (e + 52) <= bpow k); [|apply bpow_le_inv in H0; lia].
  rewrite bpow_add, (bpow_IZR 52) by lia. unfold value in H.
  pose proof (bpow_pos e). assert (IZR M52 <= IZR m) by (apply IZR_le; lia).
  change (2 ^ 52)%Z with M52. nra.
Qed.

Lemma rating_roundings_mono q q' m e m' e' :
  rating_roundings q m e -> rating_roundings q' m' e' -> q <= q' -> value m e <= value m' e'.
Proof.
  intros (m1 & e1 & m2 & e2 & _ & _ & R1 & R2 & R3)
         (n1 & f1 & n2 & f2 & _ & _ & S1 & S2 & S3) H.
  pose proof (rounds_to_mono _ _ _ _ _ _ R1 S1 H) as H1.
  assert (H1' : value m1 e1 * 5 <= value n1 f1 * 5) by lra.
  pose proof (rounds_to_mono _ _ _ _ _ _ R2 S2 H1') as H2.
  assert (H2' : value m2 e2 * 10 <= value n2 f2 * 10) by lra.
  exact (rounds_to_mono _ _ _ _ _ _ R3 S3 H2').
Qed.

Lemma value_one : value M52 (-52) = 1.
Proof. unfold value, bpow, M52. simpl. lra. Qed.

Lemma value_five : value mant_5 (-50) = 5.
Proof. unfold value, bpow, mant_5. simpl. lra. Qed.

Lemma value_ten : value mant_10 (-49) = 10.
Proof. unfold value, bpow, mant_10. simpl. lra. Qed.

Lemma value_fifty : value mant_50 (-47) = 50.
Proof. unfold value, bpow, mant_50. simpl. lra. Qed.

Lemma Prim2SF_Number_of_Z z :
  (0 < z < 2 ^ 53)%Z ->
  exists m e,
    Prim2SF (Number_of_Z z) = S754_finite false (Z.to_pos m) e /\
    normal m e /\ value m e = IZR z /\ (-52 <= e <= 1)%Z.
Proof.
  intros Hz. destruct (binary_normalize_spec z Hz) as (m & e & E & N & Hv & He).
  exists m, e. unfold Number_of_Z. rewrite E.
  rewrite Prim2SF_SF2Prim by (apply valid_normal; exact N). auto.
Qed.

Lemma Prim2SF_five : Prim2SF 5 = S754_finite false (Z.to_pos mant_5) (-50).
Proof. reflexivity. Qed.

Lemma Prim2SF_ten : Prim2SF 10 = S754_finite false (Z.to_pos mant_10) (-49).
Proof. reflexivity. Qed.

Lemma normal_five : normal mant_5 (-50).
Proof. unfold normal, mant_5, M52. lia. Qed.

Lemma normal_ten : normal mant_10 (-49).
Proof. unfold normal, mant_10, M52. lia. Qed.

Lemma rating_roundings_one : rating_roundings 1 mant_50 (-47).
Proof.
  exists M52, (-52)%Z, mant_5, (-50)%Z.
  split; [unfold normal, M52; lia|]. split; [exact normal_five|].
  split; [|split].
  - rewrite <- value_one. apply rounds_to_exact. unfold M52. lia.
  - rewrite value_one. replace (1 * 5) with (value mant_5 (-50)) by (rewrite value_five; lra).
    apply rounds_to_exact. unfold mant_5, M52. lia.
  - rewrite value_five. replace (5 * 10) with (value mant_50 (-47)) by (rewrite value_fifty; lra).
    apply rounds_to_exact. unfold mant_50, M52. lia.
Qed.

Lemma rounds_to_pos x m e : rounds_to x m e -> 0 < x.
Proof.
  intros (Hm & _ & _ & H1 & H2). pose proof (bpow_pos e) as U.
  assert (B1 : IZR M52 <= IZR m) by (apply IZR_le; lia).
  assert (B2 : 1 <= IZR M52) by (apply IZR_le; unfold M52; lia).
  destruct (Z.eq_dec m M52) as [E|E].
  - specialize (H1 E). nra.
  - destruct (H2 E) as [H3 _]. nra.
Qed.

Lemma Rdiv_le_cross a b c d :
  0 < b -> 0 < d -> a * d <= c * b -> a / b <= c / d.
Proof.
  intros Hb Hd H. apply Rmult_le_reg_r with (b * d); [nra|].
  replace (a / b * (b * d)) with (a * d) by (field; lra).
  replace (c / d * (b * d)) with (c * b) by (field; lra).
  exact H.
Qed.

Lemma rating_pipeline l t :
  (0 < l <= t)%Z -> (t < 2 ^ 53)%Z ->
  exists m e,
    Prim2SF (Number_of_Z l / Number_of_Z t * 5 * 10)%float =
      S754_finite false (Z.to_pos m) e /\
    normal m e /\ (e < 0)%Z /\ value m e <= 50 /\
    rating_roundings (IZR l / IZR t) m e.
Proof.
  intros Hl Ht.
  destruct (Prim2SF_Number_of_Z l ltac:(lia)) as (ml & el & El & Nl & Vl & Hel).
  destruct (Prim2SF_Number_of_Z t ltac:(lia)) as (mt & et & Et & Nt & Vt & Het).
  destruct (SFdiv_correct ml el mt et Nl Nt ltac:(lia)) as (m1 & e1 & E1 & R1 & N1).
  rewrite Vl, Vt in R1.
  assert (Lt : 0 < IZR t) by (apply IZR_lt; lia).
  assert (Q1 : IZR l / IZR t <= 1).
  { replace 1 with (1 / 1) by lra. apply Rdiv_le_cross; try lra.
    rewrite Rmult_1_r, Rmult_1_l. apply IZR_le. lia. }
  assert (B1 : value m1 e1 <= 1).
  { rewrite <- value_one.
    apply (rounds_to_mono _ _ _ _ _ _ R1 (rounds_to_exact M52 (-52) ltac:(unfold M52; lia))).
    rewrite value_one. exact Q1. }
  assert (X1 : (e1 <= -52)%Z).
  { apply (normal_exponent m1 e1 0 N1). unfold bpow. simpl. exact B1. }
  destruct (SFmul_correct m1 e1 mant_5 (-50) N1 normal_five ltac:(destruct N1; lia))
    as (m2 & e2 & E2 & R2 & N2).
  rewrite value_five in R2.
  assert (B2 : value m2 e2 <= 5).
  { rewrite <- value_five.
    apply (rounds_to_mono _ _ _ _ _ _ R2 (rounds_to_exact mant_5 (-50) ltac:(unfold mant_5, M52; lia))).
    rewrite value_five. lra. }
  assert (X2 : (e2 <= -49)%Z).
  { apply (normal_exponent m2 e2 3 N2). unfold bpow. simpl. lra. }
  destruct (SFmul_correct m2 e2 mant_10 (-49) N2 normal_ten ltac:(destruct N2; lia))
    as (m3 & e3 & E3 & R3 & N3).
  rewrite value_ten in R3.
  assert (B3 : value m3 e3 <= 50).
  { rewrite <- value_fifty.
    apply (rounds_to_mono _ _ _ _ _ _ R3 (rounds_to_exact mant_50 (-47) ltac:(unfold mant_50, M52; lia))).
    rewrite value_fifty. lra. }
  assert (X3 : (e3 <= -46)%Z).
  { apply (normal_exponent m3 e3 6 N3). unfold bpow. simpl. lra. }
  exists m3, e3. split.
  - rewrite mul_spec, mul_spec, div_spec, El, Et, Prim2SF_five, Prim2SF_ten.
    unfold SF64mul, SF64div. rewrite E1, E2, E3. reflexivity.
  - split; [exact N3|]. split; [lia|]. split; [exact B3|].
    exists m1, e1, m2, e2. auto.
Qed.

(** *** [Math.round] and the tenths *)

Lemma Math_round_spec x m e :
  Prim2SF x = S754_finite false (Z.to_pos m) e -> (0 < m)%Z -> (e < 0)%Z ->
  Math_round x = Number_of_Z (round_half_up m e).
Proof.
  intros H Hm He. unfold Math_round. rewrite H.
  replace (0 <=? e)%Z with false by (symmetry; apply Z.leb_gt; lia).
  rewrite Z2Pos.id by assumption. fold (round_half_up m e).
  destruct (Z.eqb_spec (round_half_up m e) 0) as [->|]; reflexivity.
Qed.

Lemma bpow_m1 : bpow (-1) = /2.
Proof. unfold bpow. simpl. now rewrite Rmult_1_r. Qed.

Lemma round_half_up_floor m e :
  (e < 0)%Z ->
  IZR (round_half_up m e) <= value m e + /2 < IZR (round_half_up m e) + 1.
Proof.
  intros He. unfold round_half_up.
  set (a := (m + 2 ^ (- e - 1))%Z). set (b := (2 ^ (- e))%Z).
  assert (Hb : (0 < b)%Z) by (apply Z.pow_pos_nonneg; lia).
  pose proof (Z.div_mod a b ltac:(lia)) as DM.
  pose proof (Z.mod_pos_bound a b Hb) as MB.
  set (k := (a / b)%Z) in *.
  pose proof (bpow_pos e) as U.
  assert (Eb : IZR b * bpow e = 1).
  { unfold b. rewrite <- bpow_IZR, <- bpow_add by lia.
    replace (- e + e)%Z with 0%Z by lia. reflexivity. }
  assert (Ea : IZR a * bpow e = value m e + /2).
  { unfold a, value. rewrite plus_IZR, <- bpow_IZR by lia.
    rewrite Rmult_plus_distr_r, <- bpow_add.
    replace (- e - 1 + e)%Z with (-1)%Z by lia. rewrite bpow_m1. reflexivity. }
  assert (H1 : IZR b * IZR k <= IZR a).
  { rewrite <- mult_IZR. apply IZR_le. lia. }
  assert (H2 : IZR a < IZR b * (IZR k + 1)).
  { change 1 with (IZR 1). rewrite <- plus_IZR, <- mult_IZR. apply IZR_lt. lia. }
  rewrite <- Ea. split.
  - replace (IZR k) with (IZR b * IZR k * bpow e) by (rewrite Rmult_assoc, (Rmult_comm (IZR k)), <- Rmult_assoc, Eb; ring).
    apply Rmult_le_compat_r; lra.
  - replace (IZR k + 1) with (IZR b * (IZR k + 1) * bpow e)
      by (rewrite Rmult_assoc, (Rmult_comm (IZR k + 1)), <- Rmult_assoc, Eb; ring).
    apply Rmult_lt_compat_r; lra.
Qed.

Lemma round_half_up_mono m e m' e' :
  (e < 0)%Z -> (e' < 0)%Z -> value m e <= value m' e' ->
  (round_half_up m e <= round_half_up m' e')%Z.
Proof.
  intros He He' H.
  pose proof (round_half_up_floor m e He) as [A1 A2].
  pose proof (round_half_up_floor m' e' He') as [B1 B2].
  apply le_IZR. 
  destruct (Z_le_gt_dec (round_half_up m e) (round_half_up m' e')) as [L|G].
  - apply IZR_le. exact L.
  - exfalso. assert (G' : (round_half_up m' e' + 1 <= round_half_up m e)%Z) by lia.
    apply IZR_le in G'. rewrite plus_IZR in G'. lra.
Qed.

Lemma round_half_up_range m e :
  (e < 0)%Z -> 0 <= value m e <= 50 -> (0 <= round_half_up m e <= 50)%Z.
Proof.
  intros He [H0 H50].
  pose proof (round_half_up_floor m e He) as [A1 A2].
  split.
  - assert (0 < round_half_up m e + 1)%Z; [|lia].
    apply lt_IZR. rewrite plus_IZR. lra.
  - assert (round_half_up m e < 51)%Z; [|lia].
    apply lt_IZR. lra.
Qed.

(** *** The rating as a number of tenths *)

Lemma Rating_unfold l d :
  (l + d <> 0)%nat ->
  Rating l d =
  (Math_round (Number_of_nat l / Number_of_nat (l + d) * 5 * 10) / 10)%float.
Proof.
  intros H. unfold Rating, calculateRating.
  cbn [Composition.likes Composition.dislikes].
  apply Nat.eqb_neq in H. rewrite H. reflexivity.
Qed.

Lemma Rating_no_votes : Rating 0 0 = tenths 0.
Proof. reflexivity. Qed.

Lemma Rating_no_likes d : (0 < d)%nat -> safe_count d -> Rating 0 d = tenths 0.
Proof.
  intros Hd Hs. rewrite Rating_unfold by lia. cbn [Nat.add].
  destruct (Prim2SF_Number_of_Z (Z.of_nat d) ltac:(unfold safe_count in Hs; lia))
    as (m & e & E & _).
  assert (Z0 : (Number_of_nat 0 / Number_of_nat d)%float = zero).
  { rewrite <- (SF2Prim_Prim2SF (Number_of_nat 0 / Number_of_nat d)).
    rewrite div_spec. unfold Number_of_nat at 2. rewrite E. reflexivity. }
  rewrite Z0. reflexivity.
Qed.

Lemma value_pos m e : normal m e -> 0 < value m e.
Proof.
  intros [Hm _]. unfold value. pose proof (bpow_pos e).
  assert (0 < IZR m) by (apply IZR_lt; unfold M52 in Hm; lia). nra.
Qed.

Lemma Rating_some_likes l d :
  (0 < l)%nat -> safe_count (l + d) ->
  exists m e,
    Rating l d = tenths (round_half_up m e) /\
    normal m e /\ (e < 0)%Z /\ value m e <= 50 /\
    rating_roundings (IZR (Z.of_nat l) / IZR (Z.of_nat (l + d))) m e.
Proof.
  intros Hl Hs. rewrite Rating_unfold by lia.
  destruct (rating_pipeline (Z.of_nat l) (Z.of_nat (l + d)) ltac:(lia) Hs)
    as (m & e & E & N & He & B & C).
  exists m, e. split; [|auto].
  unfold Number_of_nat.
  rewrite (Math_round_spec _ m e E (normal_pos m e N) He). reflexivity.
Qed.

Lemma tenths_table :
  forallb (fun i => forallb (fun j => (j <? i)%Z || (tenths i <=? tenths j)%float)
                      tenth_values) tenth_values = true.
Proof. vm_compute. reflexivity. Qed.

Lemma In_tenth_values k : (0 <= k <= 50)%Z -> In k tenth_values.
Proof.
  intros H. unfold tenth_values. rewrite <- (Z2Nat.id k) by lia.
  apply in_map, in_seq. lia.
Qed.

Lemma tenths_mono k k' :
  (0 <= k)%Z -> (k <= k')%Z -> (k' <= 50)%Z -> (tenths k <=? tenths k')%float = true.
Proof.
  intros H0 H1 H2. pose proof tenths_table as T.
  rewrite forallb_forall in T. specialize (T k (In_tenth_values k ltac:(lia))).
  rewrite forallb_forall in T. specialize (T k' (In_tenth_values k' ltac:(lia))).
  apply orb_true_iff in T. destruct T as [T|T]; [|exact T].
  apply Z.ltb_lt in T. lia.
Qed.

(** The tenths of a rating: an integer between 0 and 50, growing with the
    exact ratio. *)
Lemma Rating_tenths_le l1 d1 l2 d2 :
  safe_count (l1 + d1) -> safe_count (l2 + d2) ->
  (l1 * (l2 + d2) <= l2 * (l1 + d1))%nat ->
  (l2 + d2 = 0 -> l1 = 0)%nat ->
  exists k1 k2,
    Rating l1 d1 = tenths k1 /\ Rating l2 d2 = tenths k2 /\
    (0 <= k1 <= k2)%Z /\ (k2 <= 50)%Z.
Proof.
  intros S1 S2 H H0.
  destruct (Nat.eq_dec l1 0) as [E1|E1].
  - subst l1. exists 0%Z.
    assert (R1 : Rating 0 d1 = tenths 0).
    { destruct (Nat.eq_dec d1 0) as [->|]; [exact Rating_no_votes|].
      apply Rating_no_likes; [lia | exact S1]. }
    destruct (Nat.eq_dec l2 0) as [E2|E2].
    + subst l2. exists 0%Z. split; [exact R1|]. split; [|lia].
      destruct (Nat.eq_dec d2 0) as [->|]; [exact Rating_no_votes|].
      apply Rating_no_likes; [lia | exact S2].
    + destruct (Rating_some_likes l2 d2 ltac:(lia) S2) as (m & e & R2 & N & He & B & C).
      exists (round_half_up m e). split; [exact R1|]. split; [exact R2|].
      pose proof (value_pos m e N).
      pose proof (round_half_up_range m e He ltac:(lra)). lia.
  - assert (E2 : l2 <> 0%nat) by nia.
    destruct (Rating_some_likes l1 d1 ltac:(lia) S1) as (m & e & R1 & N & He & B & C).
    destruct (Rating_some_likes l2 d2 ltac:(lia) S2) as (m' & e' & R2 & N' & He' & B' & C').
    exists (round_half_up m e), (round_half_up m' e').
    split; [exact R1|]. split; [exact R2|].
    pose proof (value_pos m e N). pose proof (value_pos m' e' N').
    pose proof (round_half_up_range m e He ltac:(lra)).
    pose proof (round_half_up_range m' e' He' ltac:(lra)).
    split; [split; [lia|] | lia].
    apply round_half_up_mono; try assumption.
    apply (rating_roundings_mono _ _ _ _ _ _ C C').
    apply Rdiv_le_cross.
    + apply IZR_lt. lia.
    + apply IZR_lt. lia.
    + rewrite <- !mult_IZR. apply IZR_le. rewrite <- !Nat2Z.inj_mul. apply Nat2Z.inj_le. lia.
Qed.

Lemma tenths_zero : tenths 0 = 0%float.
Proof. reflexivity. Qed.

Lemma tenths_fifty : tenths 50 = 5%float.
Proof. reflexivity. Qed.

(** *** Distance to the exact value *)

Lemma rounds_to_error x m e :
  rounds_to x m e -> value m e - bpow e / 2 <= x <= value m e + bpow e / 2.
Proof.
  intros (Hm & Hu & _ & H1 & H2). unfold value. pose proof (bpow_pos e) as U.
  split; [|lra].
  destruct (Z.eq_dec m M52) as [E|E].
  - specialize (H1 E). lra.
  - destruct (H2 E) as [H3 _]. lra.
Qed.

Lemma normal_exponent_lt m e k : normal m e -> value m e < bpow k -> (e <= k - 53)%Z.
Proof.
  intros [Hm _] H.
  assert (G : bpow (e + 52) < bpow k).
  { rewrite bpow_add, (bpow_IZR 52) by lia. unfold value in H.
    pose proof (bpow_pos e). assert (IZR M52 <= IZR m) by (apply IZR_le; lia).
    change (2 ^ 52)%Z with M52. nra. }
  destruct (Z_le_gt_dec (e + 52 + 1) k) as [|L]; [lia|]. exfalso.
  pose proof (bpow_le k (e + 52) ltac:(lia)). lra.
Qed.

Lemma rating_roundings_error q m e :
  rating_roundings q m e -> q <= 1 -> - rounding_error <= value m e - 50 * q <= rounding_error.
Proof.
  intros (m1 & e1 & m2 & e2 & N1 & N2 & R1 & R2 & R3) Hq.
  assert (B1 : value m1 e1 <= 1).
  { rewrite <- value_one.
    apply (rounds_to_mono _ _ _ _ _ _ R1 (rounds_to_exact M52 (-52) ltac:(unfold M52; lia))).
    rewrite value_one. exact Hq. }
  assert (B2 : value m2 e2 <= 5).
  { rewrite <- value_five.
    apply (rounds_to_mono _ _ _ _ _ _ R2 (rounds_to_exact mant_5 (-50) ltac:(unfold mant_5, M52; lia))).
    rewrite value_five. lra. }
  assert (B3 : value m e <= 50).
  { rewrite <- value_fifty.
    apply (rounds_to_mono _ _ _ _ _ _ R3 (rounds_to_exact mant_50 (-47) ltac:(unfold mant_50, M52; lia))).
    rewrite value_fifty. lra. }
  assert (N3 : (M52 <= m < 2 * M52)%Z) by apply R3.
  assert (X1 : (e1 <= -52)%Z).
  { apply (normal_exponent_lt m1 e1 1 N1). unfold bpow. simpl. lra. }
  assert (X2 : (e2 <= -50)%Z).
  { apply (normal_exponent_lt m2 e2 3 N2). unfold bpow. simpl. lra. }
  assert (X3 : (e <= -47)%Z).
  { assert (G : bpow (e + 52) < bpow 6).
    { rewrite bpow_add, (bpow_IZR 52) by lia. unfold value in B3.
      pose proof (bpow_pos e). assert (IZR M52 <= IZR m) by (apply IZR_le; lia).
      change (2 ^ 52)%Z with M52. unfold bpow at 2. simpl. nra. }
    destruct (Z_le_gt_dec (e + 52 + 1) 6) as [|L]; [lia|]. exfalso.
    pose proof (bpow_le 6 (e + 52) ltac:(lia)). lra. }
  pose proof (rounds_to_error _ _ _ R1) as [L1 U1].
  pose proof (rounds_to_error _ _ _ R2) as [L2 U2].
  pose proof (rounds_to_error _ _ _ R3) as [L3 U3].
  pose proof (bpow_le e1 (-52) X1) as P1.
  pose proof (bpow_le e2 (-50) X2) as P2.
  pose proof (bpow_le e (-47) X3) as P3.
  assert (Q52 : bpow (-52) = 2 * bpow (-53)) by (rewrite <- bpow_succ; reflexivity).
  assert (Q50 : bpow (-50) = 8 * bpow (-53)).
  { replace (-50)%Z with (-53 + 1 + 1 + 1)%Z by lia. rewrite !bpow_succ. ring. }
  assert (Q47 : bpow (-47) = 64 * bpow (-53)).
  { replace (-47)%Z with (-53 + 1 + 1 + 1 + 1 + 1 + 1)%Z by lia. rewrite !bpow_succ. ring. }
  unfold rounding_error. pose proof (bpow_pos (-53)). split; lra.
Qed.

Lemma nearest_tenths (k l t : Z) (v : R) :
  (0 < t <= 2 ^ 45)%Z -> (0 <= l)%Z ->
  - rounding_error <= v - 50 * (IZR l / IZR t) <= rounding_error ->
  IZR k <= v + /2 < IZR k + 1 ->
  (2 * k * t <= 100 * l + t <= 2 * (k + 1) * t)%Z.
Proof.
  intros Ht Hl He [K1 K2].
  assert (T0 : 0 < IZR t) by (apply IZR_lt; lia).
  assert (T1 : IZR t <= 35184372088832).
  { apply IZR_le. change 35184372088832%Z with (2 ^ 45)%Z. lia. }
  destruct He as [E1 E2].
  set (q := IZR l / IZR t) in *.
  assert (Q : q * IZR t = IZR l) by (unfold q; field; lra).
  assert (Heps : rounding_error * IZR t < /2).
  { unfold rounding_error. replace (bpow (-53)) with (/ 9007199254740992).
    2:{ unfold bpow. simpl. f_equal. lra. }
    lra. }
  split.
  - assert (G : (2 * k * t < 100 * l + t + 1)%Z); [|lia].
    apply lt_IZR. rewrite plus_IZR, plus_IZR, !mult_IZR. nra.
  - assert (G : (100 * l + t - 1 < 2 * (k + 1) * t)%Z); [|lia].
    apply lt_IZR. rewrite minus_IZR, plus_IZR, !mult_IZR, plus_IZR. nra.
Qed.

Lemma calculateRating_returns c :
  fst (calculateRating c) = Rating (Composition.likes c) (Composition.dislikes c).
Proof.
  unfold Rating, calculateRating. cbn [Composition.likes Composition.dislikes].
  destruct (Composition.likes c + Composition.dislikes c =? 0)%nat; reflexivity.
Qed.

End Binary64.

(** * Part IV: the claims *)

(** C1 fails on the retraction path: the row is deleted with
    [findByIdAndDelete], for which the schema registers no hook, so the
    target keeps the counts and the rating it had before.  Here user 2
    retracts the only like of composition 10. *)
Theorem vote_retraction_leaves_counters_stale :
  let w' := snd (vote (mkVoteRequest 2 10 like) sample) in
  action_of (fst (vote (mkVoteRequest 2 10 like) sample)) = Some "removed"%string /\
  likedislikes (db w') = [] /\
  count_votes 10 like (db w') = 0 /\
  log w' = [OpFind Compositions; OpFind LikeDislikes; OpDelete LikeDislikes 30] /\
  option_map Composition.likes
    (find (has_id CompositionModel 10) (compositions (db w'))) = Some 1 /\
  option_map Composition.rating
    (find (has_id CompositionModel 10) (compositions (db w'))) = Some 5%float /\
  Rating 0 0 = 0%float.
Proof.
  vm_compute. repeat split.
Qed.

(** C2 fails on the roll-ups: the handler purges the ledger rows and then
    deletes the target, but deletion runs no hook, so the song and the
    composer keep [compositionsCount] = 1 although no composition is left. *)
Theorem deleteComposition_leaves_rollups_stale :
  let w' := snd (deleteComposition 1 10 sample) in
  status_of (fst (deleteComposition 1 10 sample)) = Some 200 /\
  likedislikes (db w') = [] /\
  compositions (db w') = [] /\
  log w' = [OpFind Compositions; OpDeleteMany LikeDislikes; OpDelete Compositions 10] /\
  option_map Song.compositionsCount (find (has_id SongModel 20) (songs (db w'))) = Some 1 /\
  List.length (filter (fun c => Composition.song c =? 20) (compositions (db w'))) = 0 /\
  option_map User.compositionsCount (find (has_id UserModel 1) (users (db w'))) = Some 1 /\
  List.length (filter (fun c => Composition.composer c =? 1) (compositions (db w'))) = 0.
Proof.
  vm_compute. repeat split.
Qed.

(** C3: voting is a tri-state toggle.  With no entry for the voter and the
    target one is inserted and the action is "added"; an entry of the other
    polarity is updated in place and the action is "updated"; an entry of
    the same polarity is deleted and the action is "removed".  Hence the
    same polarity submitted twice from the empty state gives "added" then
    "removed" and leaves no vote of the voter on the target. *)
Theorem vote_tri_state_toggle (w : World) (req : VoteRequest) (c : Composition.doc) :
  ledger_ok (db w) ->
  valid_type (body_type req) = true ->
  find (has_id CompositionModel (params_id req)) (compositions (db w)) = Some c ->
  let u := req_user req in
  let t := params_id req in
  let p := body_type req in
  let l := likedislikes (db w) in
  let r := fst (vote req w) in
  let l' := likedislikes (db (snd (vote req w))) in
  match find (same_pair u t) l with
  | None =>
      action_of r = Some "added"%string /\
      l' = l ++ [LikeDislike.mk (next_id (db w)) u t p] /\
      let w1 := snd (vote req w) in
      action_of (fst (vote req w1)) = Some "removed"%string /\
      likedislikes (db (snd (vote req w1))) = l
  | Some v =>
      if String.eqb (LikeDislike.type v) p
      then action_of r = Some "removed"%string /\
           l' = remove_id LikeDislikeModel (LikeDislike._id v) l /\
           find (same_pair u t) l' = None
      else action_of r = Some "updated"%string /\
           l' = replace_doc LikeDislikeModel (LikeDislike.set_type p v) l /\
           find (same_pair u t) l' = Some (LikeDislike.set_type p v) /\
           List.length l' = List.length l
  end.
Proof.
  intros Hok Hv Hc u t p l r l'. subst u t p l r l'.
  pose proof Hok as (Hid & Hk & Hlt).
  destruct (find (same_pair _ _) _) as [v|] eqn:Hf.
  - destruct (String.eqb_spec (LikeDislike.type v) (body_type req)) as [Ht|Ht].
    + rewrite (@vote_removed_run req c v w Hv Hc Hf Ht). cbn [fst snd db].
      unfold with_ledger. cbn [with_docs LikeDislikeModel likedislikes].
      repeat split. now apply find_remove_id_none.
    + rewrite (@vote_updated_run req c v w Hok Hv Hc Hf Ht).
      cbn [fst snd db].
      destruct (recount_votes_frame (params_id req)
                  (with_ledger (replace_doc LikeDislikeModel
                     (LikeDislike.set_type (body_type req) v) (likedislikes (db w))) (db w)))
        as (-> & _).
      unfold with_ledger. cbn [with_docs LikeDislikeModel likedislikes].
      repeat split.
      * apply find_replace_found with (v := v); auto.
        apply find_some in Hf. exact (proj2 Hf).
      * apply length_replace_doc.
  - rewrite (@vote_added_run req c w Hok Hv Hc Hf). cbn [fst snd db].
    set (this := LikeDislike.mk (next_id (db w)) (req_user req) (params_id req) (body_type req)).
    set (d := with_ledger (likedislikes (db w) ++ [this]) (with_next_id (db w))).
    destruct (recount_votes_frame (params_id req) d) as (Hl & _).
    assert (Hc' : find (has_id CompositionModel (params_id req)) (compositions d) = Some c)
      by exact Hc.
    pose proof (recount_votes_find _ _ Hc') as Hc''.
    assert (Hf' : find (same_pair (req_user req) (params_id req))
                    (likedislikes (recount_votes (params_id req) d)) = Some this).
    { rewrite Hl. unfold d, with_ledger. cbn [with_docs LikeDislikeModel likedislikes].
      rewrite (find_app_none _ _ _ Hf). unfold same_pair, this. cbn.
      now rewrite !Nat.eqb_refl. }
    repeat split.
    + rewrite Hl. reflexivity.
    + erewrite vote_removed_run; cbn [db]; eauto.
    + erewrite vote_removed_run; cbn [db]; eauto. cbn [snd db].
      unfold with_ledger. cbn [with_docs LikeDislikeModel likedislikes].
      rewrite Hl. unfold d, with_ledger. cbn [with_docs LikeDislikeModel likedislikes].
      apply remove_id_fresh. exact Hlt.
Qed.

Lemma vote_tri_state_toggle_witness :
  action_of (fst (vote (mkVoteRequest 2 10 dislike) sample)) = Some "updated"%string /\
  likedislikes (db (snd (vote (mkVoteRequest 2 10 dislike) sample))) =
    [LikeDislike.mk 30 2 10 dislike].
Proof.
  pose proof (@vote_tri_state_toggle sample (mkVoteRequest 2 10 dislike)
                (Composition.mk 10 20 1 1 0 5%float 0 true)
                sample_ledger_ok eq_refl eq_refl) as H.
  vm_compute in H. vm_compute. destruct H as (H1 & H2 & _). split; assumption.
Defined.

(** C4: along every run of the handlers the ledger holds at most one live
    entry per pair of voter and target, and saving a second row for a pair
    that already has one fails at the storage layer with a duplicate-key
    error, the database left as it was. *)
Theorem one_live_vote_per_pair (rs : list Request) (w : World) :
  ledger_ok (db w) ->
  let w' := serve rs w in
  at_most_one_vote (likedislikes (db w')) /\
  forall this x,
    valid_type (LikeDislike.type this) = true ->
    In x (likedislikes (db w')) ->
    pair_key x = pair_key this ->
    fst (LikeDislike_save true this w') = Throw DuplicateKey /\
    db (snd (LikeDislike_save true this w')) = db w'.
Proof.
  intros Hok w'. split.
  - apply NoDup_keys_at_most_one. apply (serve_ledger_ok rs w Hok).
  - intros this x. apply LikeDislike_save_second_row.
Qed.

Lemma one_live_vote_per_pair_witness :
  let w' := serve [PostVote (mkVoteRequest 3 10 dislike);
                   PostVote (mkVoteRequest 2 10 dislike)] sample in
  at_most_one_vote (likedislikes (db w')) /\
  fst (LikeDislike_save true (LikeDislike.mk 200 3 10 like) w') = Throw DuplicateKey.
Proof.
  destruct (@one_live_vote_per_pair
              [PostVote (mkVoteRequest 3 10 dislike);
               PostVote (mkVoteRequest 2 10 dislike)] sample sample_ledger_ok)
    as [H1 H2].
  split; [exact H1|].
  apply (H2 (LikeDislike.mk 200 3 10 like) (LikeDislike.mk 100 3 10 dislike)).
  - reflexivity.
  - vm_compute. auto.
  - reflexivity.
Defined.

(** C5 as stated fails on exact ties: 47 likes and 53 dislikes give
    5 * 47 / 100 = 2.35, which round-half-up takes to 2.4, but in binary64
    the quotient 47 / 100 is rounded down, the product with 5 and 10 falls
    just below 23.5 and [Math.round] answers 23: the calculator returns
    2.3. *)
Lemma Rating_47_53_is_not_half_up :
  half_up_tenths 47 53 = 24%Z /\
  Rating 47 53 = tenths 23 /\
  Rating 47 53 <> Rating_half_up 47 53.
Proof.
  split; [reflexivity|]. split; [reflexivity|].
  intros E. apply (f_equal (fun x => PrimFloat.eqb x (tenths 24))) in E.
  vm_compute in E. discriminate.
Qed.

(** C5 as the calculator behaves: the value returned depends on the two
    counts only; it is 0 when there is no vote; otherwise, for up to 2^45
    votes, it is the tenth that round-half-up gives for 5 * l / (l + d),
    except that on an exact tie (50 * l / (l + d) half-way between two
    integers) it may be the tenth just below. *)
Theorem Rating_nearest_tenth (l d : nat) :
  (Z.of_nat (l + d) <= 2 ^ 45)%Z ->
  (forall c, Composition.likes c = l -> Composition.dislikes c = d ->
             fst (calculateRating c) = Rating l d) /\
  ((l + d = 0)%nat -> Rating l d = 0%float) /\
  ((l + d <> 0)%nat ->
     Rating l d = tenths (half_up_tenths l d) \/
     (is_tie l d = true /\ Rating l d = tenths (half_up_tenths l d - 1))).
Proof.
  intros Ht. split; [|split].
  - intros c <- <-. apply calculateRating_returns.
  - intros E. assert (l = 0%nat) by lia. assert (d = 0%nat) by lia. subst. reflexivity.
  - intros Hn.
    assert (Hs : safe_count (l + d)).
    { unfold safe_count. assert (2 ^ 45 < 2 ^ 53)%Z by reflexivity. lia. }
    destruct (Nat.eq_dec l 0) as [E|E].
    + subst l. left. rewrite Rating_no_likes by (assumption || lia).
      unfold half_up_tenths. cbn [Nat.add]. rewrite Z.mul_0_r, Z.add_0_l.
      rewrite Z.div_small by lia. reflexivity.
    + destruct (Rating_some_likes l d ltac:(lia) Hs) as (m & e & R & N & He & B & C).
      set (t := Z.of_nat (l + d)) in *.
      assert (Q1 : (IZR (Z.of_nat l) / IZR t <= 1)%R).
      { replace 1%R with (1 / 1)%R by lra. apply Rdiv_le_cross; try lra.
        - apply IZR_lt. unfold t. lia.
        - rewrite Rmult_1_r, Rmult_1_l. apply IZR_le. unfold t. lia. }
      pose proof (rating_roundings_error _ _ _ C Q1) as Err.
      pose proof (round_half_up_floor m e He) as Fl.
      pose proof (nearest_tenths (round_half_up m e) (Z.of_nat l) t (value m e)
                    ltac:(unfold t; lia) ltac:(lia) Err Fl) as [K1 K2].
      set (k := round_half_up m e) in *.
      unfold half_up_tenths, is_tie. fold t.
      destruct (Z.eq_dec (100 * Z.of_nat l + t) (2 * (k + 1) * t)) as [T|T].
      * right. rewrite T.
        replace (2 * (k + 1) * t)%Z with ((k + 1) * (2 * t))%Z by ring.
        rewrite Z.mod_mul, Z.div_mul by (unfold t; lia).
        split; [reflexivity|]. replace (k + 1 - 1)%Z with k by lia. exact R.
      * left. rewrite R. f_equal.
        apply Z.div_unique with (r := (100 * Z.of_nat l + t - 2 * k * t)%Z); lia.
Qed.

Lemma Rating_nearest_tenth_witness :
  Rating 1 3 = tenths 13 /\ Rating 47 53 = tenths 23.
Proof.
  split.
  - destruct (Rating_nearest_tenth 1 3 ltac:(vm_compute; discriminate)) as (_ & _ & H).
    destruct (H ltac:(discriminate)) as [E|[_ E]]; [exact E|].
    exfalso. apply (f_equal (fun x => PrimFloat.eqb x (tenths 13))) in E.
    vm_compute in E. discriminate.
  - destruct (Rating_nearest_tenth 47 53 ltac:(vm_compute; discriminate)) as (_ & _ & H).
    destruct (H ltac:(discriminate)) as [E|[_ E]]; [|exact E].
    exfalso. apply (f_equal (fun x => PrimFloat.eqb x (tenths 24))) in E.
    vm_compute in E. discriminate.
Defined.

(** C6: on counts that a JavaScript number holds exactly (below 2^53) the
    rating does not decrease when likes are added, does not increase when
    dislikes are added, and lies between 0 and 5, the comparisons being
    those of binary64. *)
Theorem Rating_monotone_and_bounded (l l' d d' : nat) :
  (l <= l')%nat -> (d <= d')%nat -> safe_count (l' + d') ->
  (Rating l d <=? Rating l' d)%float = true /\
  (Rating l d' <=? Rating l d)%float = true /\
  (0 <=? Rating l d)%float = true /\
  (Rating l d <=? 5)%float = true.
Proof.
  intros Hl Hd Hs. unfold safe_count in *.
  assert (S1 : safe_count (l + d)) by (unfold safe_count; lia).
  assert (S2 : safe_count (l' + d)) by (unfold safe_count; lia).
  assert (S3 : safe_count (l + d')) by (unfold safe_count; lia).
  split; [|split].
  - destruct (Rating_tenths_le l d l' d S1 S2 ltac:(nia) ltac:(lia))
      as (k1 & k2 & -> & -> & K1 & K2).
    apply tenths_mono; lia.
  - destruct (Rating_tenths_le l d' l d S3 S1 ltac:(nia) ltac:(lia))
      as (k1 & k2 & -> & -> & K1 & K2).
    apply tenths_mono; lia.
  - destruct (Rating_tenths_le l d l d S1 S1 ltac:(lia) ltac:(lia))
      as (k1 & k2 & E1 & _ & K1 & K2).
    rewrite E1, <- tenths_zero, <- tenths_fifty.
    split; apply tenths_mono; lia.
Qed.

Lemma Rating_monotone_and_bounded_witness :
  (Rating 1 1 <=? Rating 2 1)%float = true /\
  (Rating 1 3 <=? Rating 1 1)%float = true /\
  (0 <=? Rating 1 1)%float = true /\
  (Rating 1 1 <=? 5)%float = true.
Proof.
  apply (Rating_monotone_and_bounded 1 2 1 3); [lia | lia |].
  unfold safe_count. vm_compute. reflexivity.
Defined.

(** C7 as stated fails: a vote does trigger the roll-up recount.  After
    composition 11 is deleted the song and the composer still carry
    [compositionsCount] = 2; a like on composition 10 then rewrites both
    to 1. *)
Lemma vote_triggers_rollup_recount :
  let w1 := snd (deleteComposition 1 11 sample_two) in
  let w2 := snd (vote (mkVoteRequest 3 10 like) w1) in
  songs (db w1) = [Song.mk 20 2 2] /\
  songs (db w2) = [Song.mk 20 2 1] /\
  users (db w1) = [User.mk 1 2; User.mk 2 0; User.mk 3 0] /\
  users (db w2) = [User.mk 1 1; User.mk 2 0; User.mk 3 0] /\
  log w2 = log w1 ++
    [OpFind Compositions; OpFind LikeDislikes; OpInsert LikeDislikes 100;
     OpCount LikeDislikes; OpCount LikeDislikes; OpFind Compositions;
     OpUpdate Compositions 10;
     OpFind Users; OpCount Compositions; OpUpdate Users 1;
     OpFind Songs; OpCount Compositions; OpUpdate Songs 20].
Proof.
  vm_compute. repeat split.
Qed.

(** C7 as the hooks behave: a vote that is added or changed recomputes the
    target's likes, dislikes and rating from the ledger, and, because this
    is done with a save of the target, the save hook also recounts the
    [compositionsCount] of the composer and of the owning song from the
    compositions stored.  After the vote both counters are exact, and each
    of them is written exactly when the value stored before was not. *)
Theorem vote_save_recounts_target_and_rollups
  (w : World) (req : VoteRequest) (c : Composition.doc) :
  ledger_ok (db w) ->
  valid_type (body_type req) = true ->
  find (has_id CompositionModel (params_id req)) (compositions (db w)) = Some c ->
  option_map LikeDislike.type
    (find (same_pair (req_user req) (params_id req)) (likedislikes (db w)))
    <> Some (body_type req) ->
  let w' := snd (vote req w) in
  let t := params_id req in
  exists c' ops,
    log w' = log w ++ ops /\
    find (has_id CompositionModel t) (compositions (db w')) = Some c' /\
    Composition.likes c' = count_votes t like (db w') /\
    Composition.dislikes c' = count_votes t dislike (db w') /\
    Composition.rating c' = Rating (Composition.likes c') (Composition.dislikes c') /\
    (forall s, find (has_id SongModel (Composition.song c)) (songs (db w)) = Some s ->
       let n := List.length (filter (fun x => Composition.song x =? Composition.song c)
                               (compositions (db w'))) in
       option_map Song.compositionsCount
         (find (has_id SongModel (Composition.song c)) (songs (db w'))) = Some n /\
       (In (OpUpdate Songs (Composition.song c)) ops <-> Song.compositionsCount s <> n)) /\
    (forall u, find (has_id UserModel (Composition.composer c)) (users (db w)) = Some u ->
       let n := List.length (filter (fun x => Composition.composer x =? Composition.composer c)
                               (compositions (db w'))) in
       option_map User.compositionsCount
         (find (has_id UserModel (Composition.composer c)) (users (db w'))) = Some n /\
       (In (OpUpdate Users (Composition.composer c)) ops <-> User.compositionsCount u <> n)).
Proof.
  intros Hok Hv Hc Hn w' t. subst w' t.
  destruct (@vote_saved_run req c w Hok Hv Hc Hn)
    as (this & d & ops & -> & Hin & Ht & Hcomp & Ec & Es & Eu & i & Hops).
  cbn [db log].
  rewrite <- Ec in Hc.
  destruct (recount_votes_frame (params_id req) d) as (El & _).
  destruct (recounted_frame d c) as (Ri & Rs & Ru & Rl & Rd).
  pose proof Hc as Hi. apply find_has_id in Hi. cbn in Hi.
  destruct (@recount_votes_rollups (params_id req) d c Hc) as (Hsong & Huser).
  pose proof (recount_votes_compositions _ _ Hc) as Hcs.
  set (d1 := with_docs CompositionModel
               (replace_doc CompositionModel (recounted d c) (compositions d)) d) in *.
  assert (Hlog : forall o,
            (exists j, o = OpUpdate Songs j \/ o = OpUpdate Users j) ->
            In o (ops ++ recount_votes_log (params_id req) d) <->
            In o (rollup_log (recounted d c) d1)).
  { intros o [j Ho]. unfold recount_votes_log. rewrite Hc. fold d1.
    rewrite !in_app_iff. cbn [In]. unfold save_op.
    assert (Hno : ~ In o ops).
    { destruct Hops as [-> | ->]; cbn; destruct Ho as [-> | ->]; intuition discriminate. }
    destruct (Composition.modified c (recounted d c)); cbn [coll CompositionModel];
      destruct Ho as [-> | ->]; intuition discriminate. }
  exists (recounted d c), (ops ++ recount_votes_log (params_id req) d).
  split; [reflexivity|].
  split; [apply recount_votes_find, Hc|].
  split; [rewrite Rl, Hi; symmetry; now apply count_votes_ledger|].
  split; [rewrite Rd, Hi; symmetry; now apply count_votes_ledger|].
  split.
  { unfold recounted at 1. rewrite calculateRating_rating.
    - cbn [Composition.likes Composition.dislikes Composition.set_likes
           Composition.set_dislikes]. now rewrite Rl, Rd.
    - cbn [Composition.likes Composition.dislikes Composition.set_likes
           Composition.set_dislikes]. rewrite Hi, <- Hcomp.
      apply count_votes_positive; [assumption | now rewrite Ht]. }
  split.
  - intros s Hs. rewrite <- Es in Hs. rewrite (Hsong _ Hs).
    split; [reflexivity|].
    rewrite Hlog by eauto. rewrite Hcs, <- Rs.
    apply (@In_rollup_log_song (recounted d c) d1 s). now rewrite Rs.
  - intros u Hu. rewrite <- Eu in Hu. rewrite (Huser _ Hu).
    split; [reflexivity|].
    rewrite Hlog by eauto. rewrite Hcs, <- Ru.
    apply (@In_rollup_log_user (recounted d c) d1 u). now rewrite Ru.
Qed.

Lemma vote_save_recounts_target_and_rollups_witness :
  let w1 := snd (deleteComposition 1 11 sample_two) in
  let w2 := snd (vote (mkVoteRequest 3 10 like) w1) in
  exists c' ops,
    log w2 = log w1 ++ ops /\
    find (has_id CompositionModel 10) (compositions (db w2)) = Some c' /\
    Composition.likes c' = 1 /\ Composition.dislikes c' = 0 /\
    Composition.rating c' = Rating 1 0 /\
    option_map Song.compositionsCount (find (has_id SongModel 20) (songs (db w2))) = Some 1 /\
    In (OpUpdate Songs 20) ops.
Proof.
  cbn zeta.
  destruct (@vote_save_recounts_target_and_rollups
              (snd (deleteComposition 1 11 sample_two)) (mkVoteRequest 3 10 like)
              (Composition.mk 10 20 1 0 0 0%float 0 true))
    as (c' & ops & H0 & H1 & H2 & H3 & H4 & H5 & _).
  - vm_compute. repeat constructor.
  - reflexivity.
  - reflexivity.
  - cbn. discriminate.
  - destruct (H5 (Song.mk 20 2 2) eq_refl) as [H6 H7].
    exists c', ops. split; [exact H0|]. split; [exact H1|].
    split; [rewrite H2; reflexivity|]. split; [rewrite H3; reflexivity|].
    split; [rewrite H4, H2, H3; reflexivity|]. split; [exact H6|].
    apply H7. vm_compute. discriminate.
Defined.

(** C8 as stated fails on the removal path: the answer to a retraction
    carries no "type" field, it is not "type": null. *)
Lemma vote_removed_has_no_type_field :
  exists resp,
    fst (vote (mkVoteRequest 2 10 like) sample) = Ok resp /\
    status resp = 200 /\
    field "action" (body resp) = Some (JString "removed") /\
    field "type" (body resp) = None /\
    field "type" (body resp) <> Some JNull.
Proof.
  eexists. repeat split; try reflexivity. discriminate.
Qed.

(** C8 as the handler behaves: a successful vote answers with an "action"
    of "added", "updated" or "removed"; when a vote is added or updated the
    "type" field is the polarity now stored for the voter, and when the
    vote is removed the answer has no "type" field and no vote is stored. *)
Theorem vote_response_shape (w : World) (req : VoteRequest) (resp : Response) :
  ledger_ok (db w) ->
  fst (vote req w) = Ok resp ->
  status resp = 200 ->
  let stored := find (same_pair (req_user req) (params_id req))
                  (likedislikes (db (snd (vote req w)))) in
  let p := body_type req in
  (field "action" (body resp) = Some (JString "added") /\
   field "type" (body resp) = Some (JString p) /\
   option_map LikeDislike.type stored = Some p /\ valid_type p = true) \/
  (field "action" (body resp) = Some (JString "updated") /\
   field "type" (body resp) = Some (JString p) /\
   option_map LikeDislike.type stored = Some p /\ valid_type p = true) \/
  (field "action" (body resp) = Some (JString "removed") /\
   field "type" (body resp) = None /\
   stored = None).
Proof.
  intros Hok Hr Hs stored p. subst stored p.
  destruct (valid_type (body_type req)) eqn:Hv.
  2:{ rewrite (vote_invalid_run _ _ Hv) in Hr. injection Hr as <-. discriminate. }
  destruct (find (has_id CompositionModel (params_id req)) (compositions (db w)))
    as [c|] eqn:Hc.
  2:{ rewrite (vote_not_found_run _ _ Hv Hc) in Hr. injection Hr as <-. discriminate. }
  pose proof Hok as (Hid & Hk & Hlt).
  destruct (find (same_pair (req_user req) (params_id req)) (likedislikes (db w)))
    as [v|] eqn:Hf.
  - destruct (String.eqb_spec (LikeDislike.type v) (body_type req)) as [Ht|Ht].
    + right; right.
      rewrite (@vote_removed_run req c v w Hv Hc Hf Ht) in Hr |- *.
      injection Hr as <-. cbn [snd db]. unfold with_ledger.
      cbn [with_docs LikeDislikeModel likedislikes].
      repeat split. now apply find_remove_id_none.
    + right; left.
      rewrite (@vote_updated_run req c v w Hok Hv Hc Hf Ht) in Hr |- *.
      injection Hr as <-. cbn [snd db].
      destruct (recount_votes_frame (params_id req)
                  (with_ledger (replace_doc LikeDislikeModel
                     (LikeDislike.set_type (body_type req) v) (likedislikes (db w))) (db w)))
        as (-> & _).
      unfold with_ledger. cbn [with_docs LikeDislikeModel likedislikes].
      rewrite (@find_replace_found _ LikeDislikeModel _
                 (LikeDislike.set_type (body_type req) v) v); auto.
      apply find_some in Hf. exact (proj2 Hf).
  - left.
    rewrite (@vote_added_run req c w Hok Hv Hc Hf) in Hr |- *. injection Hr as <-.
    cbn [snd db].
    match goal with
    | |- context [recount_votes ?i ?d] =>
        destruct (recount_votes_frame i d) as (-> & _)
    end.
    unfold with_ledger. cbn [with_docs LikeDislikeModel likedislikes].
    rewrite (find_app_none _ _ _ Hf).
    unfold same_pair. cbn. rewrite !Nat.eqb_refl. auto.
Qed.

Lemma vote_response_shape_witness :
  field "action" (body (added_response like)) = Some (JString "added") /\
  field "type" (body (added_response like)) = Some (JString like).
Proof.
  destruct (@vote_response_shape sample (mkVoteRequest 3 10 like) (added_response like)
              sample_ledger_ok eq_refl eq_refl)
    as [(H1 & H2 & _)|[(H1 & _)|(H1 & _)]]; try discriminate H1.
  split; assumption.
Defined.

(** C9: a vote whose polarity is neither like nor dislike is rejected with
    the validation error before any storage call is made, and a vote on a
    target that does not exist is rejected with the not-found error after
    the single lookup; in both cases the database is left as it was. *)
Theorem vote_rejection_has_no_effect (w : World) (req : VoteRequest) :
  valid_type (body_type req) = false \/
  find (has_id CompositionModel (params_id req)) (compositions (db w)) = None ->
  fst (vote req w) =
    Ok (if valid_type (body_type req)
        then mkResponse 404 (message "Composition not found")
        else validation_failed ["Vote type must be either like or dislike"%string]) /\
  db (snd (vote req w)) = db w /\
  log (snd (vote req w)) =
    log w ++ (if valid_type (body_type req) then [OpFind Compositions] else []).
Proof.
  intros H. destruct (valid_type (body_type req)) eqn:Hv.
  - destruct H as [H|H]; [discriminate|].
    rewrite (vote_not_found_run _ _ Hv H). auto.
  - rewrite (vote_invalid_run _ _ Hv). cbn. rewrite app_nil_r. auto.
Qed.

Lemma vote_rejection_has_no_effect_witness :
  fst (vote (mkVoteRequest 3 10 "love") sample) =
    Ok (validation_failed ["Vote type must be either like or dislike"%string]) /\
  snd (vote (mkVoteRequest 3 10 "love") sample) = sample /\
  fst (vote (mkVoteRequest 3 11 like) sample) =
    Ok (mkResponse 404 (message "Composition not found")) /\
  db (snd (vote (mkVoteRequest 3 11 like) sample)) = sample_db.
Proof.
  destruct (@vote_rejection_has_no_effect sample (mkVoteRequest 3 10 "love")
              (or_introl eq_refl)) as (H1 & H2 & H3).
  destruct (@vote_rejection_has_no_effect sample (mkVoteRequest 3 11 like)
              (or_intror eq_refl)) as (G1 & G2 & G3).
  repeat split; assumption.
Defined.

(** C10: deleting a song deletes the song and, in one [deleteMany], every
    composition that references it, and leaves the whole vote ledger in
    place: a vote on a deleted composition survives and now references a
    target that no longer exists. *)
Theorem deleteSong_orphans_votes (user id : ObjectId) (s : Song.doc) (w : World) :
  collections_ok (db w) ->
  find (has_id SongModel id) (songs (db w)) = Some s ->
  Song.addedBy s = user ->
  let w' := snd (deleteSong user id w) in
  log w' = log w ++ [OpFind Songs; OpDeleteMany Compositions; OpDelete Songs id] /\
  find (has_id SongModel id) (songs (db w')) = None /\
  compositions (db w') =
    filter (fun c => negb (Composition.song c =? id)) (compositions (db w)) /\
  likedislikes (db w') = likedislikes (db w) /\
  forall v c,
    In v (likedislikes (db w)) ->
    In c (compositions (db w)) ->
    Composition.song c = id ->
    LikeDislike.composition v = Composition._id c ->
    In v (likedislikes (db w')) /\
    find (has_id CompositionModel (LikeDislike.composition v)) (compositions (db w')) = None.
Proof.
  intros (Hc & Hs & _) Hf Hu w'. subst w'.
  rewrite (@deleteSong_run user id s w Hf Hu). cbn [snd db log songs compositions likedislikes].
  repeat split; auto.
  - now apply find_remove_id_gone.
  - match goal with
    | |- find ?f ?l = None => destruct (find f l) as [x|] eqn:E; [|reflexivity]
    end.
    exfalso.
    pose proof E as Hi. apply find_has_id in Hi. cbn in Hi.
    apply find_In, filter_In in E. destruct E as [Hx Hn].
    assert (x = c) by (apply (NoDup_map_inj Composition._id (compositions (db w)));
                       auto; congruence).
    subst x. rewrite H1, Nat.eqb_refl in Hn. discriminate.
Qed.

Lemma deleteSong_orphans_votes_witness :
  let w' := snd (deleteSong 2 20 sample) in
  likedislikes (db w') = [LikeDislike.mk 30 2 10 like] /\
  find (has_id CompositionModel 10) (compositions (db w')) = None /\
  songs (db w') = [].
Proof.
  destruct (@deleteSong_orphans_votes 2 20 (Song.mk 20 2 1) sample
              sample_collections_ok eq_refl eq_refl) as (_ & _ & _ & H4 & H5).
  destruct (H5 (LikeDislike.mk 30 2 10 like) (Composition.mk 10 20 1 1 0 5%float 0 true))
    as [_ H6]; cbn; auto.
Defined.

(** * Part V: the hooks and handlers beside the vote path *)

(** ** Storage calls, run *)

Lemma deleteOne_run {A} (M : Model A) f w :
  deleteOne M f w =
  match find f (docs M (db w)) with
  | Some x =>
      (Ok tt, mkWorld (with_docs M (remove_first f (docs M (db w))) (db w))
                (log w ++ [OpDelete (coll M) (id_of M x)]))
  | None => (Ok tt, mkWorld (db w) (log w ++ [OpFind (coll M)]))
  end.
Proof.
  unfold deleteOne. rewrite bind_run. cbn.
  destruct (find f (docs M (db w))); reflexivity.
Qed.

(** ** What a recount stores *)

Lemma calculateRating_rest c :
  let c' := snd (calculateRating c) in
  Composition.views c' = Composition.views c /\
  Composition.isPublic c' = Composition.isPublic c /\
  Composition.rating c' =
    if Composition.likes c + Composition.dislikes c =? 0
    then Composition.rating c
    else Rating (Composition.likes c) (Composition.dislikes c).
Proof.
  unfold Rating, calculateRating. cbn [Composition.likes Composition.dislikes].
  destruct (Composition.likes c + Composition.dislikes c =? 0); cbn; auto.
Qed.

Lemma recounted_rest d c :
  Composition.views (recounted d c) = Composition.views c /\
  Composition.isPublic (recounted d c) = Composition.isPublic c /\
  Composition.rating (recounted d c) =
    if count_votes (Composition._id c) like d +
       count_votes (Composition._id c) dislike d =? 0
    then Composition.rating c
    else Rating (count_votes (Composition._id c) like d)
                (count_votes (Composition._id c) dislike d).
Proof.
  unfold recounted.
  destruct (calculateRating_rest
              (Composition.set_dislikes (count_votes (Composition._id c) dislike d)
                 (Composition.set_likes (count_votes (Composition._id c) like d) c)))
    as (H1 & H2 & H3).
  rewrite H1, H2, H3. cbn. auto.
Qed.


(** What [updateCompositionCounts] leaves in the target. *)
Lemma recount_votes_target cid d c :
  find (has_id CompositionModel cid) (compositions d) = Some c ->
  let d' := recount_votes cid d in
  exists c',
    find (has_id CompositionModel cid) (compositions d') = Some c' /\
    Composition.likes c' = count_votes cid like d' /\
    Composition.dislikes c' = count_votes cid dislike d' /\
    Composition.rating c' =
      (if Composition.likes c' + Composition.dislikes c' =? 0
       then Composition.rating c
       else Rating (Composition.likes c') (Composition.dislikes c')) /\
    Composition.views c' = Composition.views c /\
    Composition.isPublic c' = Composition.isPublic c /\
    Composition.song c' = Composition.song c /\
    Composition.composer c' = Composition.composer c.
Proof.
  intros Hc d'. subst d'. exists (recounted d c).
  destruct (recounted_frame d c) as (Hi & Hs & Hu & Hl & Hd).
  destruct (recounted_rest d c) as (Hv & Hp & Hr).
  destruct (recount_votes_frame cid d) as (El & _).
  pose proof Hc as Hid. apply find_has_id in Hid. cbn in Hid.
  rewrite (count_votes_ledger cid like _ _ El), (count_votes_ledger cid dislike _ _ El).
  rewrite Hl, Hd, Hr, Hid. repeat split; auto.
  now apply recount_votes_find.
Qed.

(** ** The recount hooks *)

(** X1: [updateCompositionCounts] never writes the ledger.  When the target
    is stored it leaves the target with the ledger's counts, and with the
    rating of these counts when there is a vote; with no vote left the
    rating is not reset: it stays what it was.  When the target is not
    stored it only reads. *)
Theorem updateCompositionCounts_recounts (cid : ObjectId) (w : World) :
  let w' := snd (updateCompositionCounts cid w) in
  fst (updateCompositionCounts cid w) = Ok tt /\
  likedislikes (db w') = likedislikes (db w) /\
  match find (has_id CompositionModel cid) (compositions (db w)) with
  | Some c =>
      exists c',
        find (has_id CompositionModel cid) (compositions (db w')) = Some c' /\
        Composition.likes c' = count_votes cid like (db w') /\
        Composition.dislikes c' = count_votes cid dislike (db w') /\
        Composition.rating c' =
          (if Composition.likes c' + Composition.dislikes c' =? 0
           then Composition.rating c
           else Rating (Composition.likes c') (Composition.dislikes c')) /\
        Composition.views c' = Composition.views c /\
        Composition.isPublic c' = Composition.isPublic c
  | None =>
      db w' = db w /\
      log w' = log w ++ [OpCount LikeDislikes; OpCount LikeDislikes; OpFind Compositions]
  end.
Proof.
  intros w'. subst w'. rewrite updateCompositionCounts_run. cbn [fst snd db log].
  destruct (recount_votes_frame cid (db w)) as (El & _).
  split; [reflexivity|]. split; [exact El|].
  destruct (find (has_id CompositionModel cid) (compositions (db w))) as [c|] eqn:Hc.
  - destruct (recount_votes_target cid (db w) c Hc)
      as (c' & H1 & H2 & H3 & H4 & H5 & H6 & _).
    exists c'. repeat split; assumption.
  - unfold recount_votes, recount_votes_log. rewrite Hc.
    now rewrite app_nil_r.
Qed.

Lemma find_remove_first_none {A} (f : A -> bool) l v :
  NoDup l -> find f l = Some v ->
  (forall x, In x l -> f x = true -> x = v) ->
  find f (remove_first f l) = None.
Proof.
  induction l as [|a l IH]; cbn [find remove_first]; [discriminate|].
  intros Hn Hf Hu. inversion Hn as [|? ? Ha Hl]; subst.
  destruct (f a) eqn:Ea.
  - injection Hf as ->.
    destruct (find f l) as [x|] eqn:E; [|reflexivity]. exfalso.
    apply find_some in E. destruct E as [Hx Ex].
    apply Ha. rewrite <- (Hu x) by (cbn; auto). exact Hx.
  - cbn [find]. rewrite Ea. apply IH; auto.
    intros x Hx. apply Hu. now right.
Qed.

Lemma NoDup_of_map {A B} (f : A -> B) l : NoDup (map f l) -> NoDup l.
Proof.
  induction l as [|a l IH]; cbn; intros H; constructor;
    inversion H as [|? ? Ha Hl]; subst; auto.
  intros Hin. apply Ha. now apply in_map.
Qed.

Lemma remove_first_found {A} (M : Model A) (f : A -> bool) l v :
  NoDup (map (id_of M) l) -> find f l = Some v ->
  remove_first f l = remove_id M (id_of M v) l.
Proof.
  induction l as [|a l IH]; cbn [find remove_first remove_id map]; [discriminate|].
  intros Hn Hf. inversion Hn as [|? ? Ha Hl]; subst. rewrite has_id_eq.
  destruct (f a) eqn:Ea.
  - injection Hf as ->. now rewrite Nat.eqb_refl.
  - destruct (Nat.eqb_spec (id_of M a) (id_of M v)) as [E|E].
    + exfalso. apply Ha. rewrite E. apply in_map. eapply find_In; eauto.
    + now rewrite IH.
Qed.

(** X3: [LikeDislike.deleteOne(filter)] deletes the row, but its query hook
    runs after the deletion and looks the filter up again: when the filter
    accepts no other row it finds nothing, and no target is recounted. *)
Theorem LikeDislike_deleteOne_skips_recount
  (filter : LikeDislike.doc -> bool) (v : LikeDislike.doc) (w : World) :
  NoDup (map LikeDislike._id (likedislikes (db w))) ->
  find filter (likedislikes (db w)) = Some v ->
  (forall x, In x (likedislikes (db w)) -> filter x = true -> x = v) ->
  let w' := snd (LikeDislike_deleteOne filter w) in
  fst (LikeDislike_deleteOne filter w) = Ok tt /\
  likedislikes (db w') =
    remove_id LikeDislikeModel (LikeDislike._id v) (likedislikes (db w)) /\
  ~ In v (likedislikes (db w')) /\
  compositions (db w') = compositions (db w) /\
  songs (db w') = songs (db w) /\
  users (db w') = users (db w) /\
  log w' = log w ++ [OpDelete LikeDislikes (LikeDislike._id v); OpFind LikeDislikes].
Proof.
  intros Hid Hf Hu w'. subst w'. unfold LikeDislike_deleteOne.
  rewrite bind_run, deleteOne_run. mcbn. rewrite Hf.
  rewrite bind_run, findOne_run. mcbn.
  rewrite (find_remove_first_none filter _ v (NoDup_of_map _ _ Hid) Hf Hu).
  cbn [fst snd db log likedislikes compositions songs users ret].
  rewrite (remove_first_found LikeDislikeModel filter _ v Hid Hf), <- app_assoc.
  repeat split.
  intros Hin. apply (In_remove_id LikeDislikeModel) in Hin; [|exact Hid].
  destruct Hin as [_ Hn]. now apply Hn.
Qed.

Lemma LikeDislike_deleteOne_skips_recount_witness :
  let w' := snd (LikeDislike_deleteOne (same_pair 2 10) sample) in
  likedislikes (db w') = [] /\
  compositions (db w') = [Composition.mk 10 20 1 1 0 5%float 0 true].
Proof.
  destruct (LikeDislike_deleteOne_skips_recount (same_pair 2 10)
              (LikeDislike.mk 30 2 10 like) sample) as (_ & H1 & _ & H2 & _).
  - cbn. repeat constructor. cbn. tauto.
  - reflexivity.
  - cbn. intros x [<-|[]] _. reflexivity.
  - split; [exact H1 | exact H2].
Defined.

(** ** Saving and creating a composition *)

Lemma rollup_exact c d : rollups_exact c (rollup c d).
Proof.
  unfold rollups_exact, rollup, compositions_of_song, compositions_of_composer.
  set (d1 := recount_user (Composition.composer c) d).
  destruct (recount_song_frame (Composition.song c) d1) as (_ & C2 & U2 & _).
  destruct (recount_user_frame (Composition.composer c) d) as (_ & C1 & S1 & _).
  fold d1 in C1, S1. rewrite C2, U2. split.
  - intros s. unfold recount_song.
    destruct (find (has_id SongModel (Composition.song c)) (songs d1)) as [s0|] eqn:E.
    + cbn [songs with_docs SongModel].
      pose proof E as Hi. apply find_has_id in Hi. cbn in Hi.
      rewrite <- Hi at 1.
      rewrite (@find_replace_doc _ SongModel (Song.set_compositionsCount _ s0) s0)
        by (cbn; now rewrite Hi).
      intros [= <-]. reflexivity.
    + rewrite E. discriminate.
  - intros u. unfold d1 at 1. unfold recount_user.
    destruct (find (has_id UserModel (Composition.composer c)) (users d)) as [u0|] eqn:E.
    + cbn [users with_docs UserModel].
      pose proof E as Hi. apply find_has_id in Hi. cbn in Hi.
      rewrite <- Hi at 1.
      rewrite (@find_replace_doc _ UserModel (User.set_compositionsCount _ u0) u0)
        by (cbn; now rewrite Hi).
      intros [= <-]. cbn. now rewrite C1.
    + rewrite E. discriminate.
Qed.

Lemma Composition_save_run this old w :
  find (has_id CompositionModel (Composition._id this)) (compositions (db w)) = Some old ->
  Composition_save this w =
  let d := with_docs CompositionModel
             (replace_doc CompositionModel this (compositions (db w))) (db w) in
  (Ok tt, mkWorld (rollup this d)
            (log w ++ save_op CompositionModel Composition.modified old this
                   :: rollup_log this d)).
Proof.
  intros H. unfold Composition_save. rewrite bind_run.
  rewrite (@save_Composition_run this old) by exact H.
  rewrite Composition_post_save_run. cbn [db log]. cbn zeta.
  rewrite <- app_assoc. reflexivity.
Qed.



Lemma postComposition_run user body s w :
  compositions_issued (db w) ->
  find (has_id SongModel (body_song body)) (songs (db w)) = Some s ->
  let this := new_Composition (next_id (db w)) body user in
  rating_in_range (Composition.rating this) = true ->
  postComposition user body w =
  let d := with_docs CompositionModel (compositions (db w) ++ [this])
             (with_next_id (db w)) in
  (Ok (mkResponse 201
         [("message", JString "Composition created successfully");
          ("composition", JDoc Compositions (next_id (db w)))]%string),
   mkWorld (rollup this d)
     (log w ++ [OpFind Songs; OpInsert Compositions (next_id (db w))]
            ++ rollup_log this d
            ++ [OpFind Compositions; OpFind Users; OpFind Songs])).
Proof.
  intros Hi Hs this Hr. unfold postComposition, try_catch.
  rewrite bind_run, findById_run. mcbn. rewrite Hs.
  rewrite bind_run. unfold fresh_id at 1. mcbn. fold this. rewrite Hr.
  rewrite bind_run. unfold ret at 1. mcbn. rewrite bind_run.
  rewrite insertOne_run
    by (mcbn; cbn [Composition._id new_Composition this];
        now apply (fresh_id_unused CompositionModel)).
  mcbn. mrun'. cbn zeta. unfold with_next_id.
  cbn [Composition._id new_Composition this]. rewrite <- !app_assoc. reflexivity.
Qed.

Lemma postComposition_invalid_run user body s w :
  find (has_id SongModel (body_song body)) (songs (db w)) = Some s ->
  rating_in_range (Composition.rating (new_Composition (next_id (db w)) body user)) = false ->
  postComposition user body w =
  (Ok (mkResponse 500 (message "Server error while creating composition")),
   mkWorld (with_next_id (db w)) (log w ++ [OpFind Songs])).
Proof.
  intros Hs Hr. unfold postComposition, try_catch.
  rewrite bind_run, findById_run. mcbn. rewrite Hs.
  rewrite bind_run. unfold fresh_id at 1. mcbn. rewrite Hr.
  rewrite bind_run. unfold throw. reflexivity.
Qed.

(** The handler agrees with [createComposition] on a body that leaves the
    counters to their defaults. *)
Lemma postComposition_defaults user song isPublic w :
  postComposition user (mkCompositionBody song (Some isPublic) None None None None) w =
  createComposition user song isPublic w.
Proof.
  unfold postComposition, createComposition, Composition_create, try_catch.
  rewrite !bind_run, !findById_run. mcbn. cbn [body_song].
  destruct (find (has_id SongModel song) (songs (db w))); [|reflexivity].
  rewrite !bind_run. unfold fresh_id. mcbn.
  change (rating_in_range _) with true. cbn iota.
  rewrite !bind_run. unfold ret at 1. mcbn.
  unfold new_Composition, or_default. cbn [body_song body_isPublic body_likes
    body_dislikes body_rating body_views].
  rewrite !bind_run.
  destruct (insertOne CompositionModel _ _) as [[[]|e] w1]; [|reflexivity].
  rewrite !bind_run, !Composition_post_save_run. mcbn. reflexivity.
Qed.

Lemma filter_app_length {A} (f : A -> bool) l x :
  List.length (filter f (l ++ [x])) =
  List.length (filter f l) + (if f x then 1 else 0).
Proof.
  rewrite filter_app, length_app. cbn. now destruct (f x).
Qed.

(** X5: [POST /api/compositions], for a body whose content passes
    validation.  For a stored song and a rating in range it answers 201
    and stores, after the others, a composition whose likes, dislikes,
    rating and views are those the body gives, unchecked against the
    ledger (0 where the body gives none); it leaves the ledger alone and
    leaves the [compositionsCount] of the song and of the composer equal
    to the number of compositions stored for them.  A rating outside 0..5
    answers 500 and stores nothing; a song that is not stored answers 404
    after the one lookup. *)
Theorem postComposition_stores_body (user : ObjectId) (body : CompositionBody) (w : World) :
  compositions_issued (db w) ->
  let w' := snd (postComposition user body w) in
  let this := new_Composition (next_id (db w)) body user in
  match find (has_id SongModel (body_song body)) (songs (db w)) with
  | Some s =>
      if rating_in_range (Composition.rating this)
      then status_of (fst (postComposition user body w)) = Some 201 /\
           compositions (db w') = compositions (db w) ++ [this] /\
           likedislikes (db w') = likedislikes (db w) /\
           rollups_exact this (db w') /\
           compositions_of_song (body_song body) (db w') =
             compositions_of_song (body_song body) (db w) + 1 /\
           compositions_issued (db w')
      else status_of (fst (postComposition user body w)) = Some 500 /\
           compositions (db w') = compositions (db w) /\
           likedislikes (db w') = likedislikes (db w) /\
           songs (db w') = songs (db w) /\
           users (db w') = users (db w)
  | None =>
      fst (postComposition user body w) =
        Ok (mkResponse 404 (message "Song not found")) /\
      db w' = db w /\
      log w' = log w ++ [OpFind Songs]
  end.
Proof.
  intros Hi w' this. subst w'.
  destruct (find (has_id SongModel (body_song body)) (songs (db w))) as [s|] eqn:Hs.
  - destruct (rating_in_range (Composition.rating this)) eqn:Hr.
    + rewrite (postComposition_run user body s w Hi Hs Hr).
      cbn zeta. cbn [fst snd db status_of status]. fold this.
      set (d := with_docs CompositionModel _ (with_next_id (db w))).
      destruct (rollup_frame this d) as (El & Ec & En).
      split; [reflexivity|]. split; [now rewrite Ec|]. split; [now rewrite El|].
      split; [apply rollup_exact|]. split.
      * unfold compositions_of_song. rewrite Ec. unfold d.
        cbn [compositions with_docs CompositionModel with_next_id].
        rewrite filter_app_length. cbn [Composition.song this new_Composition].
        now rewrite Nat.eqb_refl.
      * unfold compositions_issued. rewrite Ec, En. unfold d.
        cbn [compositions with_docs CompositionModel with_next_id next_id].
        apply Forall_app. split.
        -- eapply Forall_impl; [|exact Hi]. cbn. intros; lia.
        -- repeat constructor.
    + rewrite (postComposition_invalid_run user body s w Hs Hr).
      cbn. repeat split.
  - unfold postComposition, try_catch.
    rewrite bind_run, findById_run. mcbn. rewrite Hs. cbn. auto.
Qed.

Lemma sample_compositions_issued : compositions_issued sample_db.
Proof. repeat constructor. Qed.

Lemma postComposition_stores_body_witness :
  let body := mkCompositionBody 20 None (Some 1000) None (Some 5%float) None in
  let w' := snd (postComposition 3 body sample) in
  compositions (db w') =
    [Composition.mk 10 20 1 1 0 5%float 0 true;
     Composition.mk 100 20 3 1000 0 5%float 0 true] /\
  likedislikes (db w') = [LikeDislike.mk 30 2 10 like] /\
  songs (db w') = [Song.mk 20 2 2].
Proof.
  pose proof (postComposition_stores_body 3
                (mkCompositionBody 20 None (Some 1000) None (Some 5%float) None)
                sample sample_compositions_issued) as H.
  cbn zeta in H.
  change (find (has_id SongModel _) (songs (db sample))) with (Some (Song.mk 20 2 1)) in H.
  change (rating_in_range _) with true in H.
  destruct H as (_ & H1 & H2 & _).
  split; [exact H1|]. split; [exact H2 | reflexivity].
Defined.

(** ** Reading a composition *)

Lemma add_view_id c : Composition._id (add_view c) = Composition._id c.
Proof. reflexivity. Qed.

Lemma getComposition_view_run user id c w :
  find (has_id CompositionModel id) (compositions (db w)) = Some c ->
  Composition.isPublic c = true \/
  (user = Some (Composition.composer c) /\
   find (has_id UserModel (Composition.composer c)) (users (db w)) <> None) ->
  getComposition user id w =
  let d := with_docs CompositionModel
             (replace_doc CompositionModel (add_view c) (compositions (db w))) (db w) in
  (Ok (json [("composition", JDoc Compositions id);
             ("userVote", userVote_of user id (db w))]%string),
   mkWorld (rollup (add_view c) d)
     (log w ++ [OpFind Compositions; OpFind Users; OpFind Songs;
                save_op CompositionModel Composition.modified c (add_view c)]
            ++ rollup_log (add_view c) d
            ++ match user with Some _ => [OpFind LikeDislikes] | None => [] end)).
Proof.
  intros Hc Hallowed. pose proof Hc as Hi. apply find_has_id in Hi. cbn in Hi.
  unfold getComposition, try_catch. mrun'. rewrite Hc. mrun'.
  assert (Hsave : Composition_save (add_view c)
            (mkWorld (db w) (((log w ++ [OpFind Compositions]) ++ [OpFind Users])
                             ++ [OpFind Songs])) = _)
    by (apply (Composition_save_run (add_view c) c); cbn [db]; rewrite add_view_id, Hi; exact Hc).
  cbn zeta in Hsave. cbn [db log] in Hsave.
  destruct (rollup_frame (add_view c)
              (with_docs CompositionModel
                 (replace_doc CompositionModel (add_view c) (compositions (db w))) (db w)))
    as (El & _).
  assert (Hallow :
    (if Composition.isPublic c then ret true
     else match user with
          | Some u =>
              match find (has_id UserModel (Composition.composer c)) (users (db w)) with
              | Some p => ret (User._id p =? u)
              | None => throw TypeError
              end
          | None => ret false
          end) = ret true).
  { destruct Hallowed as [Hp | [Hu He]]; [now rewrite Hp|].
    destruct (Composition.isPublic c); [reflexivity|]. subst user.
    destruct (find (has_id UserModel (Composition.composer c)) (users (db w)))
      as [p|] eqn:Ep; [|congruence].
    apply find_has_id in Ep. cbn in Ep. now rewrite Ep, Nat.eqb_refl. }
  unfold ret, throw in Hallow. rewrite Hallow. cbn beta iota. cbn [negb].
  rewrite bind_run, Hsave. rewrite Hi.
  destruct user as [u|]; mrun'.
  - rewrite El. cbn [likedislikes with_docs CompositionModel userVote_of].
    rewrite <- !app_assoc. reflexivity.
  - rewrite <- !app_assoc, app_nil_r. reflexivity.
Qed.

Lemma getComposition_missing_run user id w :
  find (has_id CompositionModel id) (compositions (db w)) = None ->
  getComposition user id w =
  (Ok (mkResponse 404 (message "Composition not found")),
   mkWorld (db w) (log w ++ [OpFind Compositions])).
Proof.
  intros Hc. unfold getComposition, try_catch. mrun'. rewrite Hc. reflexivity.
Qed.

Lemma getComposition_private_run user id c w :
  find (has_id CompositionModel id) (compositions (db w)) = Some c ->
  Composition.isPublic c = false ->
  user <> Some (Composition.composer c) \/
  find (has_id UserModel (Composition.composer c)) (users (db w)) = None ->
  exists resp,
    fst (getComposition user id w) = Ok resp /\
    (status resp = 403 \/ status resp = 500) /\
    db (snd (getComposition user id w)) = db w.
Proof.
  intros Hc Hp Hn. unfold getComposition, try_catch. mrun'. rewrite Hc. mrun'.
  rewrite Hp. destruct user as [u|].
  - destruct (find (has_id UserModel (Composition.composer c)) (users (db w)))
      as [p|] eqn:Ep.
    + destruct Hn as [Hn|Hn]; [|discriminate].
      apply find_has_id in Ep. cbn in Ep. rewrite Ep.
      destruct (Nat.eqb_spec (Composition.composer c) u) as [E|E]; [congruence|].
      cbn. eexists. split; [reflexivity|]. split; [now left | reflexivity].
    + cbn. eexists. split; [reflexivity|]. split; [now right | reflexivity].
  - cbn. eexists. split; [reflexivity|]. split; [now left | reflexivity].
Qed.

(** X6: [GET /api/compositions/:id] answers 200 only for a stored
    composition that is public or is asked for by its composer; every
    other answer (404, 403 or 500) leaves the database as it was, so no
    view is counted. *)
Theorem getComposition_access (user : option ObjectId) (id : ObjectId) (w : World) :
  exists resp,
    fst (getComposition user id w) = Ok resp /\
    (status resp = 200 ->
     exists c, find (has_id CompositionModel id) (compositions (db w)) = Some c /\
               (Composition.isPublic c = true \/ user = Some (Composition.composer c))) /\
    (status resp <> 200 -> db (snd (getComposition user id w)) = db w).
Proof.
  destruct (find (has_id CompositionModel id) (compositions (db w))) as [c|] eqn:Hc.
  2:{ rewrite (getComposition_missing_run user id w Hc). eexists.
      split; [reflexivity|]. cbn. split; [discriminate | reflexivity]. }
  assert (Hcases :
    (Composition.isPublic c = true \/
     (user = Some (Composition.composer c) /\
      find (has_id UserModel (Composition.composer c)) (users (db w)) <> None)) \/
    (Composition.isPublic c = false /\
     (user <> Some (Composition.composer c) \/
      find (has_id UserModel (Composition.composer c)) (users (db w)) = None))).
  { destruct (Composition.isPublic c); [left; now left|].
    destruct (find (has_id UserModel (Composition.composer c)) (users (db w))) as [p|];
      [|right; split; [reflexivity | now right]].
    destruct user as [u|]; [|right; split; [reflexivity | left; discriminate]].
    destruct (Nat.eq_dec u (Composition.composer c)) as [->|E].
    - left. right. split; [reflexivity | discriminate].
    - right. split; [reflexivity | left; congruence]. }
  destruct Hcases as [Ha | [Hp Hn]].
  - rewrite (getComposition_view_run user id c w Hc Ha). cbn zeta. cbn [fst snd].
    eexists. split; [reflexivity|]. cbn [status json]. split.
    + intros _. exists c. split; [reflexivity|]. tauto.
    + congruence.
  - destruct (getComposition_private_run user id c w Hc Hp Hn) as (resp & E & Hs & Hd).
    exists resp. split; [exact E|]. split.
    + intros H. destruct Hs as [Hs|Hs]; rewrite Hs in H; discriminate.
    + intros _. exact Hd.
Qed.

(** ** Deleting a composition or a song *)

(** X8: [DELETE /api/compositions/:id] answers 200 only to the composer of
    a stored composition; every other answer leaves the database as it
    was. *)
Theorem deleteComposition_access (user id : ObjectId) (w : World) :
  exists resp,
    fst (deleteComposition user id w) = Ok resp /\
    (status resp = 200 ->
     exists c, find (has_id CompositionModel id) (compositions (db w)) = Some c /\
               Composition.composer c = user) /\
    (status resp <> 200 -> db (snd (deleteComposition user id w)) = db w).
Proof.
  destruct (find (has_id CompositionModel id) (compositions (db w))) as [c|] eqn:Hc.
  - destruct (Nat.eq_dec (Composition.composer c) user) as [Hu|Hu].
    + rewrite (@deleteComposition_run user id c w Hc Hu). eexists.
      split; [reflexivity|]. cbn [status json fst snd]. split; [eauto | congruence].
    + destruct (deleteComposition_refused user id w) as (Hd & resp & E & Hs);
        [now rewrite Hc|].
      exists resp. split; [exact E|]. split; [contradiction | auto].
  - destruct (deleteComposition_refused user id w) as (Hd & resp & E & Hs);
      [now rewrite Hc|].
    exists resp. split; [exact E|]. split; [contradiction | auto].
Qed.

Lemma find_remove_id_other {A} (M : Model A) i j l :
  j <> i -> find (has_id M j) (remove_id M i l) = find (has_id M j) l.
Proof.
  intros Hj. induction l as [|a l IH]; cbn [remove_id find]; [reflexivity|].
  rewrite !has_id_eq.
  destruct (Nat.eqb_spec (id_of M a) i) as [E|E].
  - destruct (Nat.eqb_spec (id_of M a) j); [congruence | reflexivity].
  - cbn [find]. rewrite has_id_eq. destruct (id_of M a =? j); [reflexivity | exact IH].
Qed.

(** X9: a [DELETE /api/compositions/:id] by the composer removes exactly
    the ledger rows that reference the composition, keeping the others in
    their order, removes the composition and no other, and writes neither
    songs nor users. *)
Theorem deleteComposition_purges (user id : ObjectId) (c : Composition.doc) (w : World) :
  NoDup (map Composition._id (compositions (db w))) ->
  find (has_id CompositionModel id) (compositions (db w)) = Some c ->
  Composition.composer c = user ->
  let w' := snd (deleteComposition user id w) in
  likedislikes (db w') =
    filter (fun v => negb (LikeDislike.composition v =? id)) (likedislikes (db w)) /\
  (forall v, In v (likedislikes (db w')) <->
             In v (likedislikes (db w)) /\ LikeDislike.composition v <> id) /\
  find (has_id CompositionModel id) (compositions (db w')) = None /\
  (forall j, j <> id ->
     find (has_id CompositionModel j) (compositions (db w')) =
     find (has_id CompositionModel j) (compositions (db w))) /\
  songs (db w') = songs (db w) /\
  users (db w') = users (db w).
Proof.
  intros Hn Hc Hu w'. subst w'.
  rewrite (@deleteComposition_run user id c w Hc Hu).
  cbn [snd db likedislikes compositions songs users]. unfold purge_votes.
  split; [reflexivity|]. split; [|split; [|split; [|split; reflexivity]]].
  - intros v. rewrite filter_In, negb_true_iff, Nat.eqb_neq. tauto.
  - now apply find_remove_id_gone.
  - intros j Hj. now apply find_remove_id_other.
Qed.

Lemma deleteComposition_purges_witness :
  let w' := snd (deleteComposition 1 10 sample) in
  likedislikes (db w') = [] /\
  find (has_id CompositionModel 10) (compositions (db w')) = None.
Proof.
  destruct (deleteComposition_purges 1 10 (Composition.mk 10 20 1 1 0 5%float 0 true)
              sample) as (H1 & _ & H3 & _).
  - cbn. repeat constructor. cbn. tauto.
  - reflexivity.
  - reflexivity.
  - split; [exact H1 | exact H3].
Defined.

(** X10: [DELETE /api/songs/:id] answers 200 only to the user who added a
    stored song; every other answer leaves the database as it was. *)
Theorem deleteSong_access (user id : ObjectId) (w : World) :
  exists resp,
    fst (deleteSong user id w) = Ok resp /\
    (status resp = 200 ->
     exists s, find (has_id SongModel id) (songs (db w)) = Some s /\
               Song.addedBy s = user) /\
    (status resp <> 200 -> db (snd (deleteSong user id w)) = db w).
Proof.
  destruct (find (has_id SongModel id) (songs (db w))) as [s|] eqn:Hs.
  - destruct (Nat.eq_dec (Song.addedBy s) user) as [Hu|Hu].
    + rewrite (@deleteSong_run user id s w Hs Hu). eexists.
      split; [reflexivity|]. cbn [status json fst snd]. split; [eauto | congruence].
    + unfold deleteSong, try_catch. mrun'. rewrite Hs.
      apply Nat.eqb_neq in Hu. rewrite Hu. cbn. eexists.
      split; [reflexivity|]. cbn. split; [discriminate | reflexivity].
  - unfold deleteSong, try_catch. mrun'. rewrite Hs. cbn. eexists.
    split; [reflexivity|]. cbn. split; [discriminate | reflexivity].
Qed.

(** ** Updating a composition *)

Lemma putComposition_run user id body c w :
  find (has_id CompositionModel id) (compositions (db w)) = Some c ->
  Composition.composer c = user ->
  let c' := with_isPublic (or_default (Composition.isPublic c) (body_isPublic body)) c in
  let d := with_docs CompositionModel
             (replace_doc CompositionModel c' (compositions (db w))) (db w) in
  putComposition user id body w =
  (Ok (json [("message", JString "Composition updated successfully");
             ("composition", JDoc Compositions id)]%string),
   mkWorld (rollup c' d)
     (log w ++ [OpFind Compositions; save_op CompositionModel Composition.modified c c']
            ++ rollup_log c' d
            ++ [OpFind Compositions; OpFind Users; OpFind Songs])).
Proof.
  intros Hc Hu c' d. pose proof Hc as Hi. apply find_has_id in Hi. cbn in Hi.
  unfold putComposition, try_catch. mrun'. rewrite Hc, Hu, Nat.eqb_refl. cbn [negb].
  assert (E : match body_isPublic body with
              | Some b => with_isPublic b c
              | None => c
              end = c').
  { unfold c', or_default. destruct (body_isPublic body); [reflexivity|]. now destruct c. }
  rewrite E. rewrite bind_run.
  rewrite (Composition_save_run c' c) by (cbn; rewrite Hi; exact Hc).
  cbn zeta. mcbn. fold d. mrun'. cbn [with_isPublic Composition._id c'].
  rewrite Hi, <- !app_assoc. reflexivity.
Qed.

(** X11: [PUT /api/compositions/:id], for a body whose content passes
    validation, answers 200 only to the composer of a stored composition,
    and then changes, of the composition's engagement fields, the
    visibility only: likes, dislikes, rating, views, song and composer
    stay as stored whatever the body carries.  The write is a save, so
    the [compositionsCount] of the song and of the composer are left
    exact.  Every other answer leaves the database as it was. *)
Theorem putComposition_protects_counters
  (user id : ObjectId) (body : CompositionBody) (w : World) :
  let w' := snd (putComposition user id body w) in
  exists resp,
    fst (putComposition user id body w) = Ok resp /\
    (status resp = 200 ->
     exists c,
       find (has_id CompositionModel id) (compositions (db w)) = Some c /\
       Composition.composer c = user /\
       find (has_id CompositionModel id) (compositions (db w')) =
         Some (with_isPublic (or_default (Composition.isPublic c) (body_isPublic body)) c) /\
       (forall j, j <> id ->
          find (has_id CompositionModel j) (compositions (db w')) =
          find (has_id CompositionModel j) (compositions (db w))) /\
       likedislikes (db w') = likedislikes (db w) /\
       rollups_exact c (db w')) /\
    (status resp <> 200 -> db w' = db w).
Proof.
  intros w'. subst w'.
  destruct (find (has_id CompositionModel id) (compositions (db w))) as [c|] eqn:Hc.
  - destruct (Nat.eq_dec (Composition.composer c) user) as [Hu|Hu].
    + rewrite (putComposition_run user id body c w Hc Hu). cbn zeta. cbn [fst snd db].
      set (c' := with_isPublic _ c).
      set (d := with_docs CompositionModel _ (db w)).
      destruct (rollup_frame c' d) as (El & Ec & _).
      pose proof Hc as Hi. apply find_has_id in Hi. cbn in Hi.
      eexists. split; [reflexivity|]. cbn [status json]. split; [|congruence].
      intros _. exists c. split; [reflexivity|]. split; [exact Hu|]. split.
      { rewrite Ec. unfold d. cbn [compositions with_docs CompositionModel].
        rewrite <- Hi. apply (@find_replace_doc _ CompositionModel c' c).
        cbn. rewrite Hi. exact Hc. }
      split; [|split].
      * intros j Hj. rewrite Ec. unfold d. cbn [compositions with_docs CompositionModel].
        apply find_replace_doc_other. cbn. congruence.
      * rewrite El. reflexivity.
      * apply (rollup_exact c' d).
    + unfold putComposition, try_catch. mrun'. rewrite Hc.
      apply Nat.eqb_neq in Hu. rewrite Hu. cbn. eexists.
      split; [reflexivity|]. cbn. split; [discriminate | reflexivity].
  - unfold putComposition, try_catch. mrun'. rewrite Hc. cbn. eexists.
    split; [reflexivity|]. cbn. split; [discriminate | reflexivity].
Qed.

(** ** Vote statistics *)

Lemma stat_count_bump t k groups :
  stat_count t (bump k groups) =
  stat_count t groups + (if String.eqb k t then 1 else 0).
Proof.
  unfold stat_count. induction groups as [|[k' n] r IH]; cbn [bump find fst snd].
  - destruct (String.eqb k t); reflexivity.
  - destruct (String.eqb_spec k' k) as [->|Hk]; cbn [find fst snd].
    + destruct (String.eqb k t); cbn [snd]; lia.
    + destruct (String.eqb_spec k' t) as [->|Ht].
      * apply String.eqb_neq in Hk. rewrite String.eqb_sym in Hk. rewrite Hk.
        cbn [snd]. lia.
      * exact IH.
Qed.

Lemma stat_count_fold t l : forall groups,
  stat_count t (fold_left (fun g v => bump (LikeDislike.type v) g) l groups) =
  stat_count t groups +
  List.length (filter (fun v => String.eqb (LikeDislike.type v) t) l).
Proof.
  induction l as [|v l IH]; intros groups; cbn [fold_left filter]; [cbn; lia|].
  rewrite IH, stat_count_bump.
  destruct (String.eqb (LikeDislike.type v) t); cbn [List.length]; lia.
Qed.

Lemma filter_filter {A} (f g : A -> bool) l :
  filter f (filter g l) = filter (fun x => g x && f x) l.
Proof.
  induction l as [|a l IH]; cbn; [reflexivity|].
  destruct (g a); cbn; [destruct (f a); now rewrite IH | exact IH].
Qed.

Lemma stat_count_votes cid t d :
  stat_count t (group_by_type
                  (filter (fun v => LikeDislike.composition v =? cid) (likedislikes d))) =
  count_votes cid t d.
Proof.
  unfold group_by_type. rewrite stat_count_fold, filter_filter. reflexivity.
Qed.

Lemma getVotes_run user id c w :
  find (has_id CompositionModel id) (compositions (db w)) = Some c ->
  getVotes user id w =
  (Ok (Success (mkVoteStats id (count_votes id like (db w)) (count_votes id dislike (db w))
                  (count_votes id like (db w) + count_votes id dislike (db w))
                  (Composition.rating c) (userVote_of user id (db w)))),
   mkWorld (db w)
     (log w ++ [OpFind Compositions; OpFind LikeDislikes]
            ++ match user with Some _ => [OpFind LikeDislikes] | None => [] end)).
Proof.
  intros Hc. pose proof Hc as Hi. apply find_has_id in Hi. cbn in Hi.
  unfold getVotes, aggregate_votes, try_catch. mrun'. rewrite Hc. mrun'.
  rewrite Hi, !stat_count_votes.
  destruct user as [u|]; mrun'; cbn [userVote_of].
  - rewrite <- !app_assoc. reflexivity.
  - rewrite <- !app_assoc. reflexivity.
Qed.

(** X12: [GET /api/compositions/:id/votes] reads only.  For a stored
    composition it reports the like and dislike counts of the ledger as
    it is now, their sum, the vote the ledger holds for the user, and
    as rating the one stored in the composition; for one that is not
    stored it answers 404. *)
Theorem getVotes_reports_ledger (user : option ObjectId) (id : ObjectId) (w : World) :
  db (snd (getVotes user id w)) = db w /\
  match find (has_id CompositionModel id) (compositions (db w)) with
  | Some c =>
      exists st,
        fst (getVotes user id w) = Ok (Success st) /\
        compositionId st = id /\
        stats_likes st = count_votes id like (db w) /\
        stats_dislikes st = count_votes id dislike (db w) /\
        stats_total st = stats_likes st + stats_dislikes st /\
        stats_rating st = Composition.rating c /\
        stats_userVote st = userVote_of user id (db w)
  | None =>
      fst (getVotes user id w) =
      Ok (Failure (mkResponse 404 (message "Composition not found")))
  end.
Proof.
  destruct (find (has_id CompositionModel id) (compositions (db w))) as [c|] eqn:Hc.
  - rewrite (getVotes_run user id c w Hc). cbn [fst snd db].
    split; [reflexivity|]. eexists. split; [reflexivity|]. cbn. repeat split.
  - unfold getVotes, try_catch. mrun'. rewrite Hc. split; reflexivity.
Qed.

Lemma vote_stored_after req c w :
  ledger_ok (db w) ->
  valid_type (body_type req) = true ->
  find (has_id CompositionModel (params_id req)) (compositions (db w)) = Some c ->
  option_map LikeDislike.type
    (find (same_pair (req_user req) (params_id req))
       (likedislikes (db (snd (vote req w))))) =
  match find (same_pair (req_user req) (params_id req)) (likedislikes (db w)) with
  | Some v => if String.eqb (LikeDislike.type v) (body_type req) then None
              else Some (body_type req)
  | None => Some (body_type req)
  end.
Proof.
  intros Hok Hv Hc. pose proof Hok as (Hid & Hk & Hlt).
  destruct (find (same_pair (req_user req) (params_id req)) (likedislikes (db w)))
    as [v|] eqn:Hf.
  - destruct (String.eqb_spec (LikeDislike.type v) (body_type req)) as [Ht|Ht].
    + rewrite (@vote_removed_run req c v w Hv Hc Hf Ht). cbn [snd db].
      unfold with_ledger. cbn [with_docs LikeDislikeModel likedislikes].
      now rewrite find_remove_id_none.
    + rewrite (@vote_updated_run req c v w Hok Hv Hc Hf Ht). cbn [snd db].
      match goal with
      | |- context [recount_votes ?i ?d] =>
          destruct (recount_votes_frame i d) as (-> & _)
      end.
      unfold with_ledger. cbn [with_docs LikeDislikeModel likedislikes].
      rewrite (@find_replace_found _ LikeDislikeModel _
                 (LikeDislike.set_type (body_type req) v) v); auto.
      apply find_some in Hf. exact (proj2 Hf).
  - rewrite (@vote_added_run req c w Hok Hv Hc Hf). cbn [snd db].
    match goal with
    | |- context [recount_votes ?i ?d] =>
        destruct (recount_votes_frame i d) as (-> & _)
    end.
    unfold with_ledger. cbn [with_docs LikeDislikeModel likedislikes].
    rewrite (find_app_none _ _ _ Hf).
    unfold same_pair. cbn. now rewrite !Nat.eqb_refl.
Qed.

Lemma userVote_of_stored u id d :
  userVote_of (Some u) id d =
  match option_map LikeDislike.type (find (same_pair u id) (likedislikes d)) with
  | Some t => JString t
  | None => JNull
  end.
Proof. cbn. now destruct (find _ _). Qed.

Lemma filter_remove_id_length {A} (M : Model A) (f : A -> bool) i l v :
  find (has_id M i) l = Some v ->
  List.length (filter f (remove_id M i l)) + (if f v then 1 else 0) =
  List.length (filter f l).
Proof.
  induction l as [|a l IH]; cbn [find remove_id filter]; [discriminate|].
  destruct (has_id M i a).
  - intros [= ->]. destruct (f v); cbn [List.length]; lia.
  - intros H. cbn [filter]. destruct (f a); cbn [List.length]; rewrite <- (IH H); lia.
Qed.

Lemma votes_of_one cid v :
  LikeDislike.composition v = cid ->
  valid_type (LikeDislike.type v) = true ->
  (if votes_of cid like v then 1 else 0) + (if votes_of cid dislike v then 1 else 0) = 1.
Proof.
  intros Hc Hv. unfold votes_of. rewrite Hc, Nat.eqb_refl. cbn [andb].
  unfold valid_type in Hv. apply orb_true_iff in Hv.
  destruct Hv as [Hv|Hv]; apply String.eqb_eq in Hv; rewrite Hv; reflexivity.
Qed.

(** X13: after a vote, the statistics asked for by the voter show the
    vote: the polarity just stored when the vote was added or changed,
    and no vote when it was retracted.  After an added or changed vote the
    reported rating is the rating of the reported counts; after a
    retraction the reported rating is still the one stored before, while
    the reported counts have moved. *)
Theorem vote_then_getVotes (req : VoteRequest) (c : Composition.doc) (w : World) :
  ledger_ok (db w) ->
  valid_type (body_type req) = true ->
  find (has_id CompositionModel (params_id req)) (compositions (db w)) = Some c ->
  let w1 := snd (vote req w) in
  let stored :=
    option_map LikeDislike.type
      (find (same_pair (req_user req) (params_id req)) (likedislikes (db w))) in
  exists st,
    fst (getVotes (Some (req_user req)) (params_id req) w1) = Ok (Success st) /\
    stats_likes st = count_votes (params_id req) like (db w1) /\
    stats_dislikes st = count_votes (params_id req) dislike (db w1) /\
    (stored <> Some (body_type req) ->
     stats_userVote st = JString (body_type req) /\
     stats_rating st = Rating (stats_likes st) (stats_dislikes st)) /\
    (stored = Some (body_type req) ->
     stats_userVote st = JNull /\
     stats_rating st = Composition.rating c /\
     stats_likes st + stats_dislikes st + 1 =
       count_votes (params_id req) like (db w) +
       count_votes (params_id req) dislike (db w)).
Proof.
  intros Hok Hv Hc w1 stored.
  pose proof (vote_stored_after req c w Hok Hv Hc) as Hst. fold w1 in Hst.
  pose proof Hok as (Hid & Hk & Hlt).
  assert (saved :
    forall o, o = option_map LikeDislike.type
                    (find (same_pair (req_user req) (params_id req)) (likedislikes (db w))) ->
    o <> Some (body_type req) ->
    option_map LikeDislike.type
      (find (same_pair (req_user req) (params_id req)) (likedislikes (db w1))) =
      Some (body_type req) ->
    exists st,
      fst (getVotes (Some (req_user req)) (params_id req) w1) = Ok (Success st) /\
      stats_likes st = count_votes (params_id req) like (db w1) /\
      stats_dislikes st = count_votes (params_id req) dislike (db w1) /\
      (o <> Some (body_type req) ->
       stats_userVote st = JString (body_type req) /\
       stats_rating st = Rating (stats_likes st) (stats_dislikes st)) /\
      (o = Some (body_type req) ->
       stats_userVote st = JNull /\
       stats_rating st = Composition.rating c /\
       stats_likes st + stats_dislikes st + 1 =
         count_votes (params_id req) like (db w) +
         count_votes (params_id req) dislike (db w))).
  { intros o -> Hn Hs.
    destruct (@vote_saved_run req c w Hok Hv Hc Hn)
      as (this & d & ops & Ew & Hin & Ht & Hcomp & Ec & _).
    fold w1 in Ew.
    assert (Hc' : find (has_id CompositionModel (params_id req)) (compositions d) = Some c)
      by (rewrite Ec; exact Hc).
    destruct (recount_votes_target _ d c Hc') as (c' & F1 & F2 & F3 & F4 & _).
    destruct (recount_votes_frame (params_id req) d) as (El & _).
    assert (Edb : db w1 = recount_votes (params_id req) d) by now rewrite Ew.
    rewrite <- Edb in F1, F2, F3.
    rewrite (getVotes_run _ _ c' w1 F1). eexists. split; [reflexivity|].
    cbn [stats_likes stats_dislikes stats_userVote stats_rating].
    split; [reflexivity|]. split; [reflexivity|]. split; [|contradiction].
    intros _. rewrite userVote_of_stored, Hs. split; [reflexivity|].
    rewrite F4, F2, F3.
    assert (Hpos : count_votes (params_id req) like (db w1) +
                   count_votes (params_id req) dislike (db w1) <> 0).
    { rewrite Edb.
      rewrite (count_votes_ledger _ like _ _ El), (count_votes_ledger _ dislike _ _ El).
      rewrite <- Hcomp. apply count_votes_positive; [exact Hin | now rewrite Ht]. }
    apply Nat.eqb_neq in Hpos. now rewrite Hpos. }
  destruct (find (same_pair (req_user req) (params_id req)) (likedislikes (db w)))
    as [v|] eqn:Hf.
  - destruct (String.eqb_spec (LikeDislike.type v) (body_type req)) as [Ht|Ht].
    + (* retracted *)
      assert (E1 : db w1 = with_ledger (remove_id LikeDislikeModel (LikeDislike._id v)
                                          (likedislikes (db w))) (db w)).
      { unfold w1. now rewrite (@vote_removed_run req c v w Hv Hc Hf Ht). }
      assert (Hc1 : find (has_id CompositionModel (params_id req))
                      (compositions (db w1)) = Some c) by (rewrite E1; exact Hc).
      rewrite (getVotes_run _ _ c w1 Hc1). eexists. split; [reflexivity|].
      cbn [stats_likes stats_dislikes stats_userVote stats_rating].
      split; [reflexivity|]. split; [reflexivity|].
      rewrite userVote_of_stored, Hst. split.
      * intros H. exfalso. apply H. subst stored. cbn. now rewrite Ht.
      * intros _. split; [reflexivity|]. split; [reflexivity|].
        unfold count_votes. rewrite E1. unfold with_ledger.
        cbn [likedislikes with_docs LikeDislikeModel].
        pose proof (find_In _ _ Hf) as Hin.
        pose proof (@find_by_id_unique _ LikeDislikeModel _ v Hid Hin) as Hfv.
        cbn [id_of LikeDislikeModel] in Hfv.
        rewrite <- (filter_remove_id_length LikeDislikeModel
                      (votes_of (params_id req) like) _ _ v Hfv).
        rewrite <- (filter_remove_id_length LikeDislikeModel
                      (votes_of (params_id req) dislike) _ _ v Hfv).
        assert (Hone := votes_of_one (params_id req) v).
        apply find_some in Hf. destruct Hf as [_ Hp]. apply same_pair_key in Hp.
        injection Hp as _ Hp. rewrite Ht in Hone. specialize (Hone Hp Hv). lia.
    + apply (saved _ eq_refl).
      * cbn. congruence.
      * rewrite Hst. reflexivity.
  - apply (saved _ eq_refl).
    + cbn. discriminate.
    + rewrite Hst. reflexivity.
Qed.

Lemma vote_then_getVotes_witness :
  exists st,
    fst (getVotes (Some 2) 10 (snd (vote (mkVoteRequest 2 10 like) sample))) =
      Ok (Success st) /\
    stats_likes st = 0 /\ stats_userVote st = JNull /\ stats_rating st = 5%float.
Proof.
  destruct (vote_then_getVotes (mkVoteRequest 2 10 like)
              (Composition.mk 10 20 1 1 0 5%float 0 true) sample
              sample_ledger_ok eq_refl eq_refl) as (st & H1 & H2 & _ & _ & H5).
  destruct (H5 eq_refl) as (H6 & H7 & _).
  exists st. split; [exact H1|]. split; [exact H2|]. split; [exact H6 | exact H7].
Defined.

(** ** What a vote leaves alone *)







(** ** More binary64 arithmetic: quotients, ceilings and comparisons *)

Section Binary64Quotients.
Local Open Scope R_scope.

Lemma value_lt_exponent m e m' e' :
  (M52 <= m < 2 * M52)%Z -> (M52 <= m' < 2 * M52)%Z -> (e < e')%Z ->
  value m e < value m' e'.
Proof.
  intros Hm Hm' He. unfold value.
  pose proof (bpow_pos e) as P. pose proof (bpow_lt_half e e' He) as H2.
  assert (A : IZR m < 2 * IZR M52).
  { rewrite <- mult_IZR. apply IZR_lt. lia. }
  assert (B : IZR M52 <= IZR m') by (apply IZR_le; lia).
  assert (C : 0 < IZR M52) by (apply IZR_lt; unfold M52; lia).
  nra.
Qed.

Lemma value_inj m e m' e' :
  (M52 <= m < 2 * M52)%Z -> (M52 <= m' < 2 * M52)%Z ->
  value m e = value m' e' -> m = m' /\ e = e'.
Proof.
  intros Hm Hm' H.
  destruct (Z.lt_trichotomy e e') as [L|[E|L]].
  - pose proof (value_lt_exponent m e m' e' Hm Hm' L). lra.
  - subst e'. split; [|reflexivity]. unfold value in H.
    pose proof (bpow_pos e). apply eq_IZR. nra.
  - pose proof (value_lt_exponent m' e' m e Hm' Hm L). lra.
Qed.

Lemma rounds_to_unique x m e m' e' :
  rounds_to x m e -> rounds_to x m' e' -> m = m' /\ e = e'.
Proof.
  intros R R'. apply value_inj.
  - apply R.
  - apply R'.
  - apply Rle_antisym.
    + apply (rounds_to_mono _ _ _ _ _ _ R R'). lra.
    + apply (rounds_to_mono _ _ _ _ _ _ R' R). lra.
Qed.

Lemma Prim2SF_inj x y : Prim2SF x = Prim2SF y -> x = y.
Proof.
  intros H. rewrite <- (SF2Prim_Prim2SF x), <- (SF2Prim_Prim2SF y). now rewrite H.
Qed.

(** The quotient of two Numbers that hold positive integers. *)
Lemma Prim2SF_quotient a b :
  (0 < a < 2 ^ 53)%Z -> (0 < b < 2 ^ 53)%Z ->
  exists m e,
    Prim2SF (Number_of_Z a / Number_of_Z b) = S754_finite false (Z.to_pos m) e /\
    rounds_to (IZR a / IZR b) m e /\ normal m e.
Proof.
  intros Ha Hb.
  destruct (Prim2SF_Number_of_Z a Ha) as (ma & ea & Ea & Na & Va & Hea).
  destruct (Prim2SF_Number_of_Z b Hb) as (mb & eb & Eb & Nb & Vb & Heb).
  destruct (SFdiv_correct ma ea mb eb Na Nb ltac:(lia)) as (m & e & E & R & N).
  rewrite Va, Vb in R. exists m, e. split; [|auto].
  rewrite div_spec, Ea, Eb. unfold SF64div. exact E.
Qed.

Lemma quotient_same a b a' b' :
  (0 < a < 2 ^ 53)%Z -> (0 < b < 2 ^ 53)%Z ->
  (0 < a' < 2 ^ 53)%Z -> (0 < b' < 2 ^ 53)%Z ->
  (a * b' = a' * b)%Z ->
  (Number_of_Z a / Number_of_Z b = Number_of_Z a' / Number_of_Z b')%float.
Proof.
  intros Ha Hb Ha' Hb' H.
  destruct (Prim2SF_quotient a b Ha Hb) as (m & e & E & R & N).
  destruct (Prim2SF_quotient a' b' Ha' Hb') as (m' & e' & E' & R' & N').
  assert (Q : IZR a / IZR b = IZR a' / IZR b').
  { assert (0 < IZR b) by (apply IZR_lt; lia).
    assert (0 < IZR b') by (apply IZR_lt; lia).
    apply (f_equal IZR) in H. rewrite !mult_IZR in H. field_simplify_eq; lra. }
  rewrite Q in R. destruct (rounds_to_unique _ _ _ _ _ R R') as [-> ->].
  apply Prim2SF_inj. now rewrite E, E'.
Qed.

Lemma Rating_scale (k l d : nat) :
  (0 < k)%nat -> safe_count (k * (l + d)) -> Rating (k * l) (k * d) = Rating l d.
Proof.
  intros Hk Hs. unfold safe_count in Hs.
  destruct (Nat.eq_dec (l + d) 0) as [E0|E0].
  { assert (l = 0%nat) by lia. assert (d = 0%nat) by lia. subst.
    now rewrite !Nat.mul_0_r. }
  assert (Hs' : safe_count (l + d)) by (unfold safe_count; nia).
  destruct (Nat.eq_dec l 0) as [El|El].
  { subst l. rewrite Nat.mul_0_r.
    rewrite !Rating_no_likes;
      first [ reflexivity | nia | unfold safe_count in *; cbn [Nat.add] in *; nia ]. }
  rewrite !Rating_unfold by nia.
  replace (k * l + k * d)%nat with (k * (l + d))%nat by lia.
  unfold Number_of_nat.
  rewrite (quotient_same (Z.of_nat (k * l)) (Z.of_nat (k * (l + d)))
             (Z.of_nat l) (Z.of_nat (l + d))); try reflexivity; try nia.
Qed.

End Binary64Quotients.

(** ** Further properties of the rating *)

(** X15: the rating depends on the proportion of likes only: multiplying
    both counts by the same positive number does not change it (for counts
    a Number holds exactly). *)
Theorem Rating_scale_invariant (k l d : nat) :
  0 < k -> safe_count (k * (l + d)) -> Rating (k * l) (k * d) = Rating l d.
Proof. exact (Rating_scale k l d). Qed.

Lemma Rating_scale_invariant_witness : Rating 300 700 = Rating 3 7.
Proof.
  apply (Rating_scale_invariant 100 3 7); [lia|].
  unfold safe_count. vm_compute. reflexivity.
Defined.

(** X16: with likes only the rating is 5, with dislikes only it is 0, and
    with as many likes as dislikes it is 2.5. *)
Theorem Rating_extremes (n : nat) :
  0 < n -> safe_count (n + n) ->
  Rating n 0 = 5%float /\ Rating 0 n = 0%float /\ Rating n n = 2.5%float.
Proof.
  intros Hn Hs. unfold safe_count in Hs.
  assert (H1 : Rating (n * 1) (n * 0) = Rating 1 0)
    by (apply Rating_scale; [lia | unfold safe_count; lia]).
  assert (H2 : Rating (n * 0) (n * 1) = Rating 0 1)
    by (apply Rating_scale; [lia | unfold safe_count; lia]).
  assert (H3 : Rating (n * 1) (n * 1) = Rating 1 1)
    by (apply Rating_scale; [lia | unfold safe_count; lia]).
  rewrite Nat.mul_1_r, Nat.mul_0_r in *.
  rewrite H1, H2, H3. repeat split.
Qed.

Lemma Rating_extremes_witness :
  Rating 7 0 = 5%float /\ Rating 0 7 = 0%float /\ Rating 7 7 = 2.5%float.
Proof.
  apply (Rating_extremes 7); [lia|]. unfold safe_count. vm_compute. reflexivity.
Defined.

(** X17: the rating is always one of the 51 Numbers 0.0, 0.1, ..., 5.0:
    the binary64 quotient of an integer between 0 and 50 by 10. *)
Theorem Rating_one_decimal (l d : nat) :
  safe_count (l + d) ->
  exists k, (0 <= k <= 50)%Z /\ Rating l d = (Number_of_Z k / 10)%float.
Proof.
  intros Hs.
  destruct (Rating_tenths_le l d l d Hs Hs ltac:(lia) ltac:(lia))
    as (k1 & k2 & E1 & E2 & K1 & K2).
  exists k2. split; [lia | exact E2].
Qed.

Lemma Rating_one_decimal_witness :
  exists k, (0 <= k <= 50)%Z /\ Rating 2 1 = (Number_of_Z k / 10)%float.
Proof.
  apply (Rating_one_decimal 2 1). unfold safe_count. vm_compute. reflexivity.
Defined.

(** ** The page count *)

Section Binary64Pages.
Local Open Scope R_scope.

Lemma Number_of_Z_unique x m e z :
  Prim2SF x = S754_finite false (Z.to_pos m) e ->
  (M52 <= m < 2 * M52)%Z -> value m e = IZR z -> (0 < z < 2 ^ 53)%Z ->
  x = Number_of_Z z.
Proof.
  intros E Hm Hv Hz.
  destruct (Prim2SF_Number_of_Z z Hz) as (m' & e' & E' & N' & V' & _).
  destruct (value_inj m e m' e' Hm (proj1 N')) as [-> ->]; [congruence|].
  apply Prim2SF_inj. now rewrite E, E'.
Qed.

Lemma ceiling_bounds m k :
  (0 < k)%Z ->
  let n := (- ((- m) / k))%Z in
  IZR n - 1 < IZR m / IZR k <= IZR n.
Proof.
  intros Hk n.
  assert (K : 0 < IZR k) by (apply IZR_lt; lia).
  pose proof (Z.div_mod (- m) k ltac:(lia)) as D.
  pose proof (Z.mod_pos_bound (- m) k Hk) as B.
  set (q := (- m / k)%Z) in *. set (r := (- m mod k)%Z) in *.
  assert (Em : (m = k * n - r)%Z) by (unfold n; lia).
  assert (E : IZR m = IZR k * IZR n - IZR r).
  { rewrite Em, minus_IZR, mult_IZR. reflexivity. }
  assert (R0 : 0 <= IZR r) by (apply IZR_le; lia).
  assert (R1 : IZR r < IZR k) by (apply IZR_lt; lia).
  split.
  - apply Rmult_lt_reg_r with (r := IZR k); [exact K|].
    unfold Rdiv. rewrite Rmult_assoc, Rinv_l by lra. nra.
  - apply Rmult_le_reg_r with (r := IZR k); [exact K|].
    unfold Rdiv. rewrite Rmult_assoc, Rinv_l by lra. nra.
Qed.

Lemma value_as_quotient m e :
  (e < 0)%Z -> value m e = IZR m / IZR (2 ^ (- e)).
Proof.
  intros He. unfold value.
  rewrite <- (bpow_IZR (- e)) by lia.
  assert (H : bpow e * bpow (- e) = 1).
  { rewrite <- bpow_add. replace (e + - e)%Z with 0%Z by lia. reflexivity. }
  pose proof (bpow_pos (- e)).
  apply Rmult_eq_reg_r with (r := bpow (- e)); [|lra].
  unfold Rdiv. rewrite !Rmult_assoc, H, Rinv_l by lra. reflexivity.
Qed.

Lemma Math_ceil_spec x m e n :
  Prim2SF x = S754_finite false (Z.to_pos m) e ->
  (M52 <= m < 2 * M52)%Z ->
  (0 < n < 2 ^ 53)%Z ->
  IZR n - 1 < value m e <= IZR n ->
  Math_ceil x = Number_of_Z n.
Proof.
  intros E Hm Hn Hv. unfold Math_ceil. rewrite E.
  assert (Pm : (0 < m)%Z) by (unfold M52 in Hm; lia).
  destruct (Z.leb_spec 0 e) as [He|He].
  - (* the value is an integer *)
    assert (Hi : value m e = IZR (m * 2 ^ e)).
    { unfold value. rewrite mult_IZR, bpow_IZR by lia. reflexivity. }
    rewrite Hi in Hv.
    assert (m * 2 ^ e = n)%Z.
    { destruct Hv as [H1 H2]. apply le_IZR in H2.
      rewrite <- minus_IZR in H1. apply lt_IZR in H1. lia. }
    apply (Number_of_Z_unique x m e n E Hm); [|exact Hn]. now rewrite Hi, H.
  - rewrite Z2Pos.id by exact Pm.
    assert (Pk : (0 < 2 ^ (- e))%Z) by (apply Z.pow_pos_nonneg; lia).
    pose proof (ceiling_bounds m (2 ^ (- e)) Pk) as C. cbn zeta in C.
    rewrite <- (value_as_quotient m e He) in C.
    set (c := (- (- m / 2 ^ (- e)))%Z) in *.
    assert (c = n).
    { destruct Hv as [H1 H2], C as [C1 C2].
      assert (A : IZR c - 1 < IZR n) by lra.
      assert (B : IZR n - 1 < IZR c) by lra.
      rewrite <- minus_IZR in A, B. apply lt_IZR in A, B. lia. }
    subst c. rewrite H.
    destruct (Z.eqb_spec n 0); [lia | reflexivity].
Qed.

(** The quotient of a count by a page size, rounded up. *)
Lemma ceil_quotient total limit :
  (0 < total < 2 ^ 53)%Z -> (0 < limit < 2 ^ 53)%Z ->
  Math_ceil (Number_of_Z total / Number_of_Z limit) =
  Number_of_Z (ceil_div total limit).
Proof.
  intros Ht Hl.
  destruct (Prim2SF_quotient total limit Ht Hl) as (m & e & E & R & N).
  set (n := ceil_div total limit).
  assert (Hn : (limit * (n - 1) < total <= limit * n)%Z).
  { unfold n, ceil_div.
    pose proof (Z.div_mod (total + limit - 1) limit ltac:(lia)) as D.
    pose proof (Z.mod_pos_bound (total + limit - 1) limit ltac:(lia)) as B.
    nia. }
  assert (Hn1 : (1 <= n)%Z) by nia.
  assert (Hn2 : (n <= total)%Z) by nia.
  assert (L : 0 < IZR limit) by (apply IZR_lt; lia).
  assert (Q1 : IZR total / IZR limit <= IZR n).
  { apply Rmult_le_reg_r with (r := IZR limit); [exact L|].
    unfold Rdiv. rewrite Rmult_assoc, Rinv_l, Rmult_1_r by lra.
    rewrite <- mult_IZR. apply IZR_le. lia. }
  assert (Q0 : IZR n - 1 + / IZR limit <= IZR total / IZR limit).
  { apply Rmult_le_reg_r with (r := IZR limit); [exact L|].
    unfold Rdiv. rewrite Rmult_assoc, Rinv_l, Rmult_1_r by lra.
    rewrite Rmult_plus_distr_r, Rinv_l by lra.
    rewrite <- minus_IZR, <- mult_IZR, <- plus_IZR. apply IZR_le. lia. }
  apply (Math_ceil_spec _ m e n E (proj1 N)); [lia|].
  split.
  - (* strictly above n - 1 *)
    destruct (Z.eq_dec n 1) as [->|Hn3].
    { pose proof (value_pos m e N). simpl. lra. }
    destruct (Prim2SF_Number_of_Z (n - 1) ltac:(lia)) as (m0 & e0 & _ & N0 & V0 & _).
    pose proof (rounds_to_exact m0 e0 (proj1 N0)) as R0. rewrite V0 in R0.
    assert (G : IZR (n - 1) <= value m e).
    { rewrite <- V0. apply (rounds_to_mono _ _ _ _ _ _ R0 R).
      rewrite minus_IZR. pose proof (Rinv_0_lt_compat _ L). simpl. lra. }
    rewrite minus_IZR in G. simpl in G.
    destruct (Rle_lt_or_eq_dec _ _ G) as [G'|G']; [exact G'|]. exfalso.
    (* value m e = n - 1 would put the quotient within half an ulp of it *)
    pose proof (rounds_to_error _ _ _ R) as [_ Err].
    pose proof (bpow_pos e) as Pe.
    assert (A : / IZR limit <= bpow e / 2) by lra.
    assert (B : IZR M52 * bpow e <= IZR n - 1).
    { rewrite G'. unfold value. apply Rmult_le_compat_r; [lra|].
      apply IZR_le. apply N. }
    assert (C : IZR M52 = 4503599627370496) by reflexivity.
    assert (D : 2 * IZR M52 <= IZR limit * (IZR n - 1)).
    { assert (1 <= IZR limit * (bpow e / 2)).
      { apply Rmult_le_reg_l with (r := / IZR limit);
          [now apply Rinv_0_lt_compat|].
        rewrite <- Rmult_assoc, Rinv_l, Rmult_1_l, Rmult_1_r by lra. exact A. }
      assert (0 < IZR M52) by lra. nra. }
    rewrite <- minus_IZR, <- mult_IZR, <- mult_IZR in D. apply le_IZR in D.
    unfold M52 in D. assert (2 ^ 53 = 9007199254740992)%Z by reflexivity. lia.
  - destruct (Prim2SF_Number_of_Z n ltac:(lia)) as (m1 & e1 & _ & N1 & V1 & _).
    pose proof (rounds_to_exact m1 e1 (proj1 N1)) as R1. rewrite V1 in R1.
    rewrite <- V1. apply (rounds_to_mono _ _ _ _ _ _ R R1). exact Q1.
Qed.

Lemma Pos_compare_cont_Eq p q : Pos.compare_cont Eq p q = Pos.compare p q.
Proof. reflexivity. Qed.

Lemma SFltb_normal m e m' e' :
  (M52 <= m < 2 * M52)%Z -> (M52 <= m' < 2 * M52)%Z ->
  SFltb (S754_finite false (Z.to_pos m) e) (S754_finite false (Z.to_pos m') e') = true
  <-> value m e < value m' e'.
Proof.
  intros Hm Hm'. unfold SFltb, SFcompare.
  assert (Pm : (0 < m)%Z) by (unfold M52 in *; lia).
  assert (Pm' : (0 < m')%Z) by (unfold M52 in *; lia).
  destruct (Z.compare_spec e e') as [E|L|L].
  - subst e'. rewrite Pos_compare_cont_Eq, <- Z2Pos.inj_compare by assumption.
    pose proof (bpow_pos e) as P. unfold value.
    destruct (Z.compare_spec m m') as [E|L|L].
    + subst. split; [discriminate | lra].
    + split; [intros _|reflexivity]. apply IZR_lt in L. nra.
    + split; [discriminate|]. apply IZR_lt in L. nra.
  - split; [intros _|reflexivity]. now apply value_lt_exponent.
  - split; [discriminate|]. pose proof (value_lt_exponent m' e' m e Hm' Hm L). lra.
Qed.

Lemma Number_of_Z_ltb a b :
  (0 <= a < 2 ^ 53)%Z -> (0 <= b < 2 ^ 53)%Z ->
  (Number_of_Z a <? Number_of_Z b)%float = (a <? b)%Z.
Proof.
  intros Ha Hb. rewrite ltb_spec.
  destruct (Z.eq_dec a 0) as [->|Na], (Z.eq_dec b 0) as [->|Nb].
  - reflexivity.
  - destruct (Prim2SF_Number_of_Z b ltac:(lia)) as (mb & eb & Eb & _).
    rewrite Eb. change (Prim2SF (Number_of_Z 0)) with (S754_zero false).
    cbn. symmetry. apply Z.ltb_lt. lia.
  - destruct (Prim2SF_Number_of_Z a ltac:(lia)) as (ma & ea & Ea & _).
    rewrite Ea. change (Prim2SF (Number_of_Z 0)) with (S754_zero false).
    cbn. symmetry. apply Z.ltb_ge. lia.
  - destruct (Prim2SF_Number_of_Z a ltac:(lia)) as (ma & ea & Ea & NA & Va & _).
    destruct (Prim2SF_Number_of_Z b ltac:(lia)) as (mb & eb & Eb & NB & Vb & _).
    rewrite Ea, Eb.
    pose proof (SFltb_normal ma ea mb eb (proj1 NA) (proj1 NB)) as H.
    rewrite Va, Vb in H.
    destruct (Z.ltb_spec a b) as [L|L].
    + apply H. now apply IZR_lt.
    + destruct (SFltb _ _) eqn:F; [|reflexivity].
      exfalso. assert (G : IZR a < IZR b) by (apply H; reflexivity).
      apply lt_IZR in G. lia.
Qed.

Lemma zero_quotient limit :
  (0 < limit < 2 ^ 53)%Z ->
  (Number_of_Z 0 / Number_of_Z limit)%float = zero.
Proof.
  intros Hl. destruct (Prim2SF_Number_of_Z limit Hl) as (m & e & E & _).
  rewrite <- (SF2Prim_Prim2SF (Number_of_Z 0 / Number_of_Z limit)).
  rewrite div_spec, E. reflexivity.
Qed.

Lemma totalPages_exact total limit :
  (0 <= total < 2 ^ 53)%Z -> (0 < limit < 2 ^ 53)%Z ->
  Math_ceil (Number_of_Z total / Number_of_Z limit) =
  Number_of_Z (ceil_div total limit).
Proof.
  intros Ht Hl. destruct (Z.eq_dec total 0) as [->|Hn].
  - rewrite (zero_quotient limit Hl). unfold ceil_div.
    rewrite Z.div_small by lia. reflexivity.
  - apply ceil_quotient; lia.
Qed.

End Binary64Pages.

(** ** Binary64 arithmetic on counts: sums, differences and products *)

Section Binary64Integers.
Local Open Scope R_scope.

Lemma Prim2SF_one : Prim2SF 1 = S754_finite false (Z.to_pos M52) (-52).
Proof. reflexivity. Qed.

Lemma Number_of_Z_zero : Number_of_Z 0 = zero.
Proof. reflexivity. Qed.

(** The integer held by the Number of an integer below 2^53 is that
    integer. *)
Lemma Number_to_Z_of_Z z : (0 <= z < 2 ^ 53)%Z -> Number_to_Z (Number_of_Z z) = z.
Proof.
  intros Hz. destruct (Z.eq_dec z 0) as [->|Hn]; [reflexivity|].
  destruct (Prim2SF_Number_of_Z z ltac:(lia)) as (m & e & E & N & Hv & He).
  pose proof (normal_pos m e N) as Pm.
  unfold Number_to_Z. rewrite E. rewrite Z2Pos.id by assumption.
  destruct (Z.leb_spec 0 e) as [G|G].
  - apply eq_IZR. rewrite <- Hv. unfold value. rewrite mult_IZR, bpow_IZR by lia.
    reflexivity.
  - rewrite value_as_quotient in Hv by lia.
    assert (P : (0 < 2 ^ (- e))%Z) by (apply Z.pow_pos_nonneg; lia).
    assert (Em : m = (z * 2 ^ (- e))%Z).
    { apply eq_IZR. rewrite mult_IZR, <- Hv. field.
      apply not_0_IZR. lia. }
    rewrite Em. apply Z.div_mul. lia.
Qed.


Lemma normalize_scaled k :
  (0 < k < 2 ^ 53)%Z ->
  binary_normalize prec emax (k * 2 ^ 52) (-52) false = Prim2SF (Number_of_Z k).
Proof.
  intros Hk.
  destruct (Prim2SF_Number_of_Z k Hk) as (m0 & e0 & E0 & N0 & Hv0 & He0).
  rewrite E0.
  assert (Hp : (0 < k * 2 ^ 52)%Z) by lia.
  destruct (k * 2 ^ 52)%Z as [|p|p] eqn:Ep; try lia.
  unfold binary_normalize, binary_round.
  change (Z.pos (digits2_pos p)) with (Zdigits2 (Z.pos p)).
  assert (B : (2 ^ 52 <= Z.pos p < 2 ^ 105)%Z).
  { rewrite <- Ep. change (2 ^ 105)%Z with (2 ^ 53 * 2 ^ 52)%Z. lia. }
  pose proof (@Zdigits2_between (Z.pos p) 52 105 ltac:(lia) ltac:(lia) B) as D.
  set (dp := Zdigits2 (Z.pos p)) in *.
  rewrite fexp_normal by lia.
  assert (S : shl_align p (-52) (dp + -52 - 53) = (p, (-52)%Z)).
  { unfold shl_align. destruct (dp + -52 - 53 - -52)%Z eqn:E; try reflexivity. lia. }
  rewrite S.
  destruct (@binary_round_aux_correct (value (Z.pos p) (-52)) false (Z.pos p) (-52)
              loc_Exact dp)
    as (m & e & R1 & R2 & R3); try lia; auto.
  { apply located_exact. }
  rewrite R1.
  assert (Hv : value (Z.pos p) (-52) = value m0 e0).
  { rewrite Hv0, <- Ep. unfold value. rewrite mult_IZR.
    rewrite <- (bpow_IZR 52) by lia. rewrite Rmult_assoc, <- bpow_add.
    unfold bpow. simpl. ring. }
  rewrite Hv in R2.
  pose proof (rounds_to_representable _ _ _ _ (proj1 N0) R2) as Ev.
  destruct (value_inj m e m0 e0 (proj1 R2) (proj1 N0) Ev) as [-> ->].
  reflexivity.
Qed.

Lemma aligned m e :
  normal m e -> (-52 <= e)%Z ->
  Z.pos (fst (shl_align (Z.to_pos m) e (-52))) = (m * 2 ^ (e + 52))%Z.
Proof.
  intros N He. pose proof (normal_pos m e N) as Pm. unfold shl_align.
  destruct (-52 - e)%Z as [|d|d] eqn:E; try lia; cbn [fst].
  - replace (e + 52)%Z with 0%Z by lia. rewrite Z2Pos.id by assumption. lia.
  - rewrite iter_xO, Z2Pos.id by assumption. f_equal. f_equal. lia.
Qed.

Lemma scaled_value m e z :
  value m e = IZR z -> (-52 <= e)%Z -> (m * 2 ^ (e + 52) = z * 2 ^ 52)%Z.
Proof.
  intros Hv He. apply eq_IZR. rewrite !mult_IZR, <- !bpow_IZR by lia.
  rewrite bpow_add, <- Hv. unfold value. ring.
Qed.

(** Adding 1 to a count, and taking 1 from it, is exact below 2^53. *)
Lemma Number_succ z :
  (0 <= z)%Z -> (z + 1 < 2 ^ 53)%Z -> (Number_of_Z z + 1)%float = Number_of_Z (z + 1).
Proof.
  intros H0 H1. apply Prim2SF_inj. rewrite add_spec, Prim2SF_one.
  destruct (Z.eq_dec z 0) as [->|Hn]; [reflexivity|].
  destruct (Prim2SF_Number_of_Z z ltac:(lia)) as (m & e & E & N & Hv & He).
  rewrite E. unfold SF64add, SFadd. rewrite Z.min_r by lia.
  cbn [cond_Zopp]. rewrite (aligned m e N) by lia.
  rewrite (scaled_value m e z Hv) by lia.
  change (Z.pos (fst (shl_align (Z.to_pos M52) (-52) (-52)))) with (1 * 2 ^ 52)%Z.
  rewrite <- Z.mul_add_distr_r. apply normalize_scaled. lia.
Qed.

Lemma Number_pred z :
  (1 <= z <= 2 ^ 53)%Z -> (Number_of_Z z - 1)%float = Number_of_Z (z - 1).
Proof.
  intros Hz. destruct (Z.eq_dec z (2 ^ 53)) as [->|Hlt]; [reflexivity|].
  apply Prim2SF_inj. rewrite sub_spec, Prim2SF_one.
  destruct (Prim2SF_Number_of_Z z ltac:(lia)) as (m & e & E & N & Hv & He).
  rewrite E. unfold SF64sub, SFsub. rewrite Z.min_r by lia.
  cbn [cond_Zopp]. rewrite (aligned m e N) by lia.
  rewrite (scaled_value m e z Hv) by lia.
  change (Z.pos (fst (shl_align (Z.to_pos M52) (-52) (-52)))) with (1 * 2 ^ 52)%Z.
  rewrite <- Z.mul_sub_distr_r.
  destruct (Z.eq_dec z 1) as [->|Hn]; [reflexivity|].
  apply normalize_scaled. lia.
Qed.

(** The product of two counts is exact below 2^53; a product that is not
    below 2^53 is a Number that is not below it either. *)
Lemma Number_mul a b :
  (0 <= a < 2 ^ 53)%Z -> (0 < b < 2 ^ 53)%Z ->
  ((a * b < 2 ^ 53)%Z -> (Number_of_Z a * Number_of_Z b)%float = Number_of_Z (a * b)) /\
  ((2 ^ 53 <= a * b)%Z ->
   (2 ^ 53 <= Number_to_Z (Number_of_Z a * Number_of_Z b)%float)%Z).
Proof.
  intros Ha Hb.
  destruct (Prim2SF_Number_of_Z b Hb) as (mb & eb & Eb & Nb & Hvb & Heb).
  destruct (Z.eq_dec a 0) as [->|Hn].
  { split; [|lia]. intros _. apply Prim2SF_inj. rewrite mul_spec, Eb. reflexivity. }
  destruct (Prim2SF_Number_of_Z a ltac:(lia)) as (ma & ea & Ea & Na & Hva & Hea).
  destruct (SFmul_correct ma ea mb eb Na Nb ltac:(lia)) as (m & e & E & R & N).
  assert (Ep : Prim2SF (Number_of_Z a * Number_of_Z b) = S754_finite false (Z.to_pos m) e).
  { rewrite mul_spec, Ea, Eb. exact E. }
  rewrite Hva, Hvb, <- mult_IZR in R.
  split.
  - intros Hs.
    assert (Hab : (0 < a * b < 2 ^ 53)%Z) by nia.
    destruct (Prim2SF_Number_of_Z (a * b) Hab) as (m0 & e0 & E0 & N0 & Hv0 & He0).
    rewrite <- Hv0 in R.
    pose proof (rounds_to_representable _ _ _ _ (proj1 N0) R) as Ev.
    apply (Number_of_Z_unique _ m e); auto; [apply N | congruence].
  - intros Hs.
    assert (L : value M52 1 <= value m e).
    { apply (rounds_to_mono (value M52 1) (IZR (a * b)) M52 1 m e); auto.
      - apply rounds_to_exact. unfold M52. lia.
      - unfold value, bpow, M52. simpl.
        apply Rle_trans with (IZR (2 ^ 53)); [simpl; lra | now apply IZR_le]. }
    assert (He : (1 <= e)%Z).
    { destruct (Z_lt_le_dec e 1) as [G|G]; [|assumption]. exfalso.
      pose proof (value_lt_exponent m e M52 1 (proj1 N) ltac:(unfold M52; lia) G). lra. }
    pose proof (normal_pos m e N) as Pm.
    unfold Number_to_Z. rewrite Ep, Z2Pos.id by assumption.
    replace (0 <=? e)%Z with true by (symmetry; apply Z.leb_le; lia).
    assert (2 ^ 1 <= 2 ^ e)%Z by (apply Z.pow_le_mono_r; lia).
    destruct N as [[Nm _] _]. change (2 ^ 53)%Z with (M52 * 2 ^ 1)%Z.
    apply Z.mul_le_mono_nonneg; unfold M52 in *; lia.
Qed.

(** The documents a page skips: the product of Numbers is the exact one,
    or both are beyond every count. *)
Lemma skip_cases page limit :
  (1 <= page <= 2 ^ 53)%Z -> (1 <= limit < 2 ^ 53)%Z ->
  let s := Number_to_Z ((Number_of_Z page - 1) * Number_of_Z limit)%float in
  s = ((page - 1) * limit)%Z \/ (2 ^ 53 <= s /\ 2 ^ 53 <= (page - 1) * limit)%Z.
Proof.
  intros Hp Hl s. subst s. rewrite Number_pred by assumption.
  destruct (Number_mul (page - 1) limit ltac:(lia) ltac:(lia)) as [H1 H2].
  destruct (Z_lt_le_dec ((page - 1) * limit) (2 ^ 53)) as [G|G].
  - left. rewrite H1 by assumption. apply Number_to_Z_of_Z. nia.
  - right. auto.
Qed.

Lemma Number_to_Z_limit : Number_to_Z (Number_of_Z (2 ^ 53)) = (2 ^ 53)%Z.
Proof. reflexivity. Qed.

End Binary64Integers.

(** ** Counting a view *)

Lemma add_view_views c :
  safe_count (Composition.views c + 1) ->
  Composition.views (add_view c) = Composition.views c + 1.
Proof.
  unfold safe_count, add_view, Number_of_nat. intros H. cbn [Composition.views].
  rewrite Number_succ by lia. rewrite Number_to_Z_of_Z by lia. lia.
Qed.

Lemma add_view_saturated c :
  Composition.views c = Z.to_nat (2 ^ 53) -> add_view c = c.
Proof.
  intros H. unfold add_view, Number_of_nat. rewrite H.
  rewrite Z2Nat.id by (apply Z.pow_nonneg; lia).
  assert (E : (Number_of_Z (2 ^ 53) + 1)%float = Number_of_Z (2 ^ 53)) by reflexivity.
  rewrite E, Number_to_Z_limit, <- H. now destruct c.
Qed.

(** X7: a [GET /api/compositions/:id] that is allowed counts one view as
    long as the counter stays below 2^53, and at 2^53 leaves it where it
    is: [views] is a Number, and 2^53 + 1 is not one.  It changes nothing
    else in the composition: likes, dislikes and rating stay as stored,
    the other compositions and the ledger are untouched, the answer
    reports the vote the ledger holds for the user, and, since the
    handler saves the composition, the [compositionsCount] of the song
    and of the composer are left exact. *)
Theorem getComposition_counts_view
  (user : option ObjectId) (id : ObjectId) (c : Composition.doc) (w : World) :
  find (has_id CompositionModel id) (compositions (db w)) = Some c ->
  Composition.isPublic c = true \/
  (user = Some (Composition.composer c) /\
   find (has_id UserModel (Composition.composer c)) (users (db w)) <> None) ->
  let w' := snd (getComposition user id w) in
  exists resp c',
    fst (getComposition user id w) = Ok resp /\
    status resp = 200 /\
    field "userVote" (body resp) = Some (userVote_of user id (db w)) /\
    find (has_id CompositionModel id) (compositions (db w')) = Some c' /\
    (safe_count (Composition.views c + 1) ->
     Composition.views c' = Composition.views c + 1) /\
    (Composition.views c = Z.to_nat (2 ^ 53) ->
     Composition.views c' = Composition.views c) /\
    Composition.likes c' = Composition.likes c /\
    Composition.dislikes c' = Composition.dislikes c /\
    Composition.rating c' = Composition.rating c /\
    (forall j, j <> id ->
       find (has_id CompositionModel j) (compositions (db w')) =
       find (has_id CompositionModel j) (compositions (db w))) /\
    likedislikes (db w') = likedislikes (db w) /\
    rollups_exact c (db w').
Proof.
  intros Hc Ha w'. subst w'.
  rewrite (getComposition_view_run user id c w Hc Ha). cbn zeta. cbn [fst snd db].
  set (d := with_docs CompositionModel _ (db w)).
  destruct (rollup_frame (add_view c) d) as (El & Ec & _).
  pose proof Hc as Hi. apply find_has_id in Hi. cbn in Hi.
  eexists _, (add_view c). split; [reflexivity|].
  split; [reflexivity|]. split; [reflexivity|]. split.
  { rewrite Ec. unfold d. cbn [compositions with_docs CompositionModel].
    rewrite <- Hi. apply (@find_replace_doc _ CompositionModel (add_view c) c).
    cbn [id_of CompositionModel add_view Composition._id]. rewrite Hi. exact Hc. }
  split; [apply add_view_views|].
  split; [intros H; now rewrite (add_view_saturated c H)|].
  split; [reflexivity|]. split; [reflexivity|]. split; [reflexivity|].
  split; [|split; [|split]].
  - intros j Hj. rewrite Ec. unfold d. cbn [compositions with_docs CompositionModel].
    apply find_replace_doc_other. cbn [id_of CompositionModel add_view Composition._id].
    congruence.
  - rewrite El. reflexivity.
  - apply (rollup_exact (add_view c) d).
  - apply (rollup_exact (add_view c) d).
Qed.

Lemma getComposition_counts_view_witness :
  let w1 := snd (deleteComposition 1 11 sample_two) in
  let w2 := snd (getComposition None 10 w1) in
  songs (db w1) = [Song.mk 20 2 2] /\
  songs (db w2) = [Song.mk 20 2 1] /\
  compositions (db w2) = [Composition.mk 10 20 1 0 0 0%float 1 true] /\
  rollups_exact (Composition.mk 10 20 1 0 0 0%float 0 true) (db w2).
Proof.
  destruct (getComposition_counts_view None 10
              (Composition.mk 10 20 1 0 0 0%float 0 true)
              (snd (deleteComposition 1 11 sample_two)) eq_refl (or_introl eq_refl))
    as (resp & c' & _ & _ & _ & _ & _ & _ & _ & _ & _ & _ & _ & H).
  repeat split; try reflexivity; apply H.
Defined.

(** ** Listing a user's compositions *)

Lemma ceil_div_bounds total limit :
  (0 <= total)%Z -> (0 < limit)%Z ->
  (0 <= ceil_div total limit <= total)%Z /\
  (limit * (ceil_div total limit - 1) < total <= limit * ceil_div total limit)%Z \/
  (total = 0 /\ ceil_div total limit = 0)%Z.
Proof.
  intros Ht Hl. unfold ceil_div.
  destruct (Z.eq_dec total 0) as [->|Hn].
  - right. split; [reflexivity|]. apply Z.div_small. lia.
  - left.
    pose proof (Z.div_mod (total + limit - 1) limit ltac:(lia)) as D.
    pose proof (Z.mod_pos_bound (total + limit - 1) limit ltac:(lia)) as B.
    nia.
Qed.

Lemma page_before_last page total limit :
  (0 <= total)%Z -> (0 < limit)%Z -> (0 <= page)%Z ->
  (page <? ceil_div total limit)%Z = (page * limit <? total)%Z.
Proof.
  intros Ht Hl Hp.
  destruct (ceil_div_bounds total limit Ht Hl) as [[H1 H2]|[-> ->]].
  - destruct (Z.ltb_spec page (ceil_div total limit)),
             (Z.ltb_spec (page * limit) total); try reflexivity; nia.
  - destruct (Z.ltb_spec page 0), (Z.ltb_spec (page * limit) 0); try reflexivity; nia.
Qed.

Lemma pagination_fields (page limit : Z) (total : nat) :
  (1 <= page < 2 ^ 53)%Z -> (1 <= limit < 2 ^ 53)%Z -> safe_count total ->
  let p := pagination page limit total in
  totalPages p = Number_of_Z (ceil_div (Z.of_nat total) limit) /\
  hasNext p = (page * limit <? Z.of_nat total)%Z /\
  hasPrev p = (1 <? page)%Z /\
  currentPage p = page /\
  totalCompositions p = total.
Proof.
  intros Hp Hl Hs p. subst p. unfold safe_count in Hs. unfold pagination.
  cbn [totalPages hasNext hasPrev currentPage totalCompositions]. unfold Number_of_nat.
  rewrite (totalPages_exact (Z.of_nat total) limit) by lia.
  split; [reflexivity|]. split; [|repeat split].
  destruct (ceil_div_bounds (Z.of_nat total) limit ltac:(lia) ltac:(lia))
    as [[H1 H2]|[H1 H2]].
  - rewrite Number_of_Z_ltb by lia. apply page_before_last; lia.
  - rewrite Number_of_Z_ltb by lia. apply page_before_last; lia.
Qed.

(** X18: the [pagination] object is exact although the page count is
    computed with a binary64 division: for a total a Number holds exactly,
    [totalPages] is the total divided by the limit and rounded up,
    [hasNext] says whether documents lie beyond the current page, and
    [hasPrev] whether the page is not the first. *)
Theorem pagination_exact (page limit : Z) (total : nat) :
  (1 <= page < 2 ^ 53)%Z -> (1 <= limit < 2 ^ 53)%Z -> safe_count total ->
  let p := pagination page limit total in
  totalPages p = Number_of_Z (ceil_div (Z.of_nat total) limit) /\
  hasNext p = (page * limit <? Z.of_nat total)%Z /\
  hasPrev p = (1 <? page)%Z /\
  currentPage p = page /\
  totalCompositions p = total.
Proof. exact (pagination_fields page limit total). Qed.

Lemma pagination_exact_witness :
  let p := pagination 2 20 41 in
  totalPages p = 3%float /\ hasNext p = true /\ hasPrev p = true.
Proof.
  destruct (pagination_exact 2 20 41) as (H1 & H2 & H3 & _).
  - vm_compute. split; [discriminate | reflexivity].
  - vm_compute. split; [discriminate | reflexivity].
  - unfold safe_count. vm_compute. reflexivity.
  - split; [exact H1|]. split; [exact H2 | exact H3].
Defined.

Lemma page_errors_nil qpage qlimit :
  page_errors qpage qlimit = [] <->
  isInt_between 1 None qpage = true /\ isInt_between 1 (Some 50%Z) qlimit = true.
Proof.
  unfold page_errors.
  destruct (isInt_between 1 None qpage), (isInt_between 1 (Some 50%Z) qlimit); cbn;
    split; try tauto; try discriminate; intros [? ?]; discriminate.
Qed.

Lemma parseInt_or_exact default z :
  (1 <= z <= 2 ^ 53)%Z -> parseInt_or default (QInt z) = z.
Proof.
  intros Hz. unfold parseInt_or.
  assert (E : Number_to_Z (Number_of_Z z) = z).
  { destruct (Z.eq_dec z (2 ^ 53)) as [->|Hn];
      [apply Number_to_Z_limit | apply Number_to_Z_of_Z; lia]. }
  rewrite E. cbv zeta. destruct (Z.eqb_spec z 0); [lia | reflexivity].
Qed.

Lemma valid_page qpage :
  isInt_between 1 None qpage = true -> safe_page qpage ->
  (1 <= parseInt_or 1 qpage < 2 ^ 53)%Z.
Proof.
  destruct qpage as [|z|]; [cbn; lia | | discriminate].
  cbn [isInt_between safe_page]. rewrite andb_true_r. intros H Hs. apply Z.leb_le in H.
  rewrite parseInt_or_exact; lia.
Qed.

Lemma valid_limit qlimit :
  isInt_between 1 (Some 50%Z) qlimit = true -> (1 <= parseInt_or 20 qlimit <= 50)%Z.
Proof.
  destruct qlimit as [|z|]; [cbn; lia | | discriminate].
  cbn [isInt_between]. intros H. apply andb_true_iff in H. destruct H as [H1 H2].
  apply Z.leb_le in H1, H2. rewrite parseInt_or_exact; lia.
Qed.

Lemma sorted_length {A} (sorted : list A -> list A) l :
  sort_order sorted -> List.length (sorted l) = List.length l.
Proof. intros H. apply Permutation_length, H. Qed.

Lemma getUserCompositions_run sorted userId qpage qlimit w :
  sort_order sorted ->
  page_errors qpage qlimit = [] ->
  (1 <= parseInt_or 1 qpage <= 2 ^ 53)%Z ->
  safe_count (List.length (compositions (db w))) ->
  let page := parseInt_or 1 qpage in
  let limit := parseInt_or 20 qlimit in
  let items := firstn (Z.to_nat limit)
                 (skipn (Z.to_nat ((page - 1) * limit))
                    (sorted (public_of userId (db w)))) in
  getUserCompositions sorted userId qpage qlimit w =
  (Ok (Success (mkListing items
                  (pagination page limit (List.length (public_of userId (db w)))))),
   mkWorld (db w)
     (log w ++ OpFind Compositions
            :: match items with [] => [] | _ :: _ => [OpFind Songs] end
            ++ [OpCount Compositions])).
Proof.
  intros Hs He Hp Hsafe page limit items. pose proof He as Hv. apply page_errors_nil in Hv.
  destruct Hv as [_ Hl]. apply valid_limit in Hl. fold limit in Hl. fold page in Hp.
  unfold getUserCompositions, try_catch. rewrite He. fold page limit.
  unfold find_sorted. mrun'.
  destruct (Nat.eqb_spec (Z.to_nat limit) 0) as [E|_]; [lia|].
  fold (public_of userId (db w)).
  set (all := sorted (public_of userId (db w))).
  assert (Hlen : (Z.of_nat (List.length all) < 2 ^ 53)%Z).
  { unfold all. rewrite (sorted_length sorted _ Hs). unfold public_of, safe_count in *.
    pose proof (filter_length_le (by_user userId) (compositions (db w))). lia. }
  assert (Hskip : skipn (Z.to_nat (Number_to_Z
                           ((Number_of_Z page - 1) * Number_of_Z limit)%float)) all =
                  skipn (Z.to_nat ((page - 1) * limit)) all).
  { destruct (skip_cases page limit ltac:(lia) ltac:(lia)) as [->|[G1 G2]];
      [reflexivity|].
    rewrite !skipn_all2 by lia. reflexivity. }
  rewrite Hskip. subst all. fold items.
  destruct items; mrun'; rewrite <- !app_assoc; reflexivity.
Qed.

Lemma In_firstn {A} n (l : list A) x : In x (firstn n l) -> In x l.
Proof.
  revert l. induction n as [|n IH]; intros [|a l]; cbn; try tauto.
  intros [->|H]; auto.
Qed.

Lemma In_skipn {A} n (l : list A) x : In x (skipn n l) -> In x l.
Proof.
  revert l. induction n as [|n IH]; intros [|a l]; cbn; try tauto.
  intros H. right. auto.
Qed.

Lemma NoDup_slice {A} (a b : nat) (l : list A) : NoDup l -> NoDup (firstn b (skipn a l)).
Proof.
  intros H. rewrite <- (firstn_skipn a l) in H. apply NoDup_app_remove_l in H.
  rewrite <- (firstn_skipn b (skipn a l)) in H. now apply NoDup_app_remove_r in H.
Qed.

(** X19: for a query that passes validation and a page below 2^53,
    [GET /api/compositions/user/:userId] reads only.  Whatever the order
    in which the sort delivers compositions with equal keys, it lists as
    many compositions as remain after the pages before, up to [limit];
    each of them is stored, composed by the user and public, and none is
    listed twice; the pagination is over all the user's public
    compositions. *)
Theorem getUserCompositions_lists_page
  (sorted : list Composition.doc -> list Composition.doc)
  (userId : ObjectId) (qpage qlimit : QueryInt) (w : World) :
  sort_order sorted ->
  page_errors qpage qlimit = [] ->
  safe_page qpage ->
  safe_count (List.length (compositions (db w))) ->
  let page := parseInt_or 1 qpage in
  let limit := parseInt_or 20 qlimit in
  let total := List.length (public_of userId (db w)) in
  exists l,
    fst (getUserCompositions sorted userId qpage qlimit w) = Ok (Success l) /\
    db (snd (getUserCompositions sorted userId qpage qlimit w)) = db w /\
    List.length (listed l) =
      Nat.min (Z.to_nat limit) (total - Z.to_nat ((page - 1) * limit)) /\
    (forall c, In c (listed l) ->
       In c (compositions (db w)) /\
       Composition.composer c = userId /\ Composition.isPublic c = true) /\
    (NoDup (map Composition._id (compositions (db w))) ->
     NoDup (map Composition._id (listed l))) /\
    listed_pagination l = pagination page limit total.
Proof.
  intros Hs He Hp Hsafe page limit total.
  pose proof He as Hv. apply page_errors_nil in Hv. destruct Hv as [Hpg _].
  pose proof (valid_page _ Hpg Hp) as Hpage. fold page in Hpage.
  rewrite (getUserCompositions_run sorted userId qpage qlimit w Hs He ltac:(lia) Hsafe).
  cbn zeta. fold page limit. cbn [fst snd db]. eexists. split; [reflexivity|].
  cbn [listed listed_pagination]. split; [reflexivity|].
  split; [|split; [|split; [|reflexivity]]].
  - rewrite length_firstn, length_skipn, (sorted_length sorted _ Hs). reflexivity.
  - intros c Hc. apply In_firstn, In_skipn in Hc.
    apply (Permutation_in _ (Hs _)) in Hc. unfold public_of in Hc.
    apply filter_In in Hc. destruct Hc as [Hin Hb].
    unfold by_user in Hb. apply andb_true_iff in Hb. destruct Hb as [Hu Hpub].
    apply Nat.eqb_eq in Hu. auto.
  - intros Hn. rewrite <- firstn_map, <- skipn_map. apply NoDup_slice.
    apply (Permutation_NoDup (Permutation_sym (Permutation_map _ (Hs _)))).
    unfold public_of. now apply NoDup_map_filter.
Qed.

Lemma rev_sort_order {A} : sort_order (@rev A).
Proof. intros l. apply Permutation_sym, Permutation_rev. Qed.

Lemma getUserCompositions_lists_page_witness :
  exists l,
    fst (getUserCompositions (@rev _) 1 QAbsent (QInt 1) sample_two) = Ok (Success l) /\
    List.length (listed l) = 1 /\
    hasNext (listed_pagination l) = true.
Proof.
  destruct (getUserCompositions_lists_page (@rev _) 1 QAbsent (QInt 1) sample_two
              rev_sort_order eq_refl I)
    as (l & H1 & _ & H2 & _ & _ & H3).
  - unfold safe_count. vm_compute. reflexivity.
  - exists l. split; [exact H1|]. split; [exact H2|]. rewrite H3. vm_compute. reflexivity.
Defined.

(** X21: a page that is not an integer of at least 1, or a limit that is
    not an integer between 1 and 50, is refused with 400 and the messages
    of the failing validators, before any storage call. *)
Theorem getUserCompositions_rejects
  (sorted : list Composition.doc -> list Composition.doc)
  (userId : ObjectId) (qpage qlimit : QueryInt) (w : World) :
  isInt_between 1 None qpage = false \/ isInt_between 1 (Some 50%Z) qlimit = false ->
  getUserCompositions sorted userId qpage qlimit w =
    (Ok (Failure (validation_failed (page_errors qpage qlimit))), w) /\
  (isInt_between 1 None qpage = false ->
   In "Page must be a positive integer"%string (page_errors qpage qlimit)) /\
  (isInt_between 1 (Some 50%Z) qlimit = false ->
   In "Limit must be between 1 and 50"%string (page_errors qpage qlimit)).
Proof.
  intros H. unfold getUserCompositions, try_catch, page_errors.
  destruct (isInt_between 1 None qpage), (isInt_between 1 (Some 50%Z) qlimit); cbn.
  - destruct H; discriminate.
  - split; [reflexivity|]. split; [discriminate | intros _; now left].
  - split; [reflexivity|]. split; [intros _; now left | discriminate].
  - split; [reflexivity|]. split; intros _; [now left | right; now left].
Qed.

Lemma getUserCompositions_rejects_witness :
  getUserCompositions (@rev _) 1 (QInt 0) (QInt 51) sample =
  (Ok (Failure (validation_failed
                  ["Page must be a positive integer"; "Limit must be between 1 and 50"]%string)),
   sample).
Proof.
  apply (getUserCompositions_rejects (@rev _) 1 (QInt 0) (QInt 51) sample). now left.
Defined.

Lemma page_of_run sorted userId page limit w :
  sort_order sorted ->
  (1 <= page <= 2 ^ 53)%Z -> (1 <= limit <= 50)%Z ->
  safe_count (List.length (compositions (db w))) ->
  page_of sorted userId page limit w =
  firstn (Z.to_nat limit)
    (skipn ((Z.to_nat page - 1) * Z.to_nat limit) (sorted (public_of userId (db w)))).
Proof.
  intros Hs Hp Hl Hsafe. unfold page_of.
  assert (He : page_errors (QInt page) (QInt limit) = []).
  { apply page_errors_nil. cbn. rewrite andb_true_r.
    split; [apply Z.leb_le; lia|]. apply andb_true_iff. split; apply Z.leb_le; lia. }
  assert (E1 : parseInt_or 1 (QInt page) = page) by (apply parseInt_or_exact; lia).
  assert (E2 : parseInt_or 20 (QInt limit) = limit) by (apply parseInt_or_exact; lia).
  rewrite (getUserCompositions_run sorted userId _ _ w Hs He) by (rewrite ?E1; auto; lia).
  cbn zeta. cbn [fst listed].
  rewrite E1, E2. f_equal. f_equal. rewrite Z2Nat.inj_mul, Z2Nat.inj_sub by lia.
  reflexivity.
Qed.

(** X22: [hasNext] tells the truth about the next page: it is true exactly
    when the request for the following page, with the same limit and
    nothing written in between, lists at least one composition, in
    whatever order the two requests get the compositions sorted. *)
Theorem getUserCompositions_hasNext
  (sorted sorted' : list Composition.doc -> list Composition.doc)
  (userId : ObjectId) (page limit : Z) (w : World) :
  sort_order sorted -> sort_order sorted' ->
  (1 <= page < 2 ^ 53)%Z -> (1 <= limit <= 50)%Z ->
  safe_count (List.length (compositions (db w))) ->
  hasNext_of sorted userId page limit w = true <->
  page_of sorted' userId (page + 1) limit w <> [].
Proof.
  intros Hs Hs' Hp Hl Hsafe.
  rewrite (page_of_run sorted' userId (page + 1) limit w Hs') by (auto; lia).
  unfold hasNext_of.
  assert (He : page_errors (QInt page) (QInt limit) = []).
  { apply page_errors_nil. cbn. rewrite andb_true_r.
    split; [apply Z.leb_le; lia|]. apply andb_true_iff. split; apply Z.leb_le; lia. }
  assert (E1 : parseInt_or 1 (QInt page) = page) by (apply parseInt_or_exact; lia).
  assert (E2 : parseInt_or 20 (QInt limit) = limit) by (apply parseInt_or_exact; lia).
  rewrite (getUserCompositions_run sorted userId _ _ w Hs He) by (rewrite ?E1; auto; lia).
  cbn zeta. cbn [fst listed_pagination].
  rewrite E1, E2.
  set (all := sorted' (public_of userId (db w))).
  assert (Ea : List.length (public_of userId (db w)) = List.length all)
    by (unfold all; now rewrite (sorted_length sorted' _ Hs')).
  rewrite Ea.
  assert (Hlen : List.length all <= List.length (compositions (db w))).
  { rewrite <- Ea. unfold public_of. apply filter_length_le. }
  unfold safe_count in Hsafe.
  destruct (pagination_fields page limit (List.length all)) as (_ & -> & _);
    [lia | lia | unfold safe_count; lia |].
  replace (Z.to_nat (page + 1) - 1) with (Z.to_nat page) by lia.
  rewrite Z.ltb_lt.
  assert (Hk : Z.to_nat page * Z.to_nat limit = Z.to_nat (page * limit))
    by (rewrite Z2Nat.inj_mul; lia).
  rewrite Hk. set (k := Z.to_nat (page * limit)).
  assert (Ek : (page * limit = Z.of_nat k)%Z) by (unfold k; lia).
  rewrite Ek.
  destruct (Z.to_nat limit) as [|n] eqn:En; [lia|].
  split.
  - intros H E. apply (f_equal (@List.length _)) in E.
    rewrite length_firstn, length_skipn in E. cbn [List.length] in E. lia.
  - intros H. destruct (le_lt_dec (List.length all) k) as [G|G]; [|lia].
    exfalso. apply H. now rewrite skipn_all2.
Qed.

Lemma getUserCompositions_hasNext_witness :
  hasNext_of (@rev _) 1 1 1 sample_two = true /\
  page_of (fun l => l) 1 2 1 sample_two <> [].
Proof.
  split; [reflexivity|].
  apply (getUserCompositions_hasNext (@rev _) (fun l => l) 1 1 1 sample_two).
  - apply rev_sort_order.
  - intros l. apply Permutation_refl.
  - vm_compute. split; [discriminate | reflexivity].
  - lia.
  - unfold safe_count. vm_compute. reflexivity.
  - reflexivity.
Defined.
